(** * iron-session: the sealing engine and the session lifecycle

    A shallow embedding of [src/core.ts].  The file has four parts:

    - [Js]: the fragment of ECMAScript the source relies on (thrown errors,
      strings, [String.prototype.split], [Number.parseInt], ordinary
      objects with property descriptors);
    - [Sealing]: [parseSeal], [sealData], [unsealData] over an abstract
      [Backend] that stands for the third-party code the source imports
      (ML-KEM, ML-DSA, WebCrypto AES-GCM, rfc4648, JSON, TextEncoder);
    - [Lifecycle]: [computeCookieMaxAge], [getSessionConfig] and the two
      [getIronSession] variants with their [save]/[destroy]/[updateConfig];
    - [Reference]: an executable backend used to run the definitions on
      concrete tokens. *)

From Stdlib Require Import ZArith NArith List String Ascii Bool Lia DecimalString.
From Stdlib.Strings Require Import Byte.
Import ListNotations.

Local Open Scope Z_scope.
Local Open Scope list_scope.

(* ================================================================== *)
(** * The ECMAScript fragment *)
(* ================================================================== *)

Module Js.

(** A [Uint8Array]. *)
Definition bytes := list byte.

(** A JavaScript number as the source uses it: an integer count (of seconds,
    of characters, a parsed version) or [NaN].  [Num z] stands for the
    double that equals [z]; arithmetic on [Z] is the arithmetic of doubles
    as long as the operands and the result are safe integers. *)
Inductive number :=
| NaN
| Num (z : Z).

(** [Number.isSafeInteger]. *)
Definition safeInteger (z : Z) : Prop :=
  -9007199254740991 <= z <= 9007199254740991.

(** A thrown value.  [instanceOfError] is what [error instanceof Error]
    answers, [name] the error constructor and [message] its message. *)
Record thrown := mkThrown {
  instanceOfError : bool;
  name : string;
  message : string
}.

Definition Error (msg : string) : thrown := mkThrown true "Error" msg.
Definition TypeError (msg : string) : thrown := mkThrown true "TypeError" msg.
Definition SyntaxError (msg : string) : thrown := mkThrown true "SyntaxError" msg.

(** The outcome of evaluating an expression that may throw. *)
Inductive result (A : Type) :=
| Ok (a : A)
| Throw (e : thrown).
Arguments Ok {A} a.
Arguments Throw {A} e.

Definition rbind {A B} (r : result A) (k : A -> result B) : result B :=
  match r with
  | Ok a => k a
  | Throw e => Throw e
  end.

(** [try { body } catch (error) { handler }]. *)
Definition try_catch {A} (body : result A) (handler : thrown -> result A)
  : result A :=
  match body with
  | Ok a => Ok a
  | Throw e => handler e
  end.

(** The entropy the process draws from ([crypto.getRandomValues]): an
    unbounded supply of bytes, consumed from the front. *)
Definition entropy := nat -> byte.

(** Code that may draw entropy and may throw. *)
Definition M (A : Type) := entropy -> result (A * entropy).

Definition ret {A} (a : A) : M A := fun s => Ok (a, s).

Definition bind {A B} (m : M A) (k : A -> M B) : M B :=
  fun s =>
    match m s with
    | Ok (a, s') => k a s'
    | Throw e => Throw e
    end.

Definition lift {A} (r : result A) : M A :=
  fun s =>
    match r with
    | Ok a => Ok (a, s)
    | Throw e => Throw e
    end.

Definition throw {A} (e : thrown) : M A := fun _ => Throw e.

(** [randomBytes(n)] of [@noble/hashes/utils]: the next [n] bytes. *)
Definition randomBytes (n : nat) : M bytes :=
  fun s => Ok (map s (seq 0 n), fun i => s (n + i)%nat).

(** ** Strings *)

Fixpoint prefixb (p s : string) : bool :=
  match p, s with
  | EmptyString, _ => true
  | String a p', String b s' => Ascii.eqb a b && prefixb p' s'
  | String _ _, EmptyString => false
  end.

(** [s.split(sep)] for a one-character separator.  The array it returns has
    at least one element: the part before the first separator. *)
Fixpoint split (sep : ascii) (s : string) : string * list string :=
  match s with
  | EmptyString => (EmptyString, [])
  | String c s' =>
      let '(first, rest) := split sep s' in
      if Ascii.eqb c sep then (EmptyString, first :: rest)
      else (String c first, rest)
  end.

Definition split_array (sep : ascii) (s : string) : list string :=
  let '(first, rest) := split sep s in first :: rest.

(** [s] holds no occurrence of [c]. *)
Fixpoint freeOf (c : ascii) (s : string) : bool :=
  match s with
  | EmptyString => true
  | String d s' => negb (Ascii.eqb d c) && freeOf c s'
  end.

(** ** [Number.parseInt(s, 10)]

    On strings of one-byte characters: the white space skipped is the
    ASCII white space, and the number is the integer the digits denote,
    which is what [Number.parseInt] returns as long as that integer is a
    safe integer. *)

Definition is_white_space (c : ascii) : bool :=
  let n := nat_of_ascii c in
  ((9 <=? n) && (n <=? 13) || (n =? 32))%nat.

Definition digit_value (c : ascii) : option Z :=
  let n := Z.of_nat (nat_of_ascii c) in
  if (48 <=? n) && (n <=? 57) then Some (n - 48) else None.

Fixpoint skip_white_space (s : string) : string :=
  match s with
  | String c s' => if is_white_space c then skip_white_space s' else s
  | EmptyString => EmptyString
  end.

(** The longest prefix of decimal digits, read with the accumulator [acc];
    [None] when the string does not start with a digit. *)
Fixpoint read_digits (acc : option Z) (s : string) : option Z :=
  match s with
  | String c s' =>
      match digit_value c with
      | Some d =>
          read_digits (Some (10 * match acc with Some a => a | None => 0 end + d)) s'
      | None => acc
      end
  | EmptyString => acc
  end.

Definition parseInt10 (s : string) : number :=
  let s1 := skip_white_space s in
  let '(sign, s2) :=
    match s1 with
    | String "-" r => (-1, r)
    | String "+" r => (1, r)
    | _ => (1, s1)
    end in
  match read_digits None s2 with
  | Some z => Num (sign * z)
  | None => NaN
  end.

(** ** JSON values

    What [JSON.parse] returns and [JSON.stringify] accepts; numbers are
    restricted to integers. *)
#[warnings="-register-all"]
Inductive json :=
| JNull
| JBool (b : bool)
| JNum (n : Z)
| JStr (s : string)
| JArr (items : list json)
| JObj (fields : list (string * json)).

(** Lookup in an association list keyed by property name. *)
Fixpoint assoc {V} (k : string) (l : list (string * V)) : option V :=
  match l with
  | [] => None
  | (k', v) :: l' => if String.eqb k k' then Some v else assoc k l'
  end.

(** [v.k] for a value [v] that came out of [JSON.parse]: reading a property
    of [null] throws, a property the value does not have is [undefined]
    ([None]). *)
Definition member (v : json) (k : string) : result (option json) :=
  match v with
  | JNull =>
      Throw (TypeError ("Cannot read properties of null (reading '" ++ k ++ "')"))
  | JObj fields => Ok (assoc k fields)
  | _ => Ok None
  end.

(** What the source seals and what it gets back: a JSON value, or raw bytes
    ([data instanceof Uint8Array], and the fallback of [unsealData]). *)
Inductive value :=
| VJson (j : json)
| VBytes (b : bytes).

(** The empty object [{}]. *)
Definition empty_object : value := VJson (JObj []).

End Js.

Export Js.

Declare Scope js_scope.
Delimit Scope js_scope with js.
Notation "x <- m ;; k" := (bind m (fun x => k))
  (at level 61, m at next level, right associativity) : js_scope.
Notation "' pat <- m ;; k" := (bind m (fun x => match x with pat => k end))
  (at level 61, pat pattern, m at next level, right associativity) : js_scope.
Notation "x <~ r ;; k" := (rbind r (fun x => k))
  (at level 61, r at next level, right associativity) : js_scope.
Notation "' pat <~ r ;; k" := (rbind r (fun x => match x with pat => k end))
  (at level 61, pat pattern, r at next level, right associativity) : js_scope.

(* ================================================================== *)
(** * The sealing engine *)
(* ================================================================== *)

Module Sealing.

Local Open Scope string_scope.
Local Open Scope js_scope.

(** ** Third-party code

    [core.ts] imports its primitives; none of them is part of the
    repository.  A [Backend] gives each imported function the type the
    source uses it at.  Arguments are kept in the positions the source
    passes them: the first argument of a field is the first argument of
    the call in [core.ts], whatever the library takes it for. *)

Inductive KeyUsage := UsageEncrypt | UsageDecrypt.

(** The [CryptoKey] that [crypto.subtle.importKey("raw", k, AES-GCM, false,
    [usage])] returns. *)
Record CryptoKey := mkCryptoKey {
  raw : bytes;
  usage : KeyUsage
}.

Record Backend := mkBackend {
  (** [ml_kem1024.keygen(seed)]: [{publicKey, secretKey}]. *)
  ml_kem1024_keygen : bytes -> result (bytes * bytes);
  (** [ml_kem1024.encapsulate(publicKey)]: [{cipherText, sharedSecret}];
      it draws its own randomness. *)
  ml_kem1024_encapsulate : bytes -> M (bytes * bytes);
  (** [ml_kem1024.decapsulate(a, b)]. *)
  ml_kem1024_decapsulate : bytes -> bytes -> result bytes;
  (** [ml_dsa87.keygen(seed)]: [{publicKey, secretKey}]. *)
  ml_dsa87_keygen : bytes -> result (bytes * bytes);
  (** [ml_dsa87.sign(a, b)]. *)
  ml_dsa87_sign : bytes -> bytes -> M bytes;
  (** [ml_dsa87.verify(a, b, c)]. *)
  ml_dsa87_verify : bytes -> bytes -> bytes -> result bool;
  (** [crypto.subtle.importKey("raw", k, {name: "AES-GCM", length: 256},
      false, [usage])]. *)
  subtle_importKey : bytes -> KeyUsage -> result CryptoKey;
  (** [crypto.subtle.encrypt({name: "AES-GCM", iv}, key, data)]. *)
  subtle_encrypt : bytes -> CryptoKey -> bytes -> result bytes;
  (** [crypto.subtle.decrypt({name: "AES-GCM", iv}, key, data)]. *)
  subtle_decrypt : bytes -> CryptoKey -> bytes -> result bytes;
  (** [base64url.stringify(data)]. *)
  base64url_stringify : bytes -> string;
  (** [base64url.parse(x, {loose})]; [x] is whatever the caller hands over,
      [None] being [undefined]. *)
  base64url_parse : bool -> option json -> result bytes;
  JSON_stringify : json -> string;
  JSON_parse : string -> result json;
  (** [new TextEncoder().encode(s)] and [new TextDecoder().decode(b)]. *)
  TextEncoder_encode : string -> bytes;
  TextDecoder_decode : bytes -> string
}.

(** ** Constants *)

Definition currentMajorVersion : Z := 2.
Definition versionDelimiter : ascii := "~"%char.

(** [`${currentMajorVersion}`]. *)
Definition currentMajorVersion_string : string := "2".

(** ** Passwords *)

Definition PasswordsMap := list (string * string).

Inductive Password :=
| PasswordString (s : string)
| PasswordMap (m : PasswordsMap).

Definition normalizeStringPasswordToMap (password : Password) : PasswordsMap :=
  match password with
  | PasswordString s => [("1", s)]
  | PasswordMap m => m
  end.

(** The [{ password, ttl? }] argument of [sealData] and [unsealData]. *)
Record SealOptions := mkSealOptions {
  password : Password;
  ttl : option number
}.

(** ** [parseSeal] *)

Record ParsedSeal := mkParsedSeal {
  sealWithoutVersion : string;
  tokenVersion : option number
}.

Definition parseSeal (seal : string) : result ParsedSeal :=
  let parts := split_array versionDelimiter seal in
  let sealWithoutVersion := nth_error parts 0 in
  let tokenVersionAsString := nth_error parts 1 in
  let tokenVersion :=
    match tokenVersionAsString with
    | None => None
    | Some s => Some (parseInt10 s)
    end in
  match sealWithoutVersion with
  | None => Throw (Error "Invalid seal format: missing seal data")
  | Some s => Ok (mkParsedSeal s tokenVersion)
  end.

(** ** The seal-validity class

    [/^(Invalid signature|Invalid seal format|Bad hmac value|Cannot find
    password|Incorrect number of sealed components)/.test(error.message)],
    guarded by [error instanceof Error]. *)
Definition sealErrorPrefixes : list string :=
  [ "Invalid signature"; "Invalid seal format"; "Bad hmac value";
    "Cannot find password"; "Incorrect number of sealed components" ].

Definition isSealError (e : thrown) : bool :=
  instanceOfError e && existsb (fun p => prefixb p (message e)) sealErrorPrefixes.

Section WithBackend.

Variable B : Backend.

(** The [PQSealResult] object, as [JSON.stringify] sees it. *)
Definition PQSealResult (ciphertext publicKey signature signPublicKey : string)
  : json :=
  JObj [ ("ciphertext", JStr ciphertext); ("publicKey", JStr publicKey);
         ("signature", JStr signature); ("signPublicKey", JStr signPublicKey) ].

(** ** [sealData] *)
Definition sealData (data : value) (_options : SealOptions) : M string :=
  kemSeed <- randomBytes 64 ;;
  '(publicKey, _) <- lift (ml_kem1024_keygen B kemSeed) ;;
  '(_, sharedSecret) <- ml_kem1024_encapsulate B publicKey ;;
  iv <- randomBytes 12 ;;
  let dataBytes :=
    match data with
    | VBytes b => b
    | VJson j => TextEncoder_encode B (JSON_stringify B j)
    end in
  key <- lift (subtle_importKey B sharedSecret UsageEncrypt) ;;
  encryptedData <- lift (subtle_encrypt B iv key dataBytes) ;;
  dsaSeed <- randomBytes 64 ;;
  '(signPublicKey, signSecretKey) <- lift (ml_dsa87_keygen B dsaSeed) ;;
  signature <- ml_dsa87_sign B encryptedData signSecretKey ;;
  let seal :=
    PQSealResult (base64url_stringify B encryptedData)
                 (base64url_stringify B publicKey)
                 (base64url_stringify B signature)
                 (base64url_stringify B signPublicKey) in
  ret (base64url_stringify B (TextEncoder_encode B (JSON_stringify B seal))
       ++ String versionDelimiter currentMajorVersion_string).

(** The body of the [try] block of [unsealData]. *)
Definition unsealBody (sealWithoutVersion : string) : result value :=
  payload <~ base64url_parse B true (Some (JStr sealWithoutVersion)) ;;
  sealData <~ JSON_parse B (TextDecoder_decode B payload) ;;
  x1 <~ member sealData "ciphertext" ;;
  ciphertext <~ base64url_parse B false x1 ;;
  x2 <~ member sealData "publicKey" ;;
  kemPublicKey <~ base64url_parse B false x2 ;;
  x3 <~ member sealData "signature" ;;
  signature <~ base64url_parse B false x3 ;;
  x4 <~ member sealData "signPublicKey" ;;
  signPublicKey <~ base64url_parse B false x4 ;;
  isValid <~ ml_dsa87_verify B ciphertext signature signPublicKey ;;
  if negb isValid then Throw (Error "Invalid signature")
  else
    sharedSecret <~ ml_kem1024_decapsulate B ciphertext kemPublicKey ;;
    key <~ subtle_importKey B sharedSecret UsageDecrypt ;;
    decryptedData <~ subtle_decrypt B (repeat x00 12) key ciphertext ;;
    try_catch
      (j <~ JSON_parse B (TextDecoder_decode B decryptedData) ;; Ok (VJson j))
      (fun _ => Ok (VBytes decryptedData)).

(** ** [unsealData] *)
Definition unsealData (seal : string) (_options : SealOptions) : result value :=
  p <~ parseSeal seal ;;
  try_catch (unsealBody (sealWithoutVersion p))
    (fun error => if isSealError error then Ok empty_object else Throw error).

(** The four components a payload decodes to: the first statements of the
    [try] block. *)
Definition sealComponents (sealWithoutVersion : string)
  : result (bytes * bytes * bytes * bytes) :=
  rbind (base64url_parse B true (Some (JStr sealWithoutVersion))) (fun payload =>
  rbind (JSON_parse B (TextDecoder_decode B payload)) (fun sealData =>
  rbind (member sealData "ciphertext") (fun x1 =>
  rbind (base64url_parse B false x1) (fun ciphertext =>
  rbind (member sealData "publicKey") (fun x2 =>
  rbind (base64url_parse B false x2) (fun kemPublicKey =>
  rbind (member sealData "signature") (fun x3 =>
  rbind (base64url_parse B false x3) (fun signature =>
  rbind (member sealData "signPublicKey") (fun x4 =>
  rbind (base64url_parse B false x4) (fun signPublicKey =>
  Ok (ciphertext, kemPublicKey, signature, signPublicKey))))))))))).

(** What [unsealData] does with the components once they are decoded. *)
Definition openSeal (ciphertext kemPublicKey signature signPublicKey : bytes)
  : result value :=
  rbind (ml_dsa87_verify B ciphertext signature signPublicKey) (fun isValid =>
  if negb isValid then Throw (Error "Invalid signature")
  else
    rbind (ml_kem1024_decapsulate B ciphertext kemPublicKey) (fun sharedSecret =>
    rbind (subtle_importKey B sharedSecret UsageDecrypt) (fun key =>
    rbind (subtle_decrypt B (repeat x00 12) key ciphertext) (fun decryptedData =>
    try_catch
      (rbind (JSON_parse B (TextDecoder_decode B decryptedData))
         (fun j => Ok (VJson j)))
      (fun _ => Ok (VBytes decryptedData)))))).

End WithBackend.

(** ** What the library checks

    [package.json] asks for [@noble/post-quantum] 0.4.  Its functions read
    their arguments as [ml_dsa87.keygen(seed)] with a seed of 32 bytes,
    [ml_dsa87.sign(secretKey, msg)], [ml_dsa87.verify(publicKey, msg, sig)]
    and [ml_kem1024.decapsulate(cipherText, secretKey)], and they check the
    length of every key and ciphertext they decode: an ML-DSA-87 public key
    has 2592 bytes, an ML-KEM-1024 ciphertext 1568.  The library is not part
    of the repository; [nobleChecks] says of a backend what these checks
    mean for the calls of [core.ts]: the seed of 64 bytes is refused, a
    first argument of [verify] that has not the length of a public key and
    a first argument of [decapsulate] that has not the length of a
    ciphertext make the call throw, and what these two functions throw is
    the library's own error, none of the seal-validity class. *)
Definition nobleChecks (B : Backend) : Prop :=
  (forall seed, List.length seed = 64%nat ->
     exists err, ml_dsa87_keygen B seed = Throw err)
  /\ (forall a b c, List.length a <> 2592%nat ->
        exists err, ml_dsa87_verify B a b c = Throw err)
  /\ (forall a b c err, ml_dsa87_verify B a b c = Throw err ->
        isSealError err = false)
  /\ (forall a b, List.length a <> 1568%nat ->
        exists err, ml_kem1024_decapsulate B a b = Throw err)
  /\ (forall a b err, ml_kem1024_decapsulate B a b = Throw err ->
        isSealError err = false).

End Sealing.

(* ================================================================== *)
(** * Ordinary objects *)
(* ================================================================== *)

Module Obj.

Local Open Scope string_scope.

(** The three closures that [getIronSession] attaches to the session. *)
Inductive method := MUpdateConfig | MSave | MDestroy.

(** The value of a data property of the session object: data written by
    the caller or read from the cookie, or one of the three closures. *)
Inductive propval :=
| Data (j : json)
| Func (m : method).

(** A data property with its attributes. *)
Record property := mkProperty {
  value : propval;
  enumerable : bool;
  configurable : bool;
  writable : bool
}.

(** An ordinary, extensible object: its own string-keyed data properties in
    creation order. *)
Definition object := list (string * property).

(** A property created by assignment, by an object literal or by
    [JSON.parse]. *)
Definition plain (j : json) : property := mkProperty (Data j) true true true.

(** The object [JSON.parse] builds from the members of an object literal. *)
Definition ofFields (fields : list (string * json)) : object :=
  map (fun kv => (fst kv, plain (snd kv))) fields.

Definition getOwn (o : object) (k : string) : option property := assoc k o.

(** Replace the property named [k], where it stands. *)
Fixpoint replace (k : string) (p : property) (o : object) : object :=
  match o with
  | [] => []
  | (k', p') :: o' =>
      if String.eqb k k' then (k, p) :: o' else (k', p') :: replace k p o'
  end.

(** Drop the property named [k]. *)
Definition remove (k : string) (o : object) : object :=
  filter (fun kp => negb (String.eqb k (fst kp))) o.

(** [Object.defineProperty(o, k, { value: f })] for a function [f] created
    just before the call (so [f] is the same value as no property's current
    value).  A new property gets the defaults: not enumerable, not
    configurable, not writable.  An existing configurable property keeps
    its other attributes; an existing non-configurable one can take a new
    value only while it is writable. *)
Definition defineMethod (o : object) (k : string) (m : method) : result object :=
  match getOwn o k with
  | None => Ok (o ++ [(k, mkProperty (Func m) false false false)])%list
  | Some cur =>
      if configurable cur || writable cur
      then Ok (replace k (mkProperty (Func m) (enumerable cur) (configurable cur)
                            (writable cur)) o)
      else Throw (TypeError ("Cannot redefine property: " ++ k))
  end.

(** [Object.defineProperties(o, { k1: { value: f1 }, ... })]. *)
Fixpoint defineProperties (o : object) (ms : list (string * method))
  : result object :=
  match ms with
  | [] => Ok o
  | (k, m) :: ms' => rbind (defineMethod o k m) (fun o' => defineProperties o' ms')
  end.

(** [delete o[k]] in strict code. *)
Definition deleteProperty (o : object) (k : string) : result object :=
  match getOwn o k with
  | None => Ok o
  | Some p =>
      if configurable p then Ok (remove k o)
      else Throw (TypeError ("Cannot delete property '" ++ k ++ "' of #<Object>"))
  end.

(** [o[k] = j] in strict code, for a key that [Object.prototype] gives no
    setter. *)
Definition assign (o : object) (k : string) (j : json) : result object :=
  match getOwn o k with
  | None => Ok (o ++ [(k, plain j)])%list
  | Some p =>
      if writable p
      then Ok (replace k (mkProperty (Data j) (enumerable p) (configurable p)
                            (writable p)) o)
      else Throw (TypeError ("Cannot assign to read only property '" ++ k
                             ++ "' of object '#<Object>'"))
  end.

(** The number a canonical array index denotes: decimal digits without a
    leading zero (but for zero itself) below 4294967295. *)
Definition arrayIndex (k : string) : option Z :=
  match k with
  | EmptyString => None
  | String "0" (String _ _) => None
  | _ =>
      if forallb (fun c => match digit_value c with Some _ => true | None => false end)
                 (list_ascii_of_string k)
      then match read_digits None k with
           | Some z => if (z <? 4294967295)%Z then Some z else None
           | None => None
           end
      else None
  end.

Fixpoint insertByIndex (i : Z) (kp : string * property)
  (l : list (Z * (string * property))) : list (Z * (string * property)) :=
  match l with
  | [] => [(i, kp)]
  | (j, kp') :: l' =>
      if (i <? j)%Z then (i, kp) :: l else (j, kp') :: insertByIndex i kp l'
  end.

(** [OrdinaryOwnPropertyKeys]: array indices in ascending order, then the
    other keys in creation order. *)
Definition ownProperties (o : object) : object :=
  let indexed :=
    fold_right
      (fun kp acc =>
         match arrayIndex (fst kp) with
         | Some i => insertByIndex i kp acc
         | None => acc
         end) [] o in
  (map snd indexed
   ++ filter (fun kp => match arrayIndex (fst kp) with Some _ => false | None => true end) o)%list.

(** [Object.keys(o)]. *)
Definition keys (o : object) : list string :=
  map fst (filter (fun kp => enumerable (snd kp)) (ownProperties o)).

(** What [JSON.stringify(o)] serializes: the enumerable own properties, in
    key order, but for those whose value is a function. *)
Definition toJSON (o : object) : json :=
  JObj (flat_map
          (fun kp =>
             match value (snd kp), enumerable (snd kp) with
             | Data j, true => [(fst kp, j)]
             | _, _ => []
             end) (ownProperties o)).

End Obj.

(* ================================================================== *)
(** * Session configuration and lifecycle *)
(* ================================================================== *)

Module Lifecycle.

Import Sealing.
Local Open Scope string_scope.
Local Open Scope js_scope.

(** ** Cookie options *)

(** The value of a cookie attribute in an options object. *)
Inductive attr :=
| AUndefined
| ABool (b : bool)
| ANum (n : number)
| AStr (s : string).

(** A [CookieOptions] object: its own properties in creation order. *)
Definition CookieOptions := list (string * attr).

(** [k in o], for an options object. *)
Definition hasProperty (k : string) (o : CookieOptions) : bool :=
  match assoc k o with
  | Some _ => true
  | None => false
  end.

(** [o[k] = v]: the property keeps its place when it exists. *)
Fixpoint setProperty (k : string) (v : attr) (o : CookieOptions) : CookieOptions :=
  match o with
  | [] => [(k, v)]
  | (k', v') :: o' =>
      if String.eqb k k' then (k, v) :: o' else (k', v') :: setProperty k v o'
  end.

(** [{ ...a, ...b }]. *)
Definition spread (a b : CookieOptions) : CookieOptions :=
  fold_left (fun acc kv => setProperty (fst kv) (snd kv) acc) b a.

(** What [JSON.stringify] makes of an attribute; a member whose value is
    [undefined] is left out, [NaN] is written [null]. *)
Definition attrsToJSON (o : CookieOptions) : json :=
  JObj (flat_map
          (fun kv =>
             match snd kv with
             | AUndefined => []
             | ABool b => [(fst kv, JBool b)]
             | ANum NaN => [(fst kv, JNull)]
             | ANum (Num z) => [(fst kv, JNum z)]
             | AStr t => [(fst kv, JStr t)]
             end) o).

(** ** Session options *)

(** An optional property of an options object: not there, there with the
    value [undefined], or there with a value. *)
Inductive optional (A : Type) :=
| Absent
| Undefined
| Present (a : A).
Arguments Absent {A}.
Arguments Undefined {A}.
Arguments Present {A} a.

Record SessionOptions := mkSessionOptions {
  cookieName : string;
  password : Password;
  ttl : optional number;
  cookieOptions : optional CookieOptions
}.

(** [Required<SessionOptions>], what [getSessionConfig] returns.  Its [ttl]
    is [None] when the caller passed [ttl: undefined]. *)
Record SessionConfig := mkSessionConfig {
  configCookieName : string;
  configPassword : Password;
  configTtl : option number;
  configCookieOptions : CookieOptions
}.

Definition timestampSkewSec : Z := 60.
Definition fourteenDaysInSeconds : Z := 14 * 24 * 3600.

Definition defaultTtl : number := Num fourteenDaysInSeconds.
Definition defaultCookieOptions : CookieOptions :=
  [ ("httpOnly", ABool true); ("secure", ABool true);
    ("sameSite", AStr "lax"); ("path", AStr "/") ].

(** ** [computeCookieMaxAge]

    [ttl - timestampSkewSec] is a subtraction of doubles; the difference
    of integers below is that number when [ttl] and the difference are
    safe integers. *)
Definition computeCookieMaxAge (ttl : number) : number :=
  match ttl with
  | Num 0 => Num 2147483647
  | Num z => Num (z - timestampSkewSec)
  | NaN => NaN
  end.

(** The number an [undefined] stands for in [ttl === 0] and [ttl - 60]. *)
Definition toNumber (t : option number) : number :=
  match t with
  | Some n => n
  | None => NaN
  end.

(** ** [getSessionConfig] *)
Definition getSessionConfig (sessionOptions : SessionOptions) : SessionConfig :=
  let options_ttl :=
    match ttl sessionOptions with
    | Absent => Some defaultTtl
    | Undefined => None
    | Present n => Some n
    end in
  let options_cookieOptions :=
    spread defaultCookieOptions
      match cookieOptions sessionOptions with
      | Present o => o
      | _ => []
      end in
  match cookieOptions sessionOptions with
  | Present o =>
      if hasProperty "maxAge" o then
        match assoc "maxAge" o with
        | Some AUndefined =>
            mkSessionConfig (cookieName sessionOptions) (password sessionOptions)
              (Some (Num 0)) options_cookieOptions
        | _ =>
            mkSessionConfig (cookieName sessionOptions) (password sessionOptions)
              options_ttl options_cookieOptions
        end
      else
        mkSessionConfig (cookieName sessionOptions) (password sessionOptions)
          options_ttl
          (setProperty "maxAge" (ANum (computeCookieMaxAge (toNumber options_ttl)))
             options_cookieOptions)
  | _ =>
      mkSessionConfig (cookieName sessionOptions) (password sessionOptions)
        options_ttl
        (setProperty "maxAge" (ANum (computeCookieMaxAge (toNumber options_ttl)))
           options_cookieOptions)
  end.

(** The caller's [cookieOptions] has a property [maxAge]. *)
Definition maxAgeRequested (sessionOptions : SessionOptions) : bool :=
  match cookieOptions sessionOptions with
  | Present o => hasProperty "maxAge" o
  | _ => false
  end.

(** The [maxAge] of a resolved configuration: [None] when its cookie
    options have no such property. *)
Definition configMaxAge (c : SessionConfig) : option attr :=
  assoc "maxAge" (configCookieOptions c).

(** ** Transports *)

(** What [res.getHeader] answers for [set-cookie]. *)
Inductive HeaderValue :=
| HeaderUndefined
| HeaderSingle (v : string)
| HeaderArray (vs : list string).

(** The response: a Fetch [Response], whose headers take [append], or a
    Node [ServerResponse] with [headersSent], [getHeader] and [setHeader].
    Only the [set-cookie] header is kept. *)
Inductive Response :=
| FetchResponse (setCookieHeaders : list string)
| ServerResponse (headersSent : bool) (setCookieHeader : HeaderValue).

(** The request: the value of its [cookie] header, if it has one. *)
Record Request := mkRequest {
  cookieHeader : option string
}.

(** A cookie store: the cookies [get] finds, and the calls of [set]
    received so far. *)
Record CookieStore := mkCookieStore {
  stored : list (string * option string);
  setCalls : list (string * string * CookieOptions)
}.

Definition storeSet (cs : CookieStore) (name value : string) (o : CookieOptions)
  : CookieStore :=
  mkCookieStore (stored cs) (setCalls cs ++ [(name, value, o)])%list.

(** ** Collaborators

    [createGetIronSession(sealData, unsealData)] takes the two sealing
    functions as arguments; [serialize] and [parse] come from the [cookie]
    package.  [sealData] receives the session object itself; [unsealData]
    answers with what it unsealed, a JSON value or a [Uint8Array]. *)
Record Collaborators := mkCollaborators {
  sealData : Obj.object -> SealOptions -> M string;
  unsealData : string -> SealOptions -> result value;
  serialize : string -> string -> CookieOptions -> result string;
  parse : string -> list (string * string);
  JSON_stringify : json -> string
}.

Definition string_of_nat (n : nat) : string := NilZero.string_of_uint (Nat.to_uint n).

Definition badUsageMessage : string :=
  "iron-session: Bad usage: use getIronSession(req, res, options) or getIronSession(cookieStore, options).".

Definition headersSentMessage : string :=
  "iron-session: Cannot set session cookie: session.save() was called after headers were sent. Make sure to call it before any res.send() or res.end()".

Definition tooBigMessage (n : nat) : string :=
  "iron-session: Cookie length is too big (" ++ string_of_nat n
  ++ " bytes), browsers will refuse it. Try to remove some data.".

(** ** The session

    The session object together with what its three closures close over:
    [sessionConfig] (a [let], reassigned by [updateConfig]), [passwordsMap]
    and the transport [out] ([res], or the cookie store). *)
Record Session (T : Type) := mkSession {
  session : Obj.object;
  sessionConfig : SessionConfig;
  passwordsMap : PasswordsMap;
  out : T
}.
Arguments mkSession {T}.
Arguments session {T}.
Arguments sessionConfig {T}.
Arguments passwordsMap {T}.
Arguments out {T}.

(** What [getIronSession] returns.  [unsealData] may hand over any JSON
    value or a [Uint8Array], and [Object.defineProperties] attaches the
    closures to whatever object that is.  On a plain object the session is
    the record above.  An array and a [Uint8Array] are objects with indexed
    elements and rules of their own for [delete] and assignment:
    [getIronSession] returns a session of that kind as well, and what its
    closures then do is not modelled. *)
Inductive Loaded (T : Type) :=
| PlainSession (st : Session T)
| ExoticSession (v : value).
Arguments PlainSession {T} st.
Arguments ExoticSession {T} v.

(** What [setHeader] of a Node [ServerResponse] throws once the headers
    were sent ([ERR_HTTP_HEADERS_SENT]). *)
Definition ERR_HTTP_HEADERS_SENT : thrown :=
  Error "Cannot set headers after they are sent to the client".

(** ** [getCookie], [getServerActionCookie], [setCookie] *)

Section WithCollaborators.

Variable C : Collaborators.

Definition getCookie (req : Request) (cookieName : string) : string :=
  let header :=
    match cookieHeader req with
    | Some h => h
    | None => EmptyString
    end in
  match assoc cookieName (parse C header) with
  | Some v => v
  | None => EmptyString
  end.

Definition getServerActionCookie (cookieName : string) (cookieHandler : CookieStore)
  : string :=
  match assoc cookieName (stored cookieHandler) with
  | Some (Some cookie) => cookie
  | _ => EmptyString
  end.

Definition setCookie (res : Response) (cookieValue : string) : result Response :=
  match res with
  | FetchResponse hs => Ok (FetchResponse (hs ++ [cookieValue])%list)
  | ServerResponse sent h =>
      let existingSetCookie :=
        match h with
        | HeaderUndefined => []
        | HeaderSingle v => [v]
        | HeaderArray vs => vs
        end in
      if sent then Throw ERR_HTTP_HEADERS_SENT
      else Ok (ServerResponse sent
                 (HeaderArray (existingSetCookie ++ [cookieValue])%list))
  end.

(** The [set-cookie] values a response carries. *)
Definition emitted (res : Response) : list string :=
  match res with
  | FetchResponse hs => hs
  | ServerResponse _ HeaderUndefined => []
  | ServerResponse _ (HeaderSingle v) => [v]
  | ServerResponse _ (HeaderArray vs) => vs
  end.

Definition sealOptionsOf {T} (st : Session T) : SealOptions :=
  mkSealOptions (PasswordMap (passwordsMap st)) (configTtl (sessionConfig st)).

(** [updateConfig(newSessionOptions)], the same closure in both variants. *)
Definition updateConfig {T} (st : Session T) (newSessionOptions : SessionOptions)
  : Session T :=
  mkSession (session st) (getSessionConfig newSessionOptions) (passwordsMap st)
    (out st).

(** The closures mutate what they close over, and what they did before a
    [throw] stays done: each is modelled as a function from the state
    before the call to the state after it, paired with how the call
    completed. *)

Definition withSession {T} (st : Session T) (o : Obj.object) : Session T :=
  mkSession o (sessionConfig st) (passwordsMap st) (out st).

Definition withOut {T} (st : Session T) (t : T) : Session T :=
  mkSession (session st) (sessionConfig st) (passwordsMap st) t.

(** [for (const key of Object.keys(session)) delete session[key]]. *)
Fixpoint deleteAll (ks : list string) (o : Obj.object) : Obj.object * result unit :=
  match ks with
  | [] => (o, Ok tt)
  | k :: ks' =>
      match Obj.deleteProperty o k with
      | Ok o' => deleteAll ks' o'
      | Throw e => (o, Throw e)
      end
  end.

Definition clearSession (o : Obj.object) : Obj.object * result unit :=
  deleteAll (Obj.keys o) o.

(** *** Request and response *)

Definition responseHeadersSent (res : Response) : bool :=
  match res with
  | FetchResponse _ => false
  | ServerResponse sent _ => sent
  end.

(** [save()]; on normal completion, the entropy left. *)
Definition save (st : Session Response) (e : entropy)
  : Session Response * result entropy :=
  if responseHeadersSent (out st) then (st, Throw (Error headersSentMessage))
  else
    match sealData C (session st) (sealOptionsOf st) e with
    | Throw err => (st, Throw err)
    | Ok (seal, e') =>
        match serialize C (configCookieName (sessionConfig st)) seal
                (configCookieOptions (sessionConfig st)) with
        | Throw err => (st, Throw err)
        | Ok cookieValue =>
            if (4096 <? String.length cookieValue)%nat
            then (st, Throw (Error (tooBigMessage (String.length cookieValue))))
            else
              match setCookie (out st) cookieValue with
              | Throw err => (st, Throw err)
              | Ok res => (withOut st res, Ok e')
              end
        end
    end.

(** [destroy()]. *)
Definition destroy (st : Session Response) : Session Response * result unit :=
  match clearSession (session st) with
  | (o, Throw err) => (withSession st o, Throw err)
  | (o, Ok _) =>
      let st1 := withSession st o in
      match serialize C (configCookieName (sessionConfig st)) EmptyString
              (spread (configCookieOptions (sessionConfig st))
                 [("maxAge", ANum (Num 0))]) with
      | Throw err => (st1, Throw err)
      | Ok cookieValue =>
          match setCookie (out st) cookieValue with
          | Throw err => (st1, Throw err)
          | Ok res => (withOut st1 res, Ok tt)
          end
      end
  end.

(** *** Cookie store *)

(** [save()] of [getIronSessionFromCookieStore]. *)
Definition saveToCookieStore (st : Session CookieStore) (e : entropy)
  : Session CookieStore * result entropy :=
  match sealData C (session st) (sealOptionsOf st) e with
  | Throw err => (st, Throw err)
  | Ok (seal, e') =>
      let cookieLength :=
        (String.length (configCookieName (sessionConfig st))
         + String.length seal
         + String.length
             (JSON_stringify C
                (attrsToJSON (configCookieOptions (sessionConfig st)))))%nat in
      if (4096 <? cookieLength)%nat
      then (st, Throw (Error (tooBigMessage cookieLength)))
      else (withOut st
              (storeSet (out st) (configCookieName (sessionConfig st)) seal
                 (configCookieOptions (sessionConfig st))), Ok e')
  end.

(** [destroy()] of [getIronSessionFromCookieStore]. *)
Definition destroyInCookieStore (st : Session CookieStore)
  : Session CookieStore * result unit :=
  match clearSession (session st) with
  | (o, Throw err) => (withSession st o, Throw err)
  | (o, Ok _) =>
      let cookieOptions :=
        spread (configCookieOptions (sessionConfig st)) [("maxAge", ANum (Num 0))] in
      (withOut (withSession st o)
         (storeSet (out st) (configCookieName (sessionConfig st)) EmptyString
            cookieOptions), Ok tt)
  end.

(** ** [getIronSession] *)

(** The three property descriptors, in the order of the object literal. *)
Definition sessionMethods : list (string * Obj.method) :=
  [ ("updateConfig", Obj.MUpdateConfig); ("save", Obj.MSave);
    ("destroy", Obj.MDestroy) ].

Definition passwordIsFalsy (p : Password) : bool :=
  match p with
  | PasswordString EmptyString => true
  | _ => false
  end.

(** The checks both variants make, and the resolved configuration. *)
Definition checkedConfig (sessionOptions : SessionOptions)
  : result (PasswordsMap * SessionConfig) :=
  match cookieName sessionOptions with
  | EmptyString => Throw (Error "iron-session: Bad usage. Missing cookie name.")
  | _ =>
      if passwordIsFalsy (password sessionOptions)
      then Throw (Error "iron-session: Bad usage. Missing password.")
      else
        let passwordsMap := normalizeStringPasswordToMap (password sessionOptions) in
        if existsb (fun kv => (String.length (snd kv) <? 32)%nat) passwordsMap
        then Throw (Error "iron-session: Bad usage. Password must be at least 32 characters long.")
        else Ok (passwordsMap, getSessionConfig sessionOptions)
  end.

(** [sealFromCookies ? await unsealData(sealFromCookies, ...) : {}]: the
    value the session starts from. *)
Definition unsealedSession (sealFromCookies : string) (passwordsMap : PasswordsMap)
  (sessionConfig : SessionConfig) : result value :=
  match sealFromCookies with
  | EmptyString => Ok empty_object
  | _ =>
      unsealData C sealFromCookies
        (mkSealOptions (PasswordMap passwordsMap) (configTtl sessionConfig))
  end.

(** The part both variants share once the cookie has been read.
    [Object.defineProperties] throws a [TypeError] on a value that is no
    object. *)
Definition loadSession {T} (sealFromCookies : string) (passwordsMap : PasswordsMap)
  (sessionConfig : SessionConfig) (out : T) : result (Loaded T) :=
  session <~ unsealedSession sealFromCookies passwordsMap sessionConfig ;;
  match session with
  | VJson (JObj fields) =>
      withMethods <~ Obj.defineProperties (Obj.ofFields fields) sessionMethods ;;
      Ok (PlainSession (mkSession withMethods sessionConfig passwordsMap out))
  | VJson (JArr _) | VBytes _ => Ok (ExoticSession session)
  | VJson _ => Throw (TypeError "Object.defineProperties called on non-object")
  end.

Definition getIronSessionFromCookieStore (cookieStore : CookieStore)
  (sessionOptions : SessionOptions) : result (Loaded CookieStore) :=
  '(passwordsMap, sessionConfig) <~ checkedConfig sessionOptions ;;
  loadSession (getServerActionCookie (configCookieName sessionConfig) cookieStore)
    passwordsMap sessionConfig cookieStore.

Definition getIronSessionFromRequest (req : Request) (res : Response)
  (sessionOptions : SessionOptions) : result (Loaded Response) :=
  '(passwordsMap, sessionConfig) <~ checkedConfig sessionOptions ;;
  loadSession (getCookie req (configCookieName sessionConfig))
    passwordsMap sessionConfig res.

(** The arguments of the overloaded [getIronSession]; [None] is a falsy
    argument. *)
Inductive Arguments :=
| WithCookieStore (cookies : option CookieStore) (sessionOptions : option SessionOptions)
| WithRequest (req : option Request) (res : option Response)
    (sessionOptions : SessionOptions).

Definition getIronSession (args : Arguments)
  : result (Loaded Response + Loaded CookieStore) :=
  match args with
  | WithCookieStore None _ | WithRequest None _ _ => Throw (Error badUsageMessage)
  | WithCookieStore _ None | WithRequest _ None _ => Throw (Error badUsageMessage)
  | WithCookieStore (Some cookies) (Some sessionOptions) =>
      st <~ getIronSessionFromCookieStore cookies sessionOptions ;; Ok (inr st)
  | WithRequest (Some req) (Some res) sessionOptions =>
      st <~ getIronSessionFromRequest req res sessionOptions ;; Ok (inl st)
  end.

(** ** Calling a method of the session object

    [session.save()] reads the property [save] and calls what it finds. *)
Definition notAFunction (k : string) : thrown :=
  TypeError ("session." ++ k ++ " is not a function").

Definition methodOf (o : Obj.object) (k : string) : result Obj.method :=
  match Obj.getOwn o k with
  | Some p =>
      match Obj.value p with
      | Obj.Func m => Ok m
      | Obj.Data _ => Throw (notAFunction k)
      end
  | None => Throw (notAFunction k)
  end.

End WithCollaborators.

(** ** What holds of the session object *)

(** The property [Object.defineProperties] creates for a closure on an
    object that has no property of that name. *)
Definition methodProperty (m : Obj.method) : Obj.property :=
  Obj.mkProperty (Obj.Func m) false false false.

(** The three closures are on the object as [getIronSession] means them to
    be, and no other property bears one of their names. *)
Definition installed (o : Obj.object) : Prop :=
  forall k m, In (k, m) sessionMethods ->
    Obj.getOwn o k = Some (methodProperty m)
    /\ forall p, In (k, p) o -> p = methodProperty m.

(** No member is named [save], [destroy] or [updateConfig]. *)
Definition reservedFree (fields : list (string * json)) : Prop :=
  forall k m, In (k, m) sessionMethods -> assoc k fields = None.

(** The members of the payload [JSON.stringify(session)]. *)
Definition payloadMembers (o : Obj.object) : list (string * json) :=
  match Obj.toJSON o with
  | JObj fields => fields
  | _ => []
  end.

(** Each closure is an own property that is not enumerable, configurable
    or writable; [Object.keys] does not list it; it can be called; the
    payload has no member of its name. *)
Definition protected (o : Obj.object) : Prop :=
  forall k m, In (k, m) sessionMethods ->
    Obj.getOwn o k = Some (methodProperty m)
    /\ ~ In k (Obj.keys o)
    /\ methodOf o k = Ok m
    /\ ~ In k (map fst (payloadMembers o)).

(** Whenever a key has an enumerable property, the properties of that key
    are configurable: [delete] will not refuse what [Object.keys] lists. *)
Definition deletable (o : Obj.object) : Prop :=
  forall k p q,
    In (k, p) o -> Obj.enumerable p = true -> In (k, q) o ->
    Obj.configurable q = true.

(** What can happen to a session once it is loaded: a call of one of its
    closures (whether it returns or throws), or the caller assigning to or
    deleting one of its fields. *)
Inductive step {T}
  (sv : Session T -> entropy -> Session T * result entropy)
  (ds : Session T -> Session T * result unit)
  : Session T -> Session T -> Prop :=
| step_save st e : step sv ds st (fst (sv st e))
| step_destroy st : step sv ds st (fst (ds st))
| step_updateConfig st newSessionOptions :
    step sv ds st (updateConfig st newSessionOptions)
| step_assign st k j o :
    Obj.assign (session st) k j = Ok o -> step sv ds st (withSession st o)
| step_delete st k o :
    Obj.deleteProperty (session st) k = Ok o -> step sv ds st (withSession st o).

Inductive reachable {T}
  (sv : Session T -> entropy -> Session T * result entropy)
  (ds : Session T -> Session T * result unit)
  : Session T -> Session T -> Prop :=
| reach_here st : reachable sv ds st st
| reach_next st st1 st2 :
    reachable sv ds st st1 -> step sv ds st1 st2 -> reachable sv ds st st2.

(** [session.save()], [session.destroy()] and [session.updateConfig()] as
    a caller writes them: the property is read and what it holds is called,
    without argument.  [updateConfig()] throws when [getSessionConfig]
    reads [sessionOptions.cookieOptions] of [undefined], before it assigns
    anything. *)
Definition call {T}
  (sv : Session T -> entropy -> Session T * result entropy)
  (ds : Session T -> Session T * result unit)
  (k : string) (st : Session T) (e : entropy) : Session T * result entropy :=
  match methodOf (session st) k with
  | Throw err => (st, Throw err)
  | Ok Obj.MSave => sv st e
  | Ok Obj.MDestroy =>
      let '(st', r) := ds st in (st', rbind r (fun _ => Ok e))
  | Ok Obj.MUpdateConfig =>
      (st, Throw (TypeError
                    "Cannot read properties of undefined (reading 'cookieOptions')"))
  end.

(** How the function made by [createSealData] treats a session that is a
    plain object: it is no [Uint8Array], so what is sealed is
    [JSON.stringify(session)]. *)
Definition sealSession (B : Backend) (o : Obj.object) (options : SealOptions)
  : M string :=
  Sealing.sealData B (VJson (Obj.toJSON o)) options.

End Lifecycle.

(* ================================================================== *)
(** * A reference backend

    An executable [Backend], used to run the definitions above on concrete
    inputs.  The codecs follow the documented behaviour of rfc4648's
    [base64url] and of [JSON] on the fragment of [json] (integers, strings
    of one-byte characters).  The cryptographic primitives are stand-ins:
    they have the interface of [@noble/post-quantum] 0.4 and of WebCrypto
    (the order of the arguments, FIPS 203 and FIPS 204 sizes, the length
    checks, a key-encapsulation, a signature and an authenticated cipher
    that are functionally correct), but they offer no security. *)
(* ================================================================== *)

Module Reference.

Import Sealing.
Local Open Scope string_scope.
Local Open Scope js_scope.

(** ** Bytes *)

Definition byte_of_N (n : N) : byte :=
  match Byte.of_N (n mod 256) with
  | Some b => b
  | None => x00
  end.

Definition xor_byte (a b : byte) : byte :=
  byte_of_N (N.lxor (Byte.to_N a) (Byte.to_N b)).

Fixpoint xor_bytes (a b : bytes) : bytes :=
  match a, b with
  | x :: a', y :: b' => xor_byte x y :: xor_bytes a' b'
  | _, [] => a
  | [], _ => []
  end.

Fixpoint bytes_eqb (a b : bytes) : bool :=
  match a, b with
  | [], [] => true
  | x :: a', y :: b' => Byte.eqb x y && bytes_eqb a' b'
  | _, _ => false
  end.

(** The first [n] bytes of [cur] followed by [orig] repeated for ever
    (zeros when [orig] is empty). *)
Fixpoint stretch_from (n : nat) (orig cur : bytes) : bytes :=
  match n with
  | O => []
  | S n' =>
      match cur with
      | b :: cur' => b :: stretch_from n' orig cur'
      | [] =>
          match orig with
          | b :: orig' => b :: stretch_from n' orig orig'
          | [] => x00 :: stretch_from n' orig []
          end
      end
  end.

Definition stretch (n : nat) (bs : bytes) : bytes := stretch_from n bs bs.

(** A 64-bit FNV-1a checksum, as eight bytes. *)
Definition fnv1a (bs : bytes) : N :=
  fold_left
    (fun h b => (N.lxor h (Byte.to_N b) * 1099511628211) mod 18446744073709551616)%N
    bs 14695981039346656037%N.

Fixpoint le_bytes (n : nat) (x : N) : bytes :=
  match n with
  | O => []
  | S n' => byte_of_N x :: le_bytes n' (x / 256)%N
  end.

Definition digest (bs : bytes) : bytes := le_bytes 8 (fnv1a bs).

Definition lengthError (expected got : nat) : thrown :=
  Error ("Uint8Array expected of length "
         ++ NilZero.string_of_uint (Nat.to_uint expected)
         ++ ", got length=" ++ NilZero.string_of_uint (Nat.to_uint got)).

(** ** ML-KEM-1024 stand-in (FIPS 203 sizes) *)

Definition kem_seed_len : nat := 64.
Definition kem_publicKey_len : nat := 1568.
Definition kem_secretKey_len : nat := 3168.
Definition kem_cipherText_len : nat := 1568.
Definition kem_sharedSecret_len : nat := 32.

Definition kem_keygen (seed : bytes) : result (bytes * bytes) :=
  if negb (List.length seed =? kem_seed_len)%nat
  then Throw (lengthError kem_seed_len (List.length seed))
  else
    let publicKey := stretch kem_publicKey_len (digest seed) in
    Ok (publicKey,
        (publicKey ++ stretch (kem_secretKey_len - kem_publicKey_len) seed)%list).

Definition kem_secret (m publicKey : bytes) : bytes :=
  stretch kem_sharedSecret_len (digest (m ++ publicKey)%list).

Definition kem_encapsulate (publicKey : bytes) : M (bytes * bytes) :=
  if negb (List.length publicKey =? kem_publicKey_len)%nat
  then throw (lengthError kem_publicKey_len (List.length publicKey))
  else
    m <- randomBytes 32 ;;
    ret (stretch kem_cipherText_len (xor_bytes m (firstn 32 publicKey)),
         kem_secret m publicKey).

Definition kem_decapsulate (cipherText secretKey : bytes) : result bytes :=
  if negb (List.length secretKey =? kem_secretKey_len)%nat
  then Throw (lengthError kem_secretKey_len (List.length secretKey))
  else if negb (List.length cipherText =? kem_cipherText_len)%nat
  then Throw (lengthError kem_cipherText_len (List.length cipherText))
  else
    let publicKey := firstn kem_publicKey_len secretKey in
    let m := xor_bytes (firstn 32 cipherText) (firstn 32 publicKey) in
    Ok (kem_secret m publicKey).

(** ** ML-DSA-87 stand-in (FIPS 204 sizes)

    The library's order: [keygen(seed)] with a seed of 32 bytes,
    [sign(secretKey, msg)] and [verify(publicKey, msg, sig)].  A seed or a
    key of another length is refused with an error; a signature of another
    length makes [verify] answer [false]. *)

Definition dsa_seed_len : nat := 32.
Definition dsa_publicKey_len : nat := 2592.
Definition dsa_secretKey_len : nat := 4896.
Definition dsa_signature_len : nat := 4627.

Definition dsa_keygen (seed : bytes) : result (bytes * bytes) :=
  if negb (List.length seed =? dsa_seed_len)%nat
  then Throw (lengthError dsa_seed_len (List.length seed))
  else
    let publicKey := stretch dsa_publicKey_len (digest seed) in
    Ok (publicKey,
        (publicKey ++ stretch (dsa_secretKey_len - dsa_publicKey_len) seed)%list).

Definition dsa_tag (publicKey msg : bytes) : bytes :=
  stretch dsa_signature_len (digest (publicKey ++ msg)%list).

Definition dsa_sign (secretKey msg : bytes) : M bytes :=
  if negb (List.length secretKey =? dsa_secretKey_len)%nat
  then throw (lengthError dsa_secretKey_len (List.length secretKey))
  else ret (dsa_tag (firstn dsa_publicKey_len secretKey) msg).

Definition dsa_verify (publicKey msg sig : bytes) : result bool :=
  if negb (List.length publicKey =? dsa_publicKey_len)%nat
  then Throw (lengthError dsa_publicKey_len (List.length publicKey))
  else if negb (List.length sig =? dsa_signature_len)%nat
  then Ok false
  else Ok (bytes_eqb sig (dsa_tag publicKey msg)).

(** ** AES-GCM stand-in

    The ciphertext is the masked plaintext followed by a 16-byte tag over
    key, nonce and masked plaintext; decryption fails with an
    [OperationError] when the tag does not match. *)

Definition OperationError : thrown :=
  mkThrown true "OperationError"
    "The operation failed for an operation-specific reason".

Definition importKey (k : bytes) (u : KeyUsage) : result CryptoKey :=
  if ((List.length k =? 16) || (List.length k =? 24) || (List.length k =? 32))%nat
  then Ok (mkCryptoKey k u)
  else Throw (mkThrown true "DataError" "Invalid key length").

Definition gcm_mask (key iv : bytes) (n : nat) : bytes :=
  stretch n (digest (key ++ iv)%list).

Definition gcm_tag (key iv body : bytes) : bytes :=
  stretch 16 (digest (key ++ iv ++ body)%list).

Definition gcm_encrypt (iv : bytes) (key : CryptoKey) (data : bytes)
  : result bytes :=
  match usage key with
  | UsageDecrypt =>
      Throw (mkThrown true "InvalidAccessError"
               "key.usages does not permit this operation")
  | UsageEncrypt =>
      let body := xor_bytes data (gcm_mask (raw key) iv (List.length data)) in
      Ok (body ++ gcm_tag (raw key) iv body)%list
  end.

Definition gcm_decrypt (iv : bytes) (key : CryptoKey) (data : bytes)
  : result bytes :=
  match usage key with
  | UsageEncrypt =>
      Throw (mkThrown true "InvalidAccessError"
               "key.usages does not permit this operation")
  | UsageDecrypt =>
      if (List.length data <? 16)%nat then Throw OperationError
      else
        let n := (List.length data - 16)%nat in
        let body := firstn n data in
        if bytes_eqb (skipn n data) (gcm_tag (raw key) iv body)
        then Ok (xor_bytes body (gcm_mask (raw key) iv n))
        else Throw OperationError
  end.

(** ** rfc4648 [base64url] *)

Definition base64url_chars : string :=
  "ABCDEFGHIJKLMNOPQRSTUVWXYZabcdefghijklmnopqrstuvwxyz0123456789-_".

Definition sextet_char (n : N) : ascii :=
  match String.get (N.to_nat n) base64url_chars with
  | Some c => c
  | None => "A"%char
  end.

Fixpoint index_of (c : ascii) (s : string) (i : N) : option N :=
  match s with
  | EmptyString => None
  | String d s' => if Ascii.eqb c d then Some i else index_of c s' (i + 1)%N
  end.

Definition char_sextet (c : ascii) : option N := index_of c base64url_chars 0%N.

(** [base64url.stringify(data)]: padded with [=] to a whole number of
    four-character groups. *)
Fixpoint stringify (data : bytes) : string :=
  match data with
  | [] => EmptyString
  | [a] =>
      let a := Byte.to_N a in
      String (sextet_char (a / 4)) (String (sextet_char (a mod 4 * 16)) "==")
  | [a; b] =>
      let a := Byte.to_N a in
      let b := Byte.to_N b in
      String (sextet_char (a / 4))
        (String (sextet_char (a mod 4 * 16 + b / 16))
           (String (sextet_char (b mod 16 * 4)) "="))
  | a :: b :: c :: rest =>
      let a := Byte.to_N a in
      let b := Byte.to_N b in
      let c := Byte.to_N c in
      String (sextet_char (a / 4))
        (String (sextet_char (a mod 4 * 16 + b / 16))
           (String (sextet_char (b mod 16 * 4 + c / 64))
              (String (sextet_char (c mod 64)) (stringify rest))))
  end%N.

(** The string without its trailing [=] characters, and their number. *)
Fixpoint strip_padding (s : string) : string * nat :=
  match s with
  | EmptyString => (EmptyString, O)
  | String c s' =>
      let '(t, k) := strip_padding s' in
      match t with
      | EmptyString =>
          if Ascii.eqb c "="%char then (EmptyString, S k) else (String c t, k)
      | _ => (String c t, k)
      end
  end.

(** The decoding loop: [bits] bits are waiting in [buffer]. *)
Fixpoint decode_chars (s : string) (bits : N) (buffer : N)
  : result (bytes * N * N) :=
  match s with
  | EmptyString => Ok ([], bits, buffer)
  | String c s' =>
      match char_sextet c with
      | None => Throw (SyntaxError ("Invalid character " ++ String c EmptyString))
      | Some v =>
          let buffer := (buffer * 64 + v)%N in
          let bits := (bits + 6)%N in
          if (8 <=? bits)%N then
            let bits := (bits - 8)%N in
            let out := byte_of_N (buffer / 2 ^ bits) in
            '(rest, b, f) <~ decode_chars s' bits (buffer mod 2 ^ bits)%N ;;
            Ok (out :: rest, b, f)
          else decode_chars s' bits buffer
      end
  end.

Definition parse_string (loose : bool) (s : string) : result bytes :=
  if negb loose && negb (String.length s * 6 mod 8 =? 0)%nat
  then Throw (SyntaxError "Invalid padding")
  else
    let '(body, pad) := strip_padding s in
    if negb loose && (4 <=? pad)%nat
    then Throw (SyntaxError "Invalid padding")
    else
      '(out, bits, buffer) <~ decode_chars body 0%N 0%N ;;
      if (6 <=? bits)%N || negb (buffer =? 0)%N
      then Throw (SyntaxError "Unexpected end of data")
      else Ok out.

(** Arrays and objects handed to [base64url.parse] are outside what this
    backend models; it answers them with this marker. *)
Definition outsideFragment : thrown :=
  mkThrown false "OutsideFragment" "not modelled by the reference backend".

(** [base64url.parse(x, {loose})]: [undefined] and [null] have no [length]
    to read; a number or a boolean has an undefined [length], so the loop
    runs over nothing. *)
Definition parse (loose : bool) (x : option json) : result bytes :=
  match x with
  | Some (JStr s) => parse_string loose s
  | None =>
      Throw (TypeError "Cannot read properties of undefined (reading 'length')")
  | Some JNull =>
      Throw (TypeError "Cannot read properties of null (reading 'length')")
  | Some (JNum _) | Some (JBool _) => Ok []
  | Some (JArr _) | Some (JObj _) => Throw outsideFragment
  end.

(** ** [TextEncoder] and [TextDecoder], on one-byte characters *)

Definition encode (s : string) : bytes := list_byte_of_string s.
Definition decode (b : bytes) : string := string_of_list_byte b.

(** ** [JSON], on the fragment of [json] *)

Definition dquote : ascii := ascii_of_nat 34.
Definition backslash : ascii := ascii_of_nat 92.

Definition hex_digit (n : nat) : ascii :=
  match String.get n "0123456789abcdef" with
  | Some c => c
  | None => "0"%char
  end.

(** [QuoteJSONString], character by character. *)
Definition quote_char (c : ascii) : string :=
  let n := nat_of_ascii c in
  if Ascii.eqb c dquote then String backslash (String dquote EmptyString)
  else if Ascii.eqb c backslash then String backslash (String backslash EmptyString)
  else if (n =? 8)%nat then String backslash "b"
  else if (n =? 9)%nat then String backslash "t"
  else if (n =? 10)%nat then String backslash "n"
  else if (n =? 12)%nat then String backslash "f"
  else if (n =? 13)%nat then String backslash "r"
  else if (n <? 32)%nat then
    String backslash
      ("u00" ++ String (hex_digit (n / 16)) (String (hex_digit (n mod 16)) EmptyString))
  else String c EmptyString.

Fixpoint quote_chars (s : string) : string :=
  match s with
  | EmptyString => EmptyString
  | String c s' => quote_char c ++ quote_chars s'
  end.

Definition quote (s : string) : string :=
  String dquote (quote_chars s ++ String dquote EmptyString).

Definition string_of_Z (z : Z) : string := NilZero.string_of_int (Z.to_int z).

Definition join_comma (l : list string) : string := String.concat "," l.

(** [JSON.stringify(j)]. *)
Fixpoint json_stringify (j : json) : string :=
  match j with
  | JNull => "null"
  | JBool true => "true"
  | JBool false => "false"
  | JNum z => string_of_Z z
  | JStr s => quote s
  | JArr items => "[" ++ join_comma (map json_stringify items) ++ "]"
  | JObj fields =>
      "{" ++ join_comma
               (map (fun kv => quote (fst kv) ++ ":" ++ json_stringify (snd kv))
                    fields) ++ "}"
  end.

Definition is_json_space (c : ascii) : bool :=
  let n := nat_of_ascii c in
  ((n =? 32) || (n =? 9) || (n =? 10) || (n =? 13))%nat.

Fixpoint skip_space (s : string) : string :=
  match s with
  | String c s' => if is_json_space c then skip_space s' else s
  | EmptyString => EmptyString
  end.

Definition hex_value (c : ascii) : option nat :=
  let n := nat_of_ascii c in
  if ((48 <=? n) && (n <=? 57))%nat then Some (n - 48)%nat
  else if ((97 <=? n) && (n <=? 102))%nat then Some (n - 87)%nat
  else if ((65 <=? n) && (n <=? 70))%nat then Some (n - 55)%nat
  else None.

(** The rest of a string literal, after its opening quote: the characters
    it denotes and what follows the closing quote.  Escapes above [00ff]
    are outside the fragment and rejected. *)
Fixpoint parse_chars (s : string) : option (string * string) :=
  match s with
  | EmptyString => None
  | String c r =>
      if Ascii.eqb c dquote then Some (EmptyString, r)
      else if Ascii.eqb c backslash then
        match r with
        | String e r' =>
            let plain (d : ascii) :=
              match parse_chars r' with
              | Some (t, rest) => Some (String d t, rest)
              | None => None
              end in
            if Ascii.eqb e dquote then plain dquote
            else if Ascii.eqb e backslash then plain backslash
            else if Ascii.eqb e "/"%char then plain "/"%char
            else if Ascii.eqb e "b"%char then plain (ascii_of_nat 8)
            else if Ascii.eqb e "f"%char then plain (ascii_of_nat 12)
            else if Ascii.eqb e "n"%char then plain (ascii_of_nat 10)
            else if Ascii.eqb e "r"%char then plain (ascii_of_nat 13)
            else if Ascii.eqb e "t"%char then plain (ascii_of_nat 9)
            else if Ascii.eqb e "u"%char then
              match r' with
              | String h1 (String h2 (String h3 (String h4 r''))) =>
                  match hex_value h1, hex_value h2, hex_value h3, hex_value h4 with
                  | Some 0%nat, Some 0%nat, Some a, Some b =>
                      match parse_chars r'' with
                      | Some (t, rest) =>
                          Some (String (ascii_of_nat (16 * a + b)) t, rest)
                      | None => None
                      end
                  | _, _, _, _ => None
                  end
              | _ => None
              end
            else None
        | EmptyString => None
        end
      else if (nat_of_ascii c <? 32)%nat then None
      else
        match parse_chars r with
        | Some (t, rest) => Some (String c t, rest)
        | None => None
        end
  end.

(** The digits at the front of [s], as they stand, and the rest. *)
Fixpoint take_digits (s : string) : string * string :=
  match s with
  | String c r =>
      match digit_value c with
      | Some _ => let '(d, rest) := take_digits r in (String c d, rest)
      | None => (EmptyString, s)
      end
  | EmptyString => (EmptyString, EmptyString)
  end.

(** An integer literal: an optional minus sign, then a single zero or a
    digit from one to nine followed by digits.  A literal with a fraction
    or an exponent is outside the fragment and rejected. *)
Definition parse_number (s : string) : option (json * string) :=
  let '(neg, s1) :=
    match s with
    | String "-" r => (true, r)
    | _ => (false, s)
    end in
  let '(digits, rest) := take_digits s1 in
  let leading_zero :=
    match digits with
    | String "0" (String _ _) => true
    | _ => false
    end in
  let continues :=
    match rest with
    | String "." _ | String "e" _ | String "E" _ => true
    | _ => false
    end in
  match read_digits None digits with
  | Some z =>
      if leading_zero || continues then None
      else Some (JNum (if neg then - z else z), rest)
  | None => None
  end.

(** [JSON.parse] keeps the last of several members of one name, at the place
    of the first. *)
Fixpoint put_member (k : string) (v : json) (fields : list (string * json))
  : list (string * json) :=
  match fields with
  | [] => [(k, v)]
  | (k', v') :: fields' =>
      if String.eqb k k' then (k, v) :: fields'
      else (k', v') :: put_member k v fields'
  end.

Definition drop_prefix (p s : string) : option string :=
  if prefixb p s then Some (substring (String.length p) (String.length s - String.length p) s)
  else None.

Fixpoint parse_value (fuel : nat) (s : string) : option (json * string) :=
  match fuel with
  | O => None
  | S fuel' =>
      match skip_space s with
      | EmptyString => None
      | String c r =>
          if Ascii.eqb c "{"%char then
            match skip_space r with
            | String "}" rest => Some (JObj [], rest)
            | r1 =>
                match parse_members fuel' r1 [] with
                | Some (fields, rest) => Some (JObj fields, rest)
                | None => None
                end
            end
          else if Ascii.eqb c "["%char then
            match skip_space r with
            | String "]" rest => Some (JArr [], rest)
            | r1 =>
                match parse_elements fuel' r1 with
                | Some (items, rest) => Some (JArr items, rest)
                | None => None
                end
            end
          else if Ascii.eqb c dquote then
            match parse_chars r with
            | Some (t, rest) => Some (JStr t, rest)
            | None => None
            end
          else if Ascii.eqb c "t"%char then
            option_map (pair (JBool true)) (drop_prefix "rue" r)
          else if Ascii.eqb c "f"%char then
            option_map (pair (JBool false)) (drop_prefix "alse" r)
          else if Ascii.eqb c "n"%char then
            option_map (pair JNull) (drop_prefix "ull" r)
          else parse_number (String c r)
      end
  end

with parse_elements (fuel : nat) (s : string) : option (list json * string) :=
  match fuel with
  | O => None
  | S fuel' =>
      match parse_value fuel' s with
      | None => None
      | Some (v, r) =>
          match skip_space r with
          | String "]" rest => Some ([v], rest)
          | String "," rest =>
              match parse_elements fuel' rest with
              | Some (vs, rest') => Some (v :: vs, rest')
              | None => None
              end
          | _ => None
          end
      end
  end

with parse_members (fuel : nat) (s : string) (acc : list (string * json))
  : option (list (string * json) * string) :=
  match fuel with
  | O => None
  | S fuel' =>
      match skip_space s with
      | String c r =>
          if Ascii.eqb c dquote then
            match parse_chars r with
            | None => None
            | Some (k, r1) =>
                match skip_space r1 with
                | String ":" r2 =>
                    match parse_value fuel' r2 with
                    | None => None
                    | Some (v, r3) =>
                        let acc' := put_member k v acc in
                        match skip_space r3 with
                        | String "}" rest => Some (acc', rest)
                        | String "," rest => parse_members fuel' rest acc'
                        | _ => None
                        end
                    end
                | _ => None
                end
            end
          else None
      | EmptyString => None
      end
  end.

(** [JSON.parse(text)]. *)
Definition json_parse (text : string) : result json :=
  match skip_space text with
  | EmptyString => Throw (SyntaxError "Unexpected end of JSON input")
  | _ =>
      match parse_value (S (String.length text)) text with
      | Some (j, rest) =>
          match skip_space rest with
          | EmptyString => Ok j
          | _ => Throw (SyntaxError "Unexpected non-whitespace character after JSON")
          end
      | None => Throw (SyntaxError "Unexpected token in JSON")
      end
  end.

(** ** The backend *)

Definition backend : Backend := {|
  ml_kem1024_keygen := kem_keygen;
  ml_kem1024_encapsulate := kem_encapsulate;
  ml_kem1024_decapsulate := kem_decapsulate;
  ml_dsa87_keygen := dsa_keygen;
  ml_dsa87_sign := dsa_sign;
  ml_dsa87_verify := dsa_verify;
  subtle_importKey := importKey;
  subtle_encrypt := gcm_encrypt;
  subtle_decrypt := gcm_decrypt;
  base64url_stringify := stringify;
  base64url_parse := parse;
  JSON_stringify := json_stringify;
  JSON_parse := json_parse;
  TextEncoder_encode := encode;
  TextDecoder_decode := decode
|}.

(** ** Sample inputs *)

(** A fixed entropy supply. *)
Definition sample_entropy : entropy :=
  fun i => byte_of_N ((N.of_nat i * 37 + 11) mod 251)%N.

(** ["x".repeat(32)]. *)
Definition sample_password : Password :=
  PasswordString "xxxxxxxxxxxxxxxxxxxxxxxxxxxxxxxx".

Definition sample_options : SealOptions :=
  mkSealOptions sample_password (Some (Num 3600)).

(** [{ userId: 42 }]. *)
Definition sample_value : value := VJson (JObj [("userId", JNum 42)]).

(** ** The [cookie] package *)

Import Lifecycle.

Definition in_range (lo hi : nat) (c : ascii) : bool :=
  let n := nat_of_ascii c in ((lo <=? n) && (n <=? hi))%nat.

Definition all_chars (f : ascii -> bool) (s : string) : bool :=
  forallb f (list_ascii_of_string s).

Definition cookieNameChar (c : ascii) : bool :=
  in_range 33 58 c || in_range 60 60 c || in_range 62 126 c.

Definition cookieValueChar (c : ascii) : bool :=
  in_range 33 58 c || in_range 60 126 c.

Definition pathValueChar (c : ascii) : bool :=
  in_range 32 58 c || in_range 61 126 c.

Definition upper_hex_digit (n : nat) : ascii :=
  match String.get n "0123456789ABCDEF" with
  | Some c => c
  | None => "0"%char
  end.

Definition uriUnescaped (c : ascii) : bool :=
  in_range 65 90 c || in_range 97 122 c || in_range 48 57 c
  || existsb (Ascii.eqb c) (list_ascii_of_string "-_.!~*'()").

(** [encodeURIComponent], on one-byte characters. *)
Fixpoint encodeURIComponent (s : string) : string :=
  match s with
  | EmptyString => EmptyString
  | String c s' =>
      if uriUnescaped c then String c (encodeURIComponent s')
      else
        let n := nat_of_ascii c in
        String "%" (String (upper_hex_digit (n / 16))
                      (String (upper_hex_digit (n mod 16)) (encodeURIComponent s')))
  end.

Definition truthy (a : attr) : bool :=
  match a with
  | AUndefined | ABool false | ANum NaN | ANum (Num 0) | AStr EmptyString => false
  | _ => true
  end.

Definition lower (c : ascii) : ascii :=
  if in_range 65 90 c then ascii_of_nat (nat_of_ascii c + 32) else c.

Fixpoint toLowerCase (s : string) : string :=
  match s with
  | EmptyString => EmptyString
  | String c s' => String (lower c) (toLowerCase s')
  end.

Definition attrOf (k : string) (o : CookieOptions) : attr :=
  match assoc k o with
  | Some a => a
  | None => AUndefined
  end.

(** [serialize(name, val, options)] for options that set [maxAge],
    [path], [httpOnly], [secure] and [sameSite] at their documented types;
    other attributes are not modelled and answered with the marker. *)
Definition cookie_serialize (name val : string) (o : CookieOptions)
  : result string :=
  if negb (all_chars cookieNameChar name) || (String.length name =? 0)%nat
  then Throw (TypeError "argument name is invalid")
  else
    let value := encodeURIComponent val in
    if negb (all_chars cookieValueChar value)
    then Throw (TypeError "argument val is invalid")
    else
      let str := name ++ "=" ++ value in
      str1 <~
        match attrOf "maxAge" o with
        | AUndefined => Ok str
        | ANum (Num z) => Ok (str ++ "; Max-Age=" ++ string_of_Z z)
        | ANum NaN => Throw (TypeError "option maxAge is invalid")
        | _ => Throw outsideFragment
        end ;;
      if truthy (attrOf "domain" o) || truthy (attrOf "expires" o)
         || truthy (attrOf "partitioned" o) || truthy (attrOf "priority" o)
      then Throw outsideFragment
      else
        str2 <~
          match attrOf "path" o with
          | AStr EmptyString | AUndefined => Ok str1
          | AStr path =>
              if all_chars pathValueChar path
              then Ok (str1 ++ "; Path=" ++ path)
              else Throw (TypeError "option path is invalid")
          | _ => Throw outsideFragment
          end ;;
        let str3 := if truthy (attrOf "httpOnly" o) then str2 ++ "; HttpOnly" else str2 in
        let str4 := if truthy (attrOf "secure" o) then str3 ++ "; Secure" else str3 in
        match attrOf "sameSite" o with
        | AUndefined | ABool false | AStr EmptyString => Ok str4
        | ABool true => Ok (str4 ++ "; SameSite=Strict")
        | AStr t =>
            let t := toLowerCase t in
            if String.eqb t "lax" then Ok (str4 ++ "; SameSite=Lax")
            else if String.eqb t "strict" then Ok (str4 ++ "; SameSite=Strict")
            else if String.eqb t "none" then Ok (str4 ++ "; SameSite=None")
            else Throw (TypeError "option sameSite is invalid")
        | ANum _ => Throw outsideFragment
        end.

Fixpoint trim_left (s : string) : string :=
  match s with
  | String c s' => if in_range 32 32 c || in_range 9 9 c then trim_left s' else s
  | EmptyString => EmptyString
  end.

Fixpoint rev_string (s acc : string) : string :=
  match s with
  | EmptyString => acc
  | String c s' => rev_string s' (String c acc)
  end.

Definition trim (s : string) : string :=
  rev_string (trim_left (rev_string (trim_left s) EmptyString)) EmptyString.

(** [decodeURIComponent] on escapes of one-byte characters; a malformed
    escape is left as it stands. *)
Fixpoint percent_decode (s : string) : string :=
  match s with
  | EmptyString => EmptyString
  | String c r =>
      let keep := String c (percent_decode r) in
      if Ascii.eqb c "%"%char then
        match r with
        | String h1 (String h2 r') =>
            match hex_value h1, hex_value h2 with
            | Some a, Some b => String (ascii_of_nat (16 * a + b)) (percent_decode r')
            | _, _ => keep
            end
        | _ => keep
        end
      else keep
  end.

Definition parse_pair (pair : string) (acc : list (string * string))
  : list (string * string) :=
  match split "="%char pair with
  | (_, []) => acc
  | (k, v :: vs) =>
      let key := trim k in
      match assoc key acc with
      | Some _ => acc
      | None => (acc ++ [(key, percent_decode (trim (String.concat "=" (v :: vs))))])%list
      end
  end.

(** [parse(header)]: the first cookie of each name. *)
Definition cookie_parse (header : string) : list (string * string) :=
  fold_left (fun acc pair => parse_pair pair acc) (split_array ";"%char header) [].

(** ** The collaborators of the published [getIronSession] *)

Definition collaborators : Collaborators := {|
  sealData := sealSession backend;
  unsealData := Sealing.unsealData backend;
  serialize := cookie_serialize;
  parse := cookie_parse;
  Lifecycle.JSON_stringify := json_stringify
|}.

(** ** Sample tokens *)

(** The token that carries the JSON value [j] as its payload. *)
Definition tokenOf (j : json) : string :=
  stringify (encode (json_stringify j))
  ++ String versionDelimiter currentMajorVersion_string.

(** A token in the format [sealData] writes, with components of the sizes
    it would give them for the sample value: put together by hand from
    the library used in the library's order, since [sealData] itself
    returns none. *)
Definition handmade_sealed : result (string * entropy) :=
  (kemSeed <- randomBytes 64 ;;
   '(publicKey, _) <- lift (kem_keygen kemSeed) ;;
   '(_, sharedSecret) <- kem_encapsulate publicKey ;;
   iv <- randomBytes 12 ;;
   key <- lift (importKey sharedSecret UsageEncrypt) ;;
   encryptedData <-
     lift (gcm_encrypt iv key (encode (json_stringify (JObj [("userId", JNum 42)])))) ;;
   dsaSeed <- randomBytes 32 ;;
   '(signPublicKey, signSecretKey) <- lift (dsa_keygen dsaSeed) ;;
   signature <- dsa_sign signSecretKey encryptedData ;;
   ret (tokenOf (PQSealResult (stringify encryptedData) (stringify publicKey)
                   (stringify signature) (stringify signPublicKey))))
    sample_entropy.

Definition handmade_token : string :=
  match handmade_sealed with
  | Ok (token, _) => token
  | Throw _ => EmptyString
  end.

(** The parts of a token an attacker may alter. *)
Inductive component := Ciphertext | PublicKey | Signature | SignPublicKey.

Definition componentName (c : component) : string :=
  match c with
  | Ciphertext => "ciphertext"
  | PublicKey => "publicKey"
  | Signature => "signature"
  | SignPublicKey => "signPublicKey"
  end.

(** Flip the lowest bit of the byte at index [i]. *)
Fixpoint flipByte (i : nat) (bs : bytes) : bytes :=
  match bs, i with
  | [], _ => []
  | b :: bs', O => xor_byte b x01 :: bs'
  | b :: bs', S i' => b :: flipByte i' bs'
  end.

(** The token with byte [i] of one component flipped; the rest of the token
    is re-encoded as it was. *)
Definition tamper (c : component) (i : nat) (token : string) : string :=
  let payload := fst (split versionDelimiter token) in
  match parse_string true payload with
  | Ok raw =>
      match json_parse (decode raw) with
      | Ok (JObj fields) =>
          match assoc (componentName c) fields with
          | Some (JStr encoded) =>
              match parse_string false encoded with
              | Ok bs =>
                  stringify
                    (encode
                       (json_stringify
                          (JObj (put_member (componentName c)
                                   (JStr (stringify (flipByte i bs))) fields))))
                  ++ String versionDelimiter currentMajorVersion_string
              | Throw _ => token
              end
          | _ => token
          end
      | _ => token
      end
  | Throw _ => token
  end.

(** The four components of a token, decoded; empty when they do not
    decode. *)
Definition componentsOf (token : string) : bytes * bytes * bytes * bytes :=
  match sealComponents backend (fst (split versionDelimiter token)) with
  | Ok components => components
  | Throw _ => ([], [], [], [])
  end.

(** A payload with three of the four components. *)
Definition three_components : json :=
  JObj [ ("ciphertext", JStr "AA=="); ("publicKey", JStr "AA==");
         ("signature", JStr "AA==") ].

(** Key sets for a rotation: key 1 alone, then with a key 2. *)
Definition secretA : string := "AAAAAAAAAAAAAAAAAAAAAAAAAAAAAAAA".
Definition secretB : string := "BBBBBBBBBBBBBBBBBBBBBBBBBBBBBBBB".

Definition keysA : Password := PasswordMap [("1", secretA)].
Definition keysAB : Password := PasswordMap [("1", secretA); ("2", secretB)].

(** A token whose first component has the length of a signing public key
    and whose last has not the length of a signature: the library's
    [verify] answers [false]. *)
Definition unsigned_token : string :=
  tokenOf (PQSealResult (stringify (repeat x00 dsa_publicKey_len))
             "AA==" "AA==" "AA==").

(** ** A sealing pair without cryptography

    [createGetIronSession] takes its two sealing functions as arguments.
    This pair writes the session as base64url of its JSON text; it lets the
    lifecycle run on cookies of any size. *)

Definition plainSeal (o : Obj.object) (_ : SealOptions) : M string :=
  ret (stringify (encode (json_stringify (Obj.toJSON o)))
       ++ String versionDelimiter currentMajorVersion_string).

Definition plainUnseal (seal : string) (_ : SealOptions) : result value :=
  p <~ parseSeal seal ;;
  raw <~ parse_string true (sealWithoutVersion p) ;;
  j <~ json_parse (decode raw) ;;
  Ok (VJson j).

Definition plainCollaborators : Collaborators := {|
  sealData := plainSeal;
  unsealData := plainUnseal;
  serialize := cookie_serialize;
  parse := cookie_parse;
  Lifecycle.JSON_stringify := json_stringify
|}.

(** ** Sample sessions *)

(** [{ cookieName: "sid", password: "x".repeat(32) }]. *)
Definition sample_sessionOptions : SessionOptions :=
  mkSessionOptions "sid" sample_password Absent Absent.

(** The same with [ttl: 0], and with [cookieOptions: { maxAge: undefined }]. *)
Definition zero_ttl_options : SessionOptions :=
  mkSessionOptions "sid" sample_password (Present (Num 0)) Absent.

Definition session_cookie_options : SessionOptions :=
  mkSessionOptions "sid" sample_password Absent
    (Present [("maxAge", AUndefined)]).

Definition sample_config : SessionConfig := getSessionConfig sample_sessionOptions.

Definition sample_passwordsMap : PasswordsMap :=
  normalizeStringPasswordToMap sample_password.

(** The session object a request without cookie gets, with the fields
    given. *)
Definition sessionWith (fields : list (string * json)) : Obj.object :=
  (Obj.ofFields fields
   ++ map (fun km => (fst km, Obj.mkProperty (Obj.Func (snd km)) false false false))
        sessionMethods)%list.

(** A string of [n] letters. *)
Fixpoint letters (n : nat) : string :=
  match n with
  | O => EmptyString
  | S n' => String "a" (letters n')
  end.

Definition sample_fields : list (string * json) := [("userId", JNum 42)].

(** A session with [userId] set, on a Node response and on a cookie store. *)
Definition sample_state : Session Response :=
  mkSession (sessionWith sample_fields) sample_config sample_passwordsMap
    (ServerResponse false HeaderUndefined).

Definition sample_store_state : Session CookieStore :=
  mkSession (sessionWith sample_fields) sample_config sample_passwordsMap
    (mkCookieStore [] []).

(** The same session on a response whose headers were sent. *)
Definition sent_state : Session Response :=
  mkSession (sessionWith sample_fields) sample_config sample_passwordsMap
    (ServerResponse true HeaderUndefined).

(** A session with one field of 3004 letters, on both transports. *)
Definition big_fields : list (string * json) := [("data", JStr (letters 3004))].

Definition big_state : Session Response :=
  mkSession (sessionWith big_fields) sample_config sample_passwordsMap
    (ServerResponse false HeaderUndefined).

Definition big_store_state : Session CookieStore :=
  mkSession (sessionWith big_fields) sample_config sample_passwordsMap
    (mkCookieStore [] []).

(** The same with a field of 3010 letters. *)
Definition wide_fields : list (string * json) := [("data", JStr (letters 3010))].

Definition wide_store_state : Session CookieStore :=
  mkSession (sessionWith wide_fields) sample_config sample_passwordsMap
    (mkCookieStore [] []).

(** A request whose cookie holds the JSON value [j] under the name [sid],
    and a cookie store that does. *)
Definition requestWith (j : json) : Request :=
  mkRequest (Some ("sid=" ++ encodeURIComponent (tokenOf j))).

Definition storeWith (j : json) : CookieStore :=
  mkCookieStore [("sid", Some (tokenOf j))] [].

(** A request whose cookie unseals to [{ destroy: 1 }]. *)
Definition collision_request : Request :=
  mkRequest
    (Some ("sid=" ++ encodeURIComponent (tokenOf (JObj [("destroy", JNum 1)])))).

(** Session values: [{ userId: 42 }], and the same with a member [save]. *)
Definition user_json : json := JObj [("userId", JNum 42)].
Definition save_collision_json : json :=
  JObj [("userId", JNum 42); ("save", JNum 1)].

(** A request without cookie. *)
Definition empty_request : Request := mkRequest None.

(** Options the usage checks refuse: the password is too short. *)
Definition short_password_options : SessionOptions :=
  mkSessionOptions "other" (PasswordString "short") (Present (Num 120)) Absent.

(** Options that override two defaults and set a [maxAge]. *)
Definition custom_cookie_options : CookieOptions :=
  [("sameSite", AStr "strict"); ("maxAge", ANum (Num 100)); ("path", AStr "/app")].

Definition custom_options : SessionOptions :=
  mkSessionOptions "sid" sample_password Absent (Present custom_cookie_options).

(** A ttl of thirty seconds. *)
Definition short_ttl_options : SessionOptions :=
  mkSessionOptions "sid" sample_password (Present (Num 30)) Absent.


End Reference.

(* ================================================================== *)
(** * Properties of the sealing engine *)
(* ================================================================== *)

Section SealingFacts.

Import Sealing.
Local Open Scope string_scope.

Variable B : Backend.

Lemma split_first_append (c : ascii) (p r : string) :
  freeOf c p = true -> fst (split c (p ++ String c r)) = p.
Proof.
  induction p as [|d p IH]; simpl; intros Hfree.
  - destruct (split c r) as [first rest]. now rewrite Ascii.eqb_refl.
  - apply andb_true_iff in Hfree as [Hd Hp].
    specialize (IH Hp).
    destruct (split c (p ++ String c r)) as [first rest]; simpl in IH; subst first.
    apply negb_true_iff in Hd. now rewrite Hd.
Qed.

Lemma split_first_free (c : ascii) (p : string) :
  freeOf c p = true -> split c p = (p, []).
Proof.
  induction p as [|d p IH]; simpl; intros Hfree; [reflexivity|].
  apply andb_true_iff in Hfree as [Hd Hp].
  rewrite (IH Hp). apply negb_true_iff in Hd. now rewrite Hd.
Qed.

(** [parseSeal] never throws: [split] always yields a first element.  The
    guard on [sealWithoutVersion === undefined] is dead code. *)
Lemma parseSeal_total (seal : string) :
  exists tokenVersion,
    parseSeal seal
    = Ok (mkParsedSeal (fst (split versionDelimiter seal)) tokenVersion).
Proof.
  unfold parseSeal, split_array.
  destruct (split versionDelimiter seal) as [first rest]; simpl.
  eexists; reflexivity.
Qed.

(** [unsealData] reads nothing of its argument but the part before the
    first delimiter. *)
Lemma unsealData_unfold (seal : string) (options : SealOptions) :
  unsealData B seal options
  = try_catch (unsealBody B (fst (split versionDelimiter seal)))
      (fun error => if isSealError error then Ok empty_object else Throw error).
Proof.
  unfold unsealData.
  destruct (parseSeal_total seal) as [tv ->]. reflexivity.
Qed.

(** An error of the body that is outside the seal-validity class reaches
    the caller. *)
Lemma unsealData_rethrows (seal : string) (options : SealOptions) (e : thrown) :
  unsealBody B (fst (split versionDelimiter seal)) = Throw e ->
  isSealError e = false ->
  unsealData B seal options = Throw e.
Proof.
  intros Hbody Hclass. rewrite unsealData_unfold, Hbody. simpl. now rewrite Hclass.
Qed.

Lemma unsealBody_components (payload : string) (c k s p : bytes) :
  sealComponents B payload = Ok (c, k, s, p) ->
  unsealBody B payload = openSeal B c k s p.
Proof.
  unfold sealComponents, unsealBody, openSeal. intros H.
  repeat match type of H with
  | rbind ?r _ = _ => destruct r; simpl in H |- *; [|discriminate H]
  end.
  injection H as <- <- <- <-. reflexivity.
Qed.

End SealingFacts.

Section SealingProperties.

Import Sealing.
Local Open Scope string_scope.

Variable B : Backend.

(** [sealData] and [unsealData] never read their options argument. *)
Lemma sealData_ignores_options (data : value) (options options' : SealOptions) :
  sealData B data options = sealData B data options'.
Proof. reflexivity. Qed.

Lemma unsealData_ignores_options (seal : string) (options options' : SealOptions) :
  unsealData B seal options = unsealData B seal options'.
Proof. reflexivity. Qed.

(** [unsealData] never looks at [tokenVersion]: whatever follows the first
    delimiter, the outcome is that of the same payload at the current
    version. *)
Lemma unsealData_ignores_version (payload version : string)
  (options : SealOptions) :
  freeOf versionDelimiter payload = true ->
  unsealData B (payload ++ String versionDelimiter version) options
  = unsealData B (payload ++ String versionDelimiter currentMajorVersion_string)
      options.
Proof.
  intros Hfree. rewrite !unsealData_unfold.
  now rewrite !(split_first_append _ _ _ Hfree).
Qed.

(** A token without delimiter is no error: it is read as a payload. *)
Lemma unsealData_missing_delimiter (payload : string) (options : SealOptions) :
  freeOf versionDelimiter payload = true ->
  parseSeal payload = Ok (mkParsedSeal payload None)
  /\ unsealData B payload options
     = unsealData B (payload ++ String versionDelimiter currentMajorVersion_string)
         options.
Proof.
  intros Hfree. split.
  - unfold parseSeal, split_array. now rewrite (split_first_free _ _ Hfree).
  - rewrite !unsealData_unfold.
    now rewrite (split_first_append _ _ _ Hfree), (split_first_free _ _ Hfree).
Qed.

(** An error thrown while the payload is decoded reaches the caller unless
    its message starts with one of the five listed prefixes. *)
Lemma unsealData_decoding_error (seal : string) (options : SealOptions)
  (e : thrown) :
  sealComponents B (fst (split versionDelimiter seal)) = Throw e ->
  isSealError e = false ->
  unsealData B seal options = Throw e.
Proof.
  intros Hc He. apply unsealData_rethrows; [|exact He].
  revert Hc. unfold sealComponents, unsealBody. intros H.
  repeat match type of H with
  | rbind ?r _ = _ => destruct r; simpl in H |- *; [|congruence]
  end.
  discriminate H.
Qed.

(** ** With the library's checks *)

Lemma sealComponents_throw (payload : string) (e : thrown) :
  sealComponents B payload = Throw e -> unsealBody B payload = Throw e.
Proof.
  unfold sealComponents, unsealBody. intros H.
  repeat match type of H with
  | rbind ?r _ = _ => destruct r; simpl in H |- *; [|congruence]
  end.
  discriminate H.
Qed.

(** [sealData] asks [ml_dsa87.keygen] for a key pair with a seed of 64
    bytes, which the library refuses: no call of [sealData] returns. *)
Lemma sealData_throws (data : value) (options : SealOptions) (e : entropy) :
  nobleChecks B -> exists err, sealData B data options e = Throw err.
Proof.
  intros (Hkeygen & _).
  unfold sealData, bind, lift, randomBytes, ret.
  destruct (ml_kem1024_keygen B _) as [[publicKey secretKey]|err];
    [|eexists; reflexivity].
  destruct (ml_kem1024_encapsulate B publicKey _) as [[[cipherText sharedSecret] e1]|err];
    [|eexists; reflexivity].
  destruct (subtle_importKey B sharedSecret UsageEncrypt) as [key|err];
    [|eexists; reflexivity].
  destruct (subtle_encrypt B _ key _) as [encryptedData|err];
    [|eexists; reflexivity].
  match goal with
  | |- context [ml_dsa87_keygen B ?seed] =>
      destruct (Hkeygen seed) as [err Herr];
        [now rewrite length_map, length_seq | rewrite Herr]
  end.
  eexists; reflexivity.
Qed.

(** Once the four components are decoded the [try] block always throws.
    [verify] takes its first argument, the ciphertext, for a public key of
    2592 bytes, and [decapsulate] takes the same ciphertext for an
    encapsulation of 1568 bytes: whenever the first accepts it, the second
    refuses it. *)
Lemma openSeal_throws (c k s p : bytes) :
  nobleChecks B ->
  (ml_dsa87_verify B c s p = Ok false
   /\ openSeal B c k s p = Throw (Error "Invalid signature"))
  \/ (exists err,
        openSeal B c k s p = Throw err /\ isSealError err = false
        /\ (ml_dsa87_verify B c s p = Throw err
            \/ ml_dsa87_verify B c s p = Ok true
               /\ ml_kem1024_decapsulate B c k = Throw err)).
Proof.
  intros (_ & Hverify & Hverr & Hdecap & Hderr).
  unfold openSeal.
  destruct (ml_dsa87_verify B c s p) as [[|]|err] eqn:Hv.
  - right.
    assert (Hlen : List.length c = 2592%nat).
    { destruct (Nat.eq_dec (List.length c) 2592) as [E|Hne]; [exact E|].
      destruct (Hverify c s p Hne) as [err Herr]. congruence. }
    destruct (Hdecap c k) as [err Herr]; [rewrite Hlen; discriminate|].
    exists err. cbn [rbind negb]. rewrite Herr. cbn [rbind].
    split; [reflexivity|]. split; [exact (Hderr _ _ _ Herr) | right; now split].
  - left. now split.
  - right. exists err. cbn [rbind].
    split; [reflexivity|]. split; [exact (Hverr _ _ _ _ Hv) | now left].
Qed.

Lemma unsealBody_throws (payload : string) :
  nobleChecks B -> exists err, unsealBody B payload = Throw err.
Proof.
  intros HB.
  destruct (sealComponents B payload) as [[[[c k] s] p]|err] eqn:Hc.
  - rewrite (unsealBody_components _ _ _ _ _ _ Hc).
    destruct (openSeal_throws c k s p HB) as [[_ H]|[err [H _]]]; eauto.
  - exists err. now apply sealComponents_throw.
Qed.

(** So [unsealData] never returns what a token holds: it throws, or it
    returns the empty object of its [catch] block. *)
Lemma unsealData_never_opens (seal : string) (options : SealOptions) (v : value) :
  nobleChecks B -> unsealData B seal options = Ok v -> v = empty_object.
Proof.
  intros HB. rewrite unsealData_unfold.
  destruct (unsealBody_throws (fst (split versionDelimiter seal)) HB) as [err ->].
  cbn [try_catch]. destruct (isSealError err); [|discriminate].
  now intros [= <-].
Qed.

(** A token whose ciphertext has not the length of a signing public key
    makes [unsealData] throw what [verify] throws. *)
Lemma unsealData_verify_error (seal : string) (options : SealOptions)
  (c k s p : bytes) :
  nobleChecks B ->
  sealComponents B (fst (split versionDelimiter seal)) = Ok (c, k, s, p) ->
  List.length c <> 2592%nat ->
  exists err,
    ml_dsa87_verify B c s p = Throw err /\ unsealData B seal options = Throw err.
Proof.
  intros HB Hc Hlen.
  destruct HB as (_ & Hverify & Hverr & _).
  destruct (Hverify c s p Hlen) as [err Herr].
  exists err. split; [exact Herr|].
  apply unsealData_rethrows; [|exact (Hverr _ _ _ _ Herr)].
  rewrite (unsealBody_components _ _ _ _ _ _ Hc).
  unfold openSeal. now rewrite Herr.
Qed.

End SealingProperties.

(* ================================================================== *)
(** * The sealing engine run on the reference backend *)
(* ================================================================== *)

Section SealingRuns.

Import Sealing Reference.
Local Open Scope string_scope.

Ltac run :=
  repeat match goal with |- _ /\ _ => split end; vm_compute; reflexivity.

(** The reference key encapsulation is functionally correct: decapsulating
    the ciphertext under the secret key gives back the shared secret. *)
Example reference_kem_correct :
  let seed := map sample_entropy (seq 0 64) in
  match kem_keygen seed with
  | Ok (publicKey, secretKey) =>
      match kem_encapsulate publicKey sample_entropy with
      | Ok ((cipherText, sharedSecret), _) =>
          kem_decapsulate cipherText secretKey = Ok sharedSecret
      | Throw _ => False
      end
  | Throw _ => False
  end.
Proof. run. Qed.

(** So are its signature and its authenticated cipher. *)
Example reference_dsa_correct :
  let msg := encode "message" in
  match dsa_keygen (map sample_entropy (seq 0 32)) with
  | Ok (publicKey, secretKey) =>
      match dsa_sign secretKey msg sample_entropy with
      | Ok (signature, _) => dsa_verify publicKey msg signature = Ok true
      | Throw _ => False
      end
  | Throw _ => False
  end.
Proof. run. Qed.

Example reference_gcm_correct :
  let k := repeat x07 32 in
  let iv := repeat x01 12 in
  match gcm_encrypt iv (mkCryptoKey k UsageEncrypt) (encode "plain") with
  | Ok c => gcm_decrypt iv (mkCryptoKey k UsageDecrypt) c = Ok (encode "plain")
  | Throw _ => False
  end.
Proof. run. Qed.

Lemma lengthError_class (expected got : nat) :
  isSealError (lengthError expected got) = false.
Proof. reflexivity. Qed.

(** The reference backend makes the library's checks. *)
Lemma reference_nobleChecks : nobleChecks backend.
Proof.
  unfold nobleChecks, backend.
  cbn [ml_dsa87_keygen ml_dsa87_verify ml_kem1024_decapsulate].
  repeat apply conj.
  - intros seed Hlen. unfold dsa_keygen. rewrite Hlen. eexists; reflexivity.
  - intros a b c Hlen. unfold dsa_verify.
    apply Nat.eqb_neq in Hlen. unfold dsa_publicKey_len. rewrite Hlen.
    eexists; reflexivity.
  - intros a b c err. unfold dsa_verify.
    destruct (List.length a =? dsa_publicKey_len)%nat; cbn [negb].
    + destruct (List.length c =? dsa_signature_len)%nat; discriminate.
    + intros [= <-]. apply lengthError_class.
  - intros a b Hlen. unfold kem_decapsulate.
    apply Nat.eqb_neq in Hlen. unfold kem_cipherText_len. rewrite Hlen.
    destruct (List.length b =? kem_secretKey_len)%nat; eexists; reflexivity.
  - intros a b err. unfold kem_decapsulate.
    destruct (List.length b =? kem_secretKey_len)%nat; cbn [negb].
    + destruct (List.length a =? kem_cipherText_len)%nat; cbn [negb];
        [discriminate|]. intros [= <-]. apply lengthError_class.
    + intros [= <-]. apply lengthError_class.
Qed.

(** The handmade token holds a ciphertext of 29 bytes, a key-encapsulation
    public key of 1568, a signature of 4627 and a signing public key of
    2592; the signature is one the library accepts for that ciphertext
    under that key. *)
Example handmade_token_components :
  match sealComponents backend (fst (split versionDelimiter handmade_token)) with
  | Ok (c, k, s, p) =>
      List.length c = 29%nat /\ List.length k = kem_publicKey_len
      /\ List.length s = dsa_signature_len /\ List.length p = dsa_publicKey_len
      /\ dsa_verify p c s = Ok true
  | Throw _ => False
  end.
Proof. vm_compute. repeat split. Qed.

(** C1.  No value survives sealing and unsealing.  [sealData] hands
    [ml_dsa87.keygen] a seed of 64 bytes where the library takes 32, so it
    throws for every value, password and supply of random bytes: there is
    no token to unseal.  And [unsealData] returns the content of no token
    at all: on whatever string it is given it throws or returns the empty
    object, since it passes the ciphertext to [verify] in the place of the
    public key and to [decapsulate] in the place of the encapsulation. *)
Theorem seal_then_unseal_fails (B : Backend) :
  nobleChecks B ->
  (forall (data : value) (options : SealOptions) (e : entropy),
      exists err, Sealing.sealData B data options e = Throw err)
  /\ (forall (seal : string) (options : SealOptions) (v : value),
         Sealing.unsealData B seal options = Ok v -> v = empty_object).
Proof.
  intros HB. split.
  - intros data options e. now apply sealData_throws.
  - intros seal options v. now apply unsealData_never_opens.
Qed.

Lemma seal_then_unseal_fails_witness :
  nobleChecks backend
  /\ (exists err,
        Sealing.sealData backend sample_value sample_options sample_entropy
        = Throw err)
  /\ Sealing.unsealData backend handmade_token sample_options <> Ok sample_value.
Proof.
  split; [exact reference_nobleChecks|]. split.
  - exact (proj1 (seal_then_unseal_fails backend reference_nobleChecks)
             sample_value sample_options sample_entropy).
  - intros H.
    pose proof (proj2 (seal_then_unseal_fails backend reference_nobleChecks)
                  handmade_token sample_options sample_value H) as E.
    discriminate E.
Defined.

(** C2.  A token whose four components decode and whose ciphertext has
    not 2592 bytes, the length of a signing public key, makes [unsealData]
    throw: [verify] is handed the ciphertext where the library reads the
    public key, and its error is none the [catch] block swallows.  That is
    so for a token in the format of [sealData] and for the same token with
    a byte of any component changed, as long as the components decode. *)
Theorem tampered_token_throws (B : Backend) :
  nobleChecks B ->
  forall (seal : string) (options : SealOptions) (c k s p : bytes),
    sealComponents B (fst (split versionDelimiter seal)) = Ok (c, k, s, p) ->
    List.length c <> 2592%nat ->
    exists err,
      ml_dsa87_verify B c s p = Throw err
      /\ Sealing.unsealData B seal options = Throw err.
Proof.
  intros HB seal options c k s p Hc Hlen.
  exact (unsealData_verify_error B seal options c k s p HB Hc Hlen).
Qed.

Lemma tampered_token_throws_witness :
  String.eqb (tamper Signature 5 handmade_token) handmade_token = false
  /\ exists err,
       Sealing.unsealData backend (tamper Signature 5 handmade_token) sample_options
       = Throw err.
Proof.
  split; [vm_compute; reflexivity|].
  pose (x := componentsOf (tamper Signature 5 handmade_token)).
  assert (Hc : sealComponents backend
                 (fst (split versionDelimiter (tamper Signature 5 handmade_token)))
               = Ok (fst (fst (fst x)), snd (fst (fst x)), snd (fst x), snd x))
    by (vm_compute; reflexivity).
  assert (Hlen : List.length (fst (fst (fst x))) <> 2592%nat)
    by (vm_compute; discriminate).
  destruct (tampered_token_throws backend reference_nobleChecks
              (tamper Signature 5 handmade_token) sample_options
              (fst (fst (fst x))) (snd (fst (fst x))) (snd (fst x)) (snd x)
              Hc Hlen) as [err [_ Herr]].
  exists err. exact Herr.
Defined.

(** The same token with a byte of its ciphertext or of either public key
    changed throws as well, and so does the token left as it is. *)
Example tampered_components_throw :
  Sealing.unsealData backend handmade_token sample_options
  = Throw (lengthError dsa_publicKey_len 29)
  /\ Sealing.unsealData backend (tamper Ciphertext 0 handmade_token) sample_options
     = Throw (lengthError dsa_publicKey_len 29)
  /\ Sealing.unsealData backend (tamper PublicKey 0 handmade_token) sample_options
     = Throw (lengthError dsa_publicKey_len 29)
  /\ Sealing.unsealData backend (tamper SignPublicKey 7 handmade_token) sample_options
     = Throw (lengthError dsa_publicKey_len 29).
Proof. run. Qed.

(** C3.  A token of major version 3.  [parseSeal] reads the version and
    [unsealData] never looks at it: whatever follows the first delimiter,
    the outcome is that of the same payload at version 2.  The token
    [!!!~3] is not answered with the empty object: it throws the
    [SyntaxError] of [base64url.parse], as [!!!~2] does. *)
Theorem unrecognised_version_is_not_rejected :
  parseSeal "!!!~3" = Ok (mkParsedSeal "!!!" (Some (Num 3)))
  /\ Sealing.unsealData backend "!!!~3" sample_options
     = Throw (SyntaxError "Invalid character !")
  /\ (forall (B : Backend) (payload version : string) (options : SealOptions),
         freeOf versionDelimiter payload = true ->
         Sealing.unsealData B (payload ++ String versionDelimiter version) options
         = Sealing.unsealData B
             (payload ++ String versionDelimiter currentMajorVersion_string)
             options).
Proof.
  split; [reflexivity|]. split; [vm_compute; reflexivity|].
  intros B payload version options Hfree.
  now apply unsealData_ignores_version.
Qed.

(** C5, at the failing inputs.  A token without delimiter whose payload is
    not base64url, the same with a delimiter, a payload that is not JSON, a
    payload with no component and one with three components: each makes
    [unsealData] throw a [SyntaxError] or a [TypeError] to its caller. *)
Theorem malformed_tokens_throw :
  Sealing.unsealData backend "!!!" sample_options
  = Throw (SyntaxError "Invalid character !")
  /\ Sealing.unsealData backend "!!!~2" sample_options
     = Throw (SyntaxError "Invalid character !")
  /\ Sealing.unsealData backend (stringify (encode "not json") ++ "~2") sample_options
     = Throw (SyntaxError "Unexpected token in JSON")
  /\ Sealing.unsealData backend (tokenOf (JObj [])) sample_options
     = Throw (TypeError "Cannot read properties of undefined (reading 'length')")
  /\ Sealing.unsealData backend (tokenOf three_components) sample_options
     = Throw (TypeError "Cannot read properties of undefined (reading 'length')").
Proof. run. Qed.

End SealingRuns.

(* ================================================================== *)
(** * Passwords *)
(* ================================================================== *)

Section Passwords.

Import Sealing Reference.
Local Open Scope string_scope.

(** C4.  The password set plays no part in sealing or unsealing, although
    the documentation of [SessionOptions.password] says that the highest
    key encrypts and every key decrypts.  [sealData] and [unsealData] name
    their second argument [_options] and never read it: for the same data
    and the same random bytes [sealData] does the same whatever password
    set (and ttl) it is given, so no secret of the highest key id goes
    into a seal; and [unsealData] gives the same outcome for a token
    whatever password set it is given. *)
Theorem password_set_plays_no_part (B : Backend) :
  (forall (data : value) (options options' : SealOptions) (e : entropy),
      Sealing.sealData B data options e = Sealing.sealData B data options' e)
  /\ (forall (seal : string) (options options' : SealOptions),
         Sealing.unsealData B seal options = Sealing.unsealData B seal options')
  /\ (forall (seal : string) (t : option number),
         Sealing.unsealData B seal (mkSealOptions keysAB t)
         = Sealing.unsealData B seal (mkSealOptions keysA t)).
Proof.
  split; [|split].
  - intros data options options' e.
    now rewrite (sealData_ignores_options B data options options').
  - intros seal options options'. apply unsealData_ignores_options.
  - intros seal t. apply unsealData_ignores_options.
Qed.

End Passwords.

(* ================================================================== *)
(** * Properties of objects *)
(* ================================================================== *)

Section ObjectFacts.

Local Open Scope string_scope.

Lemma assoc_In {V} (k : string) (l : list (string * V)) (v : V) :
  assoc k l = Some v -> In (k, v) l.
Proof.
  induction l as [|[k' v'] l IH]; simpl; [discriminate|].
  destruct (String.eqb_spec k k') as [->|Hne].
  - intros [= ->]. now left.
  - intros H. right. now apply IH.
Qed.

Lemma assoc_None {V} (k : string) (l : list (string * V)) :
  assoc k l = None -> forall v, ~ In (k, v) l.
Proof.
  induction l as [|[k' v'] l IH]; simpl; intros H v; [tauto|].
  destruct (String.eqb_spec k k') as [->|Hne]; [discriminate|].
  intros [[= E _]|Hin]; [congruence|]. exact (IH H v Hin).
Qed.

Lemma assoc_app {V} (k : string) (l1 l2 : list (string * V)) :
  assoc k (l1 ++ l2)
  = match assoc k l1 with
    | Some v => Some v
    | None => assoc k l2
    end.
Proof.
  induction l1 as [|[k' v'] l1 IH]; simpl; [reflexivity|].
  now destruct (String.eqb k k').
Qed.

Lemma In_insertByIndex (i : Z) (kp : string * Obj.property)
  (l : list (Z * (string * Obj.property))) (x : Z * (string * Obj.property)) :
  In x (Obj.insertByIndex i kp l) <-> x = (i, kp) \/ In x l.
Proof.
  induction l as [|[j kp'] l IH]; simpl.
  - intuition congruence.
  - destruct (i <? j)%Z; simpl; rewrite ?IH; intuition congruence.
Qed.

(** [ownProperties] reorders the properties and loses none. *)
Lemma In_ownProperties (o : Obj.object) (kp : string * Obj.property) :
  In kp (Obj.ownProperties o) <-> In kp o.
Proof.
  unfold Obj.ownProperties. rewrite in_app_iff, filter_In, in_map_iff.
  assert (Hidx : forall x,
    In x (fold_right
            (fun kp acc =>
               match Obj.arrayIndex (fst kp) with
               | Some i => Obj.insertByIndex i kp acc
               | None => acc
               end) [] o)
    <-> In (snd x) o /\ Obj.arrayIndex (fst (snd x)) = Some (fst x)).
  { induction o as [|kp' o IH]; simpl; intros x; [tauto|].
    destruct (Obj.arrayIndex (fst kp')) as [i|] eqn:Hi.
    - rewrite In_insertByIndex, IH. destruct x as [j y]; simpl. split.
      + intros [[= -> ->]|[H1 H2]]; auto.
      + intros [[->|H1] H2]; [left; congruence | right; auto].
    - rewrite IH. split; [tauto|]. intros [[->|H1] H2]; [congruence | auto]. }
  split.
  - intros [[x [<- Hx]]|[H _]]; [now apply Hidx in Hx | exact H].
  - intros H. destruct (Obj.arrayIndex (fst kp)) as [i|] eqn:Hi.
    + left. exists (i, kp). split; [reflexivity|]. apply Hidx. now split.
    + right. now split.
Qed.

Lemma In_remove (k : string) (o : Obj.object) (kp : string * Obj.property) :
  In kp (Obj.remove k o) <-> In kp o /\ fst kp <> k.
Proof.
  unfold Obj.remove. rewrite filter_In, negb_true_iff.
  destruct (String.eqb_spec k (fst kp)); intuition congruence.
Qed.

Lemma getOwn_remove_other (k k' : string) (o : Obj.object) :
  k <> k' -> Obj.getOwn (Obj.remove k o) k' = Obj.getOwn o k'.
Proof.
  intros Hne. unfold Obj.getOwn, Obj.remove.
  induction o as [|[k0 p0] o IH]; simpl; [reflexivity|].
  destruct (String.eqb_spec k k0) as [->|Hk]; simpl.
  - destruct (String.eqb_spec k' k0); [congruence | exact IH].
  - now rewrite IH.
Qed.

Lemma In_replace (k k' : string) (p p' : Obj.property) (o : Obj.object) :
  k <> k' -> In (k', p') (Obj.replace k p o) -> In (k', p') o.
Proof.
  intros Hne. induction o as [|[k0 p0] o IH]; simpl; [tauto|].
  destruct (String.eqb_spec k k0) as [->|Hk]; simpl.
  - intros [[= E _]|H]; [congruence | now right].
  - intros [H|H]; [now left | right; auto].
Qed.

Lemma getOwn_replace_other (k k' : string) (p : Obj.property) (o : Obj.object) :
  k <> k' -> Obj.getOwn (Obj.replace k p o) k' = Obj.getOwn o k'.
Proof.
  intros Hne. unfold Obj.getOwn.
  induction o as [|[k0 p0] o IH]; simpl; [reflexivity|].
  destruct (String.eqb_spec k k0) as [->|Hk]; simpl.
  - destruct (String.eqb_spec k' k0); [congruence | reflexivity].
  - now rewrite IH.
Qed.

(** A successful [delete] leaves the object without the property. *)
Lemma deleteProperty_Ok (o o' : Obj.object) (k : string) :
  Obj.deleteProperty o k = Ok o' ->
  forall kp, In kp o' <-> In kp o /\ fst kp <> k.
Proof.
  unfold Obj.deleteProperty.
  destruct (Obj.getOwn o k) as [p|] eqn:Hget.
  - destruct (Obj.configurable p); [|discriminate].
    intros [= <-] kp. apply In_remove.
  - intros [= <-] [k' p']. simpl. split; [|tauto].
    intros H. split; [exact H|]. intros ->. exact (assoc_None _ _ Hget _ H).
Qed.

End ObjectFacts.

(* ================================================================== *)
(** * Properties of the session lifecycle *)
(* ================================================================== *)

Section LifecycleFacts.

Import Sealing Lifecycle.
Local Open Scope string_scope.

Lemma filter_none {A} (f : A -> bool) (l : list A) :
  (forall x, In x l -> f x = false) -> filter f l = [].
Proof.
  induction l as [|a l IH]; simpl; intros H; [reflexivity|].
  rewrite (H a (or_introl eq_refl)). apply IH. intros x Hx. apply H. now right.
Qed.

Lemma flat_map_none {A B} (f : A -> list B) (l : list A) :
  (forall x, In x l -> f x = []) -> flat_map f l = [].
Proof.
  induction l as [|a l IH]; simpl; intros H; [reflexivity|].
  rewrite (H a (or_introl eq_refl)). apply IH. intros x Hx. apply H. now right.
Qed.

(** An enumerable property is listed by [Object.keys]. *)
Lemma enumerable_in_keys (o : Obj.object) (kp : string * Obj.property) :
  In kp o -> Obj.enumerable (snd kp) = true -> In (fst kp) (Obj.keys o).
Proof.
  intros Hin Hen. unfold Obj.keys. apply in_map, filter_In.
  split; [exact (proj2 (In_ownProperties o kp) Hin) | exact Hen].
Qed.

Lemma keys_enumerable (o : Obj.object) (k : string) :
  In k (Obj.keys o) ->
  exists p, In (k, p) o /\ Obj.enumerable p = true.
Proof.
  unfold Obj.keys. rewrite in_map_iff. intros [[k' p] [<- H]].
  apply filter_In in H as [H1 H2]. exists p. split; [|exact H2].
  exact (proj1 (In_ownProperties o (k', p)) H1).
Qed.

(** The loop of [destroy], when it completes: what is left is what was
    there, but for the properties of the keys it went through. *)
Lemma deleteAll_Ok (ks : list string) (o o' : Obj.object) (u : unit) :
  deleteAll ks o = (o', Ok u) ->
  forall kp, In kp o' <-> In kp o /\ ~ In (fst kp) ks.
Proof.
  revert o. induction ks as [|k ks IH]; simpl; intros o H kp.
  - injection H as <- _. tauto.
  - destruct (Obj.deleteProperty o k) as [o1|e] eqn:Hdel; [|discriminate H].
    rewrite (IH _ H kp), (deleteProperty_Ok _ _ _ Hdel kp).
    intuition congruence.
Qed.

(** After the loop of [destroy] no enumerable property is left, and the
    payload of the session is the empty object. *)
Lemma clearSession_Ok (o o' : Obj.object) (u : unit) :
  clearSession o = (o', Ok u) ->
  Obj.keys o' = [] /\ Obj.toJSON o' = JObj [].
Proof.
  intros H.
  assert (Hnone : forall kp, In kp o' -> Obj.enumerable (snd kp) = false).
  { intros kp Hin. apply (deleteAll_Ok _ _ _ _ H) in Hin as [Hin Hk].
    destruct (Obj.enumerable (snd kp)) eqn:Hen; [|reflexivity].
    exfalso. apply Hk. now apply enumerable_in_keys. }
  split.
  - unfold Obj.keys. rewrite filter_none; [reflexivity|].
    intros kp Hin. apply Hnone. exact (proj1 (In_ownProperties o' kp) Hin).
  - unfold Obj.toJSON. rewrite flat_map_none; [reflexivity|].
    intros kp Hin. rewrite (Hnone kp);
      [|exact (proj1 (In_ownProperties o' kp) Hin)].
    now destruct (Obj.value (snd kp)).
Qed.

(** ** The closures stay where [getIronSession] put them *)

Lemma reserved_cases (k : string) (m : Obj.method) :
  In (k, m) sessionMethods ->
  (k = "updateConfig" /\ m = Obj.MUpdateConfig)
  \/ (k = "save" /\ m = Obj.MSave)
  \/ (k = "destroy" /\ m = Obj.MDestroy).
Proof.
  simpl. intros [[= <- <-]|[[= <- <-]|[[= <- <-]|[]]]]; auto.
Qed.

Lemma installed_delete (o o' : Obj.object) (k : string) :
  installed o -> Obj.deleteProperty o k = Ok o' -> installed o'.
Proof.
  intros Hinst Hdel k' m Hk'.
  destruct (Hinst k' m Hk') as [Hget Hall].
  assert (Hne : k <> k').
  { intros ->. unfold Obj.deleteProperty in Hdel. rewrite Hget in Hdel.
    discriminate Hdel. }
  split.
  - unfold Obj.deleteProperty in Hdel.
    destruct (Obj.getOwn o k) as [p|]; [|now injection Hdel as <-].
    destruct (Obj.configurable p); [|discriminate].
    injection Hdel as <-. now rewrite getOwn_remove_other.
  - intros p Hin. apply Hall.
    now apply (deleteProperty_Ok _ _ _ Hdel (k', p)) in Hin as [Hin _].
Qed.

Lemma installed_deleteAll (ks : list string) (o o' : Obj.object) (r : result unit) :
  installed o -> deleteAll ks o = (o', r) -> installed o'.
Proof.
  revert o. induction ks as [|k ks IH]; simpl; intros o Hinst H.
  - now injection H as <- _.
  - destruct (Obj.deleteProperty o k) as [o1|e] eqn:Hdel.
    + apply (IH o1); [|exact H]. exact (installed_delete _ _ _ Hinst Hdel).
    + now injection H as <- _.
Qed.

Lemma installed_assign (o o' : Obj.object) (k : string) (j : json) :
  installed o -> Obj.assign o k j = Ok o' -> installed o'.
Proof.
  intros Hinst Hasg k' m Hk'.
  destruct (Hinst k' m Hk') as [Hget Hall].
  assert (Hne : k <> k').
  { intros ->. unfold Obj.assign in Hasg. rewrite Hget in Hasg.
    discriminate Hasg. }
  unfold Obj.assign in Hasg.
  destruct (Obj.getOwn o k) as [p|] eqn:Hk.
  - destruct (Obj.writable p); [|discriminate].
    injection Hasg as <-. split.
    + now rewrite getOwn_replace_other.
    + intros q Hin. apply Hall. exact (In_replace _ _ _ _ _ Hne Hin).
  - injection Hasg as <-. split.
    + unfold Obj.getOwn in *. now rewrite assoc_app, Hget.
    + intros q Hin. apply in_app_iff in Hin as [Hin|[[= E _]|[]]];
        [now apply Hall | congruence].
Qed.

(** An object on which the closures are installed protects them. *)
Lemma installed_protected (o : Obj.object) : installed o -> protected o.
Proof.
  intros Hinst k m Hk. destruct (Hinst k m Hk) as [Hget Hall].
  repeat split.
  - exact Hget.
  - intros Hin. apply keys_enumerable in Hin as [p [Hp Hen]].
    rewrite (Hall p Hp) in Hen. discriminate Hen.
  - unfold methodOf. now rewrite Hget.
  - unfold payloadMembers, Obj.toJSON. rewrite in_map_iff.
    intros [[k' j] [Hk' Hin]]. simpl in Hk'. subst k'.
    apply in_flat_map in Hin as [[k' p] [Hp Hin]]. simpl in Hin.
    apply (proj1 (In_ownProperties o (k', p))) in Hp.
    destruct (Obj.value p) as [j'|m'] eqn:Hv; [|destruct Hin].
    destruct (Obj.enumerable p) eqn:He; [|destruct Hin].
    destruct Hin as [[= -> ->]|[]].
    rewrite (Hall p Hp) in He. discriminate He.
Qed.

Lemma getOwn_ofFields (fields : list (string * json)) (k : string) :
  Obj.getOwn (Obj.ofFields fields) k = option_map Obj.plain (assoc k fields).
Proof.
  unfold Obj.getOwn, Obj.ofFields.
  induction fields as [|[k' j] fields IH]; simpl; [reflexivity|].
  now destruct (String.eqb k k').
Qed.

Lemma defineMethod_absent (o : Obj.object) (k : string) (m : Obj.method) :
  Obj.getOwn o k = None ->
  Obj.defineMethod o k m = Ok (o ++ [(k, methodProperty m)])%list.
Proof. unfold Obj.defineMethod. now intros ->. Qed.

Lemma getOwn_ofFields_reserved (fields : list (string * json)) (k : string)
  (m : Obj.method) :
  reservedFree fields -> In (k, m) sessionMethods ->
  Obj.getOwn (Obj.ofFields fields) k = None.
Proof.
  intros Hfree Hk. now rewrite getOwn_ofFields, (Hfree k m Hk).
Qed.

(** On an object without members of the three names, [defineProperties]
    appends the three closures. *)
Lemma defineProperties_fresh (fields : list (string * json)) :
  reservedFree fields ->
  Obj.defineProperties (Obj.ofFields fields) sessionMethods
  = Ok (Obj.ofFields fields
        ++ [ ("updateConfig", methodProperty Obj.MUpdateConfig);
             ("save", methodProperty Obj.MSave);
             ("destroy", methodProperty Obj.MDestroy) ])%list.
Proof.
  intros Hfree.
  assert (H1 := getOwn_ofFields_reserved fields "updateConfig" Obj.MUpdateConfig
                  Hfree (or_introl eq_refl)).
  assert (H2 := getOwn_ofFields_reserved fields "save" Obj.MSave
                  Hfree (or_intror (or_introl eq_refl))).
  assert (H3 := getOwn_ofFields_reserved fields "destroy" Obj.MDestroy
                  Hfree (or_intror (or_intror (or_introl eq_refl)))).
  unfold sessionMethods. cbn [Obj.defineProperties].
  rewrite (defineMethod_absent _ _ _ H1). cbn [rbind].
  rewrite defineMethod_absent.
  2:{ unfold Obj.getOwn in *. now rewrite assoc_app, H2. }
  cbn [rbind]. rewrite defineMethod_absent.
  2:{ unfold Obj.getOwn in *. now rewrite !assoc_app, H3. }
  cbn [rbind]. now rewrite <- !app_assoc.
Qed.

Lemma installed_fresh (fields : list (string * json)) :
  reservedFree fields ->
  installed (Obj.ofFields fields
             ++ [ ("updateConfig", methodProperty Obj.MUpdateConfig);
                  ("save", methodProperty Obj.MSave);
                  ("destroy", methodProperty Obj.MDestroy) ])%list.
Proof.
  intros Hfree k m Hk.
  assert (Hnone : Obj.getOwn (Obj.ofFields fields) k = None)
    by (rewrite getOwn_ofFields, (Hfree k m Hk); reflexivity).
  split.
  - unfold Obj.getOwn in *. rewrite assoc_app, Hnone.
    destruct (reserved_cases k m Hk) as [[-> ->]|[[-> ->]|[-> ->]]]; reflexivity.
  - intros p Hin. apply in_app_iff in Hin as [Hin|Hin].
    + exfalso. exact (assoc_None _ _ Hnone _ Hin).
    + destruct (reserved_cases k m Hk) as [[-> ->]|[[-> ->]|[-> ->]]];
        simpl in Hin; intuition congruence.
Qed.

End LifecycleFacts.

(* ================================================================== *)
(** * The configuration resolver *)
(* ================================================================== *)

Section Configuration.

Import Sealing Lifecycle Reference.
Local Open Scope string_scope.

Lemma assoc_setProperty_same (k : string) (v : attr) (o : CookieOptions) :
  assoc k (setProperty k v o) = Some v.
Proof.
  induction o as [|[k' v'] o IH]; simpl.
  - now rewrite String.eqb_refl.
  - destruct (String.eqb_spec k k') as [->|Hne]; simpl.
    + now rewrite String.eqb_refl.
    + destruct (String.eqb_spec k k'); [congruence | exact IH].
Qed.

Lemma assoc_setProperty_other (k k' : string) (v : attr) (o : CookieOptions) :
  k <> k' -> assoc k' (setProperty k v o) = assoc k' o.
Proof.
  intros Hne. induction o as [|[k0 v0] o IH]; simpl.
  - destruct (String.eqb_spec k' k); [congruence | reflexivity].
  - destruct (String.eqb_spec k k0) as [->|Hk]; simpl.
    + destruct (String.eqb_spec k' k0); [congruence | reflexivity].
    + now rewrite IH.
Qed.

(** A property the second object lacks comes from the first. *)
Lemma assoc_spread_absent (k : string) (a b : CookieOptions) :
  assoc k b = None -> assoc k (spread a b) = assoc k a.
Proof.
  unfold spread. revert a. induction b as [|[k' v'] b IH]; simpl; intros a H.
  - reflexivity.
  - destruct (String.eqb_spec k k') as [->|Hne]; [discriminate|].
    rewrite (IH _ H). apply assoc_setProperty_other. congruence.
Qed.

(** A property of the second object overrides the first. *)
Lemma assoc_spread_present (k : string) (v : attr) (a b : CookieOptions) :
  NoDup (map fst b) -> assoc k b = Some v -> assoc k (spread a b) = Some v.
Proof.
  unfold spread. revert a. induction b as [|[k' v'] b IH]; simpl; intros a Hnd H.
  - discriminate.
  - inversion Hnd as [|x l Hnotin Hnd']; subst.
    destruct (String.eqb_spec k k') as [->|Hne].
    + injection H as ->.
      assert (Hnone : assoc k' b = None).
      { destruct (assoc k' b) as [w|] eqn:Hw; [|reflexivity].
        exfalso. apply Hnotin. apply assoc_In in Hw.
        now apply (in_map fst) in Hw. }
      change (assoc k' (spread (setProperty k' v a) b) = Some v).
      rewrite (assoc_spread_absent _ _ _ Hnone). apply assoc_setProperty_same.
    + now apply IH.
Qed.

(** The general rule: unless the caller's cookie options have a [maxAge],
    the resolved [maxAge] is [computeCookieMaxAge] of the resolved ttl. *)
Lemma getSessionConfig_maxAge (so : SessionOptions) :
  maxAgeRequested so = false ->
  configMaxAge (getSessionConfig so)
  = Some (ANum (computeCookieMaxAge (toNumber (configTtl (getSessionConfig so)))))
  /\ configTtl (getSessionConfig so)
     = match ttl so with
       | Absent => Some defaultTtl
       | Undefined => None
       | Present n => Some n
       end.
Proof.
  unfold maxAgeRequested, configMaxAge, getSessionConfig.
  destruct (cookieOptions so) as [| |o]; intros H; try rewrite H; simpl;
    split; try reflexivity; apply assoc_setProperty_same.
Qed.

(** C8.  With the default ttl of 1209600 seconds the resolved cookie
    options carry [maxAge] 1209540; with a ttl of exactly 0 they carry
    2147483647; when the caller's cookie options hold [maxAge: undefined],
    the resolved ttl is 0 and the resolved [maxAge] is [undefined], which
    makes the cookie package write no [Max-Age] attribute. *)
Theorem ttl_to_maxAge :
  (forall so : SessionOptions,
      ttl so = Absent -> maxAgeRequested so = false ->
      configTtl (getSessionConfig so) = Some (Num 1209600)
      /\ configMaxAge (getSessionConfig so) = Some (ANum (Num 1209540)))
  /\ (forall so : SessionOptions,
         ttl so = Present (Num 0) -> maxAgeRequested so = false ->
         configTtl (getSessionConfig so) = Some (Num 0)
         /\ configMaxAge (getSessionConfig so) = Some (ANum (Num 2147483647)))
  /\ (forall (so : SessionOptions) (o : CookieOptions),
         cookieOptions so = Present o ->
         NoDup (map fst o) ->
         assoc "maxAge" o = Some AUndefined ->
         configTtl (getSessionConfig so) = Some (Num 0)
         /\ configMaxAge (getSessionConfig so) = Some AUndefined).
Proof.
  repeat split.
  - destruct (getSessionConfig_maxAge so H0) as [_ ->]. now rewrite H.
  - destruct (getSessionConfig_maxAge so H0) as [-> ->]. now rewrite H.
  - destruct (getSessionConfig_maxAge so H0) as [_ ->]. now rewrite H.
  - destruct (getSessionConfig_maxAge so H0) as [-> ->]. now rewrite H.
  - unfold getSessionConfig, hasProperty. rewrite H, H1. reflexivity.
  - unfold configMaxAge, getSessionConfig, hasProperty. rewrite H, H1. simpl.
    now apply assoc_spread_present.
Qed.

Lemma ttl_to_maxAge_witness :
  (ttl sample_sessionOptions = Absent
   /\ maxAgeRequested sample_sessionOptions = false
   /\ configTtl (getSessionConfig sample_sessionOptions) = Some (Num 1209600)
   /\ configMaxAge (getSessionConfig sample_sessionOptions)
      = Some (ANum (Num 1209540)))
  /\ (ttl zero_ttl_options = Present (Num 0)
      /\ maxAgeRequested zero_ttl_options = false
      /\ configTtl (getSessionConfig zero_ttl_options) = Some (Num 0)
      /\ configMaxAge (getSessionConfig zero_ttl_options)
         = Some (ANum (Num 2147483647)))
  /\ (cookieOptions session_cookie_options = Present [("maxAge", AUndefined)]
      /\ NoDup (map fst [("maxAge", AUndefined)])
      /\ assoc "maxAge" [("maxAge", AUndefined)] = Some AUndefined
      /\ configTtl (getSessionConfig session_cookie_options) = Some (Num 0)
      /\ configMaxAge (getSessionConfig session_cookie_options) = Some AUndefined).
Proof.
  destruct ttl_to_maxAge as [H1 [H2 H3]].
  split; [|split].
  - split; [reflexivity|]. split; [reflexivity|].
    apply H1; reflexivity.
  - split; [reflexivity|]. split; [reflexivity|].
    apply H2; reflexivity.
  - assert (Hnd : NoDup (map fst [("maxAge", AUndefined)])).
    { simpl. constructor; [simpl; tauto | constructor]. }
    split; [reflexivity|]. split; [exact Hnd|]. split; [reflexivity|].
    apply (H3 session_cookie_options [("maxAge", AUndefined)]);
      [reflexivity | exact Hnd | reflexivity].
Defined.

(** What the cookie package writes for the three configurations. *)
Example serialized_maxAge :
  cookie_serialize "sid" "v" (configCookieOptions (getSessionConfig sample_sessionOptions))
  = Ok "sid=v; Max-Age=1209540; Path=/; HttpOnly; Secure; SameSite=Lax"
  /\ cookie_serialize "sid" "v" (configCookieOptions (getSessionConfig zero_ttl_options))
     = Ok "sid=v; Max-Age=2147483647; Path=/; HttpOnly; Secure; SameSite=Lax"
  /\ cookie_serialize "sid" "v"
       (configCookieOptions (getSessionConfig session_cookie_options))
     = Ok "sid=v; Path=/; HttpOnly; Secure; SameSite=Lax".
Proof. repeat split; vm_compute; reflexivity. Qed.

End Configuration.

(* ================================================================== *)
(** * save, destroy and the closures *)
(* ================================================================== *)

Section LifecycleProperties.

Import Sealing Lifecycle Reference.
Local Open Scope string_scope.

Variable C : Collaborators.

(** [setCookie], when it returns, has appended the value; it throws on a
    Node response whose headers were sent, and then only. *)
Lemma setCookie_Ok (res res' : Response) (cookieValue : string) :
  setCookie res cookieValue = Ok res' ->
  emitted res' = (emitted res ++ [cookieValue])%list
  /\ responseHeadersSent res' = responseHeadersSent res.
Proof.
  destruct res as [hs|[|] [|v|vs]]; simpl; try discriminate;
    intros [= <-]; split; reflexivity.
Qed.

Lemma setCookie_array (res : Response) (cookieValue : string) (sent : bool)
  (h : HeaderValue) :
  setCookie res cookieValue = Ok (ServerResponse sent h) ->
  h = HeaderArray (emitted res ++ [cookieValue])%list.
Proof.
  destruct res as [hs|[|] [|v|vs]]; simpl; try discriminate;
    intros [= _ <-]; reflexivity.
Qed.

Lemma setCookie_unsent (res : Response) (cookieValue : string) :
  responseHeadersSent res = false -> exists res', setCookie res cookieValue = Ok res'.
Proof.
  destruct res as [hs|[|] h]; simpl; try discriminate; intros _; eexists; reflexivity.
Qed.

Lemma setCookie_sent (res : Response) (cookieValue : string) :
  responseHeadersSent res = true ->
  setCookie res cookieValue = Throw ERR_HTTP_HEADERS_SENT.
Proof. destruct res as [hs|[|] h]; simpl; try discriminate; reflexivity. Qed.

Lemma save_session (st : Session Response) (e : entropy) :
  session (fst (save C st e)) = session st.
Proof.
  unfold save. destruct (responseHeadersSent (out st)); [reflexivity|].
  destruct (sealData C _ _ e) as [[seal e']|err]; [|reflexivity].
  destruct (serialize C _ seal _) as [cookieValue|err]; [|reflexivity].
  destruct (4096 <? String.length cookieValue)%nat; [reflexivity|].
  now destruct (setCookie (out st) cookieValue).
Qed.

Lemma saveToCookieStore_session (st : Session CookieStore) (e : entropy) :
  session (fst (saveToCookieStore C st e)) = session st.
Proof.
  unfold saveToCookieStore.
  destruct (sealData C _ _ e) as [[seal e']|err]; [|reflexivity].
  now destruct (4096 <? _)%nat.
Qed.

Lemma destroy_session (st : Session Response) :
  session (fst (destroy C st)) = fst (clearSession (session st)).
Proof.
  unfold destroy. destruct (clearSession (session st)) as [o [u|err]]; [|reflexivity].
  destruct (serialize C _ _ _) as [cookieValue|err]; [|reflexivity].
  now destruct (setCookie (out st) cookieValue).
Qed.

Lemma destroyInCookieStore_session (st : Session CookieStore) :
  session (fst (destroyInCookieStore st)) = fst (clearSession (session st)).
Proof.
  unfold destroyInCookieStore.
  now destruct (clearSession (session st)) as [o [u|err]].
Qed.

Lemma installed_clearSession (o : Obj.object) :
  installed o -> installed (fst (clearSession o)).
Proof.
  intros H. unfold clearSession.
  destruct (deleteAll (Obj.keys o) o) as [o' r] eqn:Hd.
  exact (installed_deleteAll _ _ _ _ H Hd).
Qed.

(** [destroy()] when it returns: the loop completed, the cookie was
    serialized and the response took it. *)
Lemma destroy_Ok (st st' : Session Response) (u : unit) :
  destroy C st = (st', Ok u) ->
  exists o cookieValue res,
    clearSession (session st) = (o, Ok tt)
    /\ serialize C (configCookieName (sessionConfig st)) EmptyString
         (spread (configCookieOptions (sessionConfig st))
            [("maxAge", ANum (Num 0))]) = Ok cookieValue
    /\ setCookie (out st) cookieValue = Ok res
    /\ st' = withOut (withSession st o) res.
Proof.
  unfold destroy.
  destruct (clearSession (session st)) as [o [[]|err]]; [|discriminate].
  destruct (serialize C _ _ _) as [cookieValue|err]; [|discriminate].
  destruct (setCookie (out st) cookieValue) as [res|err] eqn:Hset; [|discriminate].
  intros [= <-]. now exists o, cookieValue, res.
Qed.

Lemma destroyInCookieStore_Ok (st st' : Session CookieStore) (u : unit) :
  destroyInCookieStore st = (st', Ok u) ->
  exists o,
    clearSession (session st) = (o, Ok tt)
    /\ st' = withOut (withSession st o)
               (storeSet (out st) (configCookieName (sessionConfig st)) EmptyString
                  (spread (configCookieOptions (sessionConfig st))
                     [("maxAge", ANum (Num 0))])).
Proof.
  unfold destroyInCookieStore.
  destruct (clearSession (session st)) as [o [[]|err]]; [|discriminate].
  intros [= <-]. now exists o.
Qed.

(** Whatever happens to a session, the closures stay installed. *)
Lemma reachable_installed {T}
  (sv : Session T -> entropy -> Session T * result entropy)
  (ds : Session T -> Session T * result unit) (st st' : Session T) :
  (forall s e, session (fst (sv s e)) = session s) ->
  (forall s, session (fst (ds s)) = fst (clearSession (session s))) ->
  installed (session st) ->
  reachable sv ds st st' ->
  installed (session st').
Proof.
  intros Hsv Hds Hinst Hreach.
  induction Hreach as [st|st st1 st2 _ IH Hstep]; [exact Hinst|].
  specialize (IH Hinst).
  destruct Hstep as [s e|s|s so|s k j o Ha|s k o Hd]; simpl.
  - now rewrite Hsv.
  - rewrite Hds. now apply installed_clearSession.
  - exact IH.
  - exact (installed_assign _ _ _ _ IH Ha).
  - exact (installed_delete _ _ _ IH Hd).
Qed.

(** Loading a session from a plain object whose members bear none of the
    three names. *)
Lemma loadSession_fresh {T} (seal : string) (pm : PasswordsMap)
  (cfg : SessionConfig) (t : T) (fields : list (string * json)) :
  unsealedSession C seal pm cfg = Ok (VJson (JObj fields)) ->
  reservedFree fields ->
  exists st,
    loadSession C seal pm cfg t = Ok (PlainSession st) /\ installed (session st).
Proof.
  intros Hf Hfree. unfold loadSession. rewrite Hf. cbn [rbind].
  rewrite (defineProperties_fresh _ Hfree). cbn [rbind].
  eexists. split; [reflexivity|]. simpl. now apply installed_fresh.
Qed.

End LifecycleProperties.

Section DeletableFacts.

Import Sealing Lifecycle Reference.
Local Open Scope string_scope.

Lemma In_replace_cases (k : string) (np : Obj.property) (o : Obj.object)
  (x : string * Obj.property) :
  In x (Obj.replace k np o) -> x = (k, np) \/ In x o.
Proof.
  induction o as [|[k0 p0] o IH]; simpl; [tauto|].
  destruct (String.eqb k k0); simpl; intuition.
Qed.

Lemma deletable_replace (o : Obj.object) (k : string) (cur np : Obj.property) :
  deletable o ->
  Obj.getOwn o k = Some cur ->
  Obj.enumerable np = Obj.enumerable cur ->
  Obj.configurable np = Obj.configurable cur ->
  deletable (Obj.replace k np o).
Proof.
  intros Hd Hget He Hc k0 p q Hp Hen Hq.
  apply assoc_In in Hget.
  apply In_replace_cases in Hp as [Ep|Hp];
    apply In_replace_cases in Hq as [Eq|Hq];
    try (inversion Ep; subst k0 p); try (inversion Eq; subst q); subst.
  - rewrite Hc. rewrite He in Hen. exact (Hd _ _ _ Hget Hen Hget).
  - rewrite He in Hen. exact (Hd _ _ _ Hget Hen Hq).
  - rewrite Hc. exact (Hd _ _ _ Hp Hen Hget).
  - exact (Hd _ _ _ Hp Hen Hq).
Qed.

Lemma deletable_append (o : Obj.object) (k : string) (np : Obj.property) :
  deletable o ->
  Obj.getOwn o k = None ->
  (Obj.enumerable np = true -> Obj.configurable np = true) ->
  deletable (o ++ [(k, np)])%list.
Proof.
  intros Hd Hget Hnp k0 p q Hp Hen Hq.
  apply in_app_iff in Hp as [Hp|[Ep|[]]];
    apply in_app_iff in Hq as [Hq|[Eq|[]]];
    try (inversion Ep; subst k0 p); try (inversion Eq; subst q); subst.
  - exact (Hd _ _ _ Hp Hen Hq).
  - exfalso. exact (assoc_None _ _ Hget _ Hp).
  - exfalso. exact (assoc_None _ _ Hget _ Hq).
  - exact (Hnp Hen).
Qed.

Lemma deletable_ofFields (fields : list (string * json)) :
  deletable (Obj.ofFields fields).
Proof.
  intros k p q _ _ Hq. unfold Obj.ofFields in Hq.
  apply in_map_iff in Hq as [[k' j] [[= _ <-] _]]. reflexivity.
Qed.

Lemma deletable_defineMethod (o o' : Obj.object) (k : string) (m : Obj.method) :
  deletable o -> Obj.defineMethod o k m = Ok o' -> deletable o'.
Proof.
  intros Hd. unfold Obj.defineMethod.
  destruct (Obj.getOwn o k) as [cur|] eqn:Hget.
  - destruct (Obj.configurable cur || Obj.writable cur); [|discriminate].
    intros [= <-]. now apply (deletable_replace _ _ cur).
  - intros [= <-]. apply deletable_append; [exact Hd | exact Hget | discriminate].
Qed.

Lemma deletable_assign (o o' : Obj.object) (k : string) (j : json) :
  deletable o -> Obj.assign o k j = Ok o' -> deletable o'.
Proof.
  intros Hd. unfold Obj.assign.
  destruct (Obj.getOwn o k) as [cur|] eqn:Hget.
  - destruct (Obj.writable cur); [|discriminate].
    intros [= <-]. now apply (deletable_replace _ _ cur).
  - intros [= <-]. apply deletable_append; [exact Hd | exact Hget | reflexivity].
Qed.

Lemma deletable_delete (o o' : Obj.object) (k : string) :
  deletable o -> Obj.deleteProperty o k = Ok o' -> deletable o'.
Proof.
  intros Hd Hdel k0 p q Hp Hen Hq.
  apply (deleteProperty_Ok _ _ _ Hdel) in Hp as [Hp _].
  apply (deleteProperty_Ok _ _ _ Hdel) in Hq as [Hq _].
  exact (Hd _ _ _ Hp Hen Hq).
Qed.

Lemma deletable_deleteAll (ks : list string) (o o' : Obj.object) (r : result unit) :
  deletable o -> deleteAll ks o = (o', r) -> deletable o'.
Proof.
  revert o. induction ks as [|k ks IH]; simpl; intros o Hd H.
  - now injection H as <- _.
  - destruct (Obj.deleteProperty o k) as [o1|e] eqn:Hdel.
    + apply (IH o1); [|exact H]. exact (deletable_delete _ _ _ Hd Hdel).
    + now injection H as <- _.
Qed.

(** The loop of [destroy] completes on an object whose enumerable
    properties can be deleted. *)
Lemma deleteAll_completes (ks : list string) (o : Obj.object) :
  deletable o ->
  (forall k, In k ks -> forall cur, Obj.getOwn o k = Some cur ->
     exists p, In (k, p) o /\ Obj.enumerable p = true) ->
  exists o', deleteAll ks o = (o', Ok tt).
Proof.
  revert o. induction ks as [|k ks IH]; simpl; intros o Hd Hks.
  - now exists o.
  - unfold Obj.deleteProperty.
    destruct (Obj.getOwn o k) as [cur|] eqn:Hget.
    + destruct (Hks k (or_introl eq_refl) cur Hget) as [p [Hp Hen]].
      rewrite (Hd _ _ _ Hp Hen (assoc_In _ _ _ Hget)).
      assert (Hdel : Obj.deleteProperty o k = Ok (Obj.remove k o)).
      { unfold Obj.deleteProperty. rewrite Hget.
        now rewrite (Hd _ _ _ Hp Hen (assoc_In _ _ _ Hget)). }
      apply IH; [exact (deletable_delete _ _ _ Hd Hdel)|].
      intros k' Hk' cur' Hget'.
      destruct (String.eqb_spec k k') as [<-|Hne].
      * exfalso. apply assoc_In in Hget'. apply In_remove in Hget' as [_ Hk].
        now apply Hk.
      * rewrite (getOwn_remove_other _ _ _ Hne) in Hget'.
        destruct (Hks k' (or_intror Hk') cur' Hget') as [p' [Hp' Hen']].
        exists p'. split; [|exact Hen']. apply In_remove. split; [exact Hp'|].
        simpl. intros E. apply Hne. symmetry. exact E.
    + apply IH; [exact Hd|]. intros k' Hk'. apply Hks. now right.
Qed.

Lemma clearSession_completes (o : Obj.object) :
  deletable o -> exists o', clearSession o = (o', Ok tt).
Proof.
  intros Hd. apply deleteAll_completes; [exact Hd|].
  intros k Hk cur _. exact (keys_enumerable _ _ Hk).
Qed.

(** [defineProperties] never throws on a freshly parsed object: a member
    that bears the name of a closure is configurable, and is replaced.  It
    keeps the attributes of a member: enumerable, configurable, writable. *)
Lemma defineProperties_total (fields : list (string * json)) :
  exists o,
    Obj.defineProperties (Obj.ofFields fields) sessionMethods = Ok o
    /\ deletable o
    /\ (forall k m, In (k, m) sessionMethods -> methodOf o k = Ok m)
    /\ (forall k j, assoc k fields = Some j ->
          (forall m, ~ In (k, m) sessionMethods) ->
          Obj.getOwn o k = Some (Obj.plain j))
    /\ (forall k m, In (k, m) sessionMethods ->
          Obj.getOwn o k
          = Some match assoc k fields with
                 | Some _ => Obj.mkProperty (Obj.Func m) true true true
                 | None => methodProperty m
                 end).
Proof.
  assert (Hstep : forall o k m,
    (forall p, In (k, p) o -> Obj.configurable p = true) ->
    exists o', Obj.defineMethod o k m = Ok o'
      /\ Obj.getOwn o' k
         = Some match Obj.getOwn o k with
                | Some cur =>
                    Obj.mkProperty (Obj.Func m) (Obj.enumerable cur)
                      (Obj.configurable cur) (Obj.writable cur)
                | None => methodProperty m
                end
      /\ (forall k', k <> k' -> Obj.getOwn o' k' = Obj.getOwn o k')
      /\ (forall k' p, k <> k' -> In (k', p) o' -> In (k', p) o)).
  { intros o k m Hconf. unfold Obj.defineMethod.
    destruct (Obj.getOwn o k) as [cur|] eqn:Hget.
    - rewrite (Hconf cur (assoc_In _ _ _ Hget)). cbn [orb]. eexists.
      split; [reflexivity|]. split; [|split].
      + unfold Obj.getOwn in *. clear Hconf.
        induction o as [|[k0 p0] o IH]; [discriminate|]. simpl in *.
        destruct (String.eqb_spec k k0) as [->|Hne]; simpl.
        * now rewrite String.eqb_refl.
        * destruct (String.eqb_spec k k0); [congruence|]. now apply IH.
      + intros k' Hne. now apply getOwn_replace_other.
      + intros k' p Hne Hin. exact (In_replace _ _ _ _ _ Hne Hin).
    - eexists. split; [reflexivity|]. split; [|split].
      + unfold Obj.getOwn in *. rewrite assoc_app, Hget. simpl.
        now rewrite String.eqb_refl.
      + intros k' Hne. unfold Obj.getOwn. rewrite assoc_app.
        destruct (assoc k' o); [reflexivity|]. simpl.
        destruct (String.eqb_spec k' k); [congruence | reflexivity].
      + intros k' p Hne Hin. apply in_app_iff in Hin as [Hin|[[= E _]|[]]];
          [exact Hin | congruence]. }
  assert (Hplain : forall k p, In (k, p) (Obj.ofFields fields) ->
                               Obj.configurable p = true).
  { intros k p Hin. unfold Obj.ofFields in Hin.
    apply in_map_iff in Hin as [[k' j] [[= _ <-] _]]. reflexivity. }
  destruct (Hstep (Obj.ofFields fields) "updateConfig" Obj.MUpdateConfig
              (Hplain _)) as (o1 & H1 & M1 & G1 & I1).
  destruct (Hstep o1 "save" Obj.MSave) as (o2 & H2 & M2 & G2 & I2).
  { intros p Hin. apply (Hplain "save"). apply I1; [discriminate | exact Hin]. }
  destruct (Hstep o2 "destroy" Obj.MDestroy) as (o3 & H3 & M3 & G3 & I3).
  { intros p Hin. apply (Hplain "destroy").
    apply I1; [discriminate|]. apply I2; [discriminate | exact Hin]. }
  assert (Hattr : forall k m, In (k, m) sessionMethods ->
            Obj.getOwn o3 k
            = Some match assoc k fields with
                   | Some _ => Obj.mkProperty (Obj.Func m) true true true
                   | None => methodProperty m
                   end).
  { intros k m Hk.
    destruct (reserved_cases k m Hk) as [[-> ->]|[[-> ->]|[-> ->]]].
    - rewrite G3, G2, M1, getOwn_ofFields by discriminate.
      now destruct (assoc "updateConfig" fields).
    - rewrite G3, M2, G1, getOwn_ofFields by discriminate.
      now destruct (assoc "save" fields).
    - rewrite M3, G2, G1, getOwn_ofFields by discriminate.
      now destruct (assoc "destroy" fields). }
  exists o3. split; [|split; [|split; [|split]]].
  - unfold sessionMethods. cbn [Obj.defineProperties].
    rewrite H1. cbn [rbind]. rewrite H2. cbn [rbind]. rewrite H3. reflexivity.
  - eapply deletable_defineMethod; [|exact H3].
    eapply deletable_defineMethod; [|exact H2].
    eapply deletable_defineMethod; [|exact H1].
    apply deletable_ofFields.
  - intros k m Hk. unfold methodOf. rewrite (Hattr k m Hk).
    now destruct (assoc k fields).
  - intros k j Hj Hfree.
    rewrite G3, G2, G1, getOwn_ofFields, Hj; [reflexivity| | |]; intros <-.
    + apply (Hfree Obj.MUpdateConfig). simpl. auto.
    + apply (Hfree Obj.MSave). simpl. auto.
    + apply (Hfree Obj.MDestroy). simpl. auto.
  - exact Hattr.
Qed.

(** Once the loop of [destroy] has run, a key that [Object.keys] listed is
    the key of no property, and cannot be called. *)
Lemma cleared_not_callable (o o' : Obj.object) (k : string) :
  clearSession o = (o', Ok tt) ->
  In k (Obj.keys o) ->
  Obj.getOwn o' k = None /\ methodOf o' k = Throw (notAFunction k).
Proof.
  intros Hclear Hk.
  assert (Hnone : Obj.getOwn o' k = None).
  { destruct (Obj.getOwn o' k) as [p|] eqn:Hget; [|reflexivity].
    apply assoc_In in Hget.
    apply (deleteAll_Ok _ _ _ _ Hclear (k, p)) in Hget as [_ Hout].
    now destruct Hout. }
  split; [exact Hnone|]. unfold methodOf. now rewrite Hnone.
Qed.

Lemma loadSession_deletable {T} (C : Collaborators) (seal : string)
  (pm : PasswordsMap) (cfg : SessionConfig) (t : T) (st : Session T) :
  loadSession C seal pm cfg t = Ok (PlainSession st) -> deletable (session st).
Proof.
  unfold loadSession, rbind.
  destruct (unsealedSession C seal pm cfg) as [[[| | | | |fields]|]|];
    try discriminate.
  destruct (defineProperties_total fields) as (o & Ho & Hd & _).
  rewrite Ho. now intros [= <-].
Qed.

(** Whatever happens to a session, [delete] keeps accepting the keys
    [Object.keys] lists. *)
Lemma reachable_deletable {T}
  (sv : Session T -> entropy -> Session T * result entropy)
  (ds : Session T -> Session T * result unit) (st st' : Session T) :
  (forall s e, session (fst (sv s e)) = session s) ->
  (forall s, session (fst (ds s)) = fst (clearSession (session s))) ->
  deletable (session st) ->
  reachable sv ds st st' ->
  deletable (session st').
Proof.
  intros Hsv Hds Hdel Hreach.
  induction Hreach as [st|st st1 st2 _ IH Hstep]; [exact Hdel|].
  specialize (IH Hdel).
  destruct Hstep as [s e|s|s so|s k j o Ha|s k o Hd]; simpl.
  - now rewrite Hsv.
  - rewrite Hds. unfold clearSession.
    destruct (deleteAll (Obj.keys (session s)) (session s)) as [o r] eqn:E.
    exact (deletable_deleteAll _ _ _ _ IH E).
  - exact IH.
  - exact (deletable_assign _ _ _ _ IH Ha).
  - exact (deletable_delete _ _ _ IH Hd).
Qed.

End DeletableFacts.

Section LifecycleClaims.

Import Sealing Lifecycle Reference.
Local Open Scope string_scope.

(** What both claims below rest on: a session loaded from a plain object,
    with what [Object.defineProperties] and the loop of [destroy] make of
    it. *)
Lemma loaded_plain (fields : list (string * json)) :
  exists o o',
    Obj.defineProperties (Obj.ofFields fields) sessionMethods = Ok o
    /\ clearSession o = (o', Ok tt)
    /\ Obj.keys o' = []
    /\ (forall k m, In (k, m) sessionMethods -> methodOf o k = Ok m)
    /\ (forall k m j, In (k, m) sessionMethods -> assoc k fields = Some j ->
          Obj.getOwn o k = Some (Obj.mkProperty (Obj.Func m) true true true)
          /\ In k (Obj.keys o)
          /\ methodOf o' k = Throw (notAFunction k)).
Proof.
  destruct (defineProperties_total fields) as (o & Ho & Hd & Hm & _ & Hattr).
  destruct (clearSession_completes o Hd) as [o' Hclear].
  exists o, o'. split; [exact Ho|]. split; [exact Hclear|].
  split; [exact (proj1 (clearSession_Ok _ _ _ Hclear))|]. split; [exact Hm|].
  intros k m j Hk Hj. specialize (Hattr k m Hk). rewrite Hj in Hattr.
  assert (Hkeys : In k (Obj.keys o)).
  { apply (enumerable_in_keys o (k, Obj.mkProperty (Obj.Func m) true true true));
      [exact (assoc_In _ _ _ Hattr) | reflexivity]. }
  split; [exact Hattr|]. split; [exact Hkeys|].
  exact (proj2 (cleared_not_callable _ _ _ Hclear Hkeys)).
Qed.

(** C9.  [destroy()] followed by [save()] on a session whose cookie had a
    member named [save].  [Object.defineProperties] gave that property the
    closure as its value and left it enumerable and configurable, so the
    loop of [destroy()] deletes it with the fields: [Object.keys] is empty
    afterwards, as the claim says, but [session.save()] then throws a
    [TypeError] and seals nothing. *)
Theorem save_after_destroy_fails (C : Collaborators) :
  (forall (req : Request) (res : Response) (so : SessionOptions)
          (pm : PasswordsMap) (cfg : SessionConfig)
          (fields : list (string * json)) (j : json),
      checkedConfig so = Ok (pm, cfg) ->
      unsealedSession C (getCookie C req (configCookieName cfg)) pm cfg
      = Ok (VJson (JObj fields)) ->
      assoc "save" fields = Some j ->
      exists st,
        getIronSessionFromRequest C req res so = Ok (PlainSession st)
        /\ forall e,
             let st' := fst (call (save C) (destroy C) "destroy" st e) in
             st' = fst (destroy C st)
             /\ Obj.keys (session st') = []
             /\ call (save C) (destroy C) "save" st' e
                = (st', Throw (notAFunction "save")))
  /\ (forall (cookieStore : CookieStore) (so : SessionOptions)
             (pm : PasswordsMap) (cfg : SessionConfig)
             (fields : list (string * json)) (j : json),
         checkedConfig so = Ok (pm, cfg) ->
         unsealedSession C (getServerActionCookie (configCookieName cfg) cookieStore)
           pm cfg = Ok (VJson (JObj fields)) ->
         assoc "save" fields = Some j ->
         exists st,
           getIronSessionFromCookieStore C cookieStore so = Ok (PlainSession st)
           /\ forall e,
                let st' :=
                  fst (call (saveToCookieStore C) destroyInCookieStore "destroy" st e) in
                st' = fst (destroyInCookieStore st)
                /\ Obj.keys (session st') = []
                /\ call (saveToCookieStore C) destroyInCookieStore "save" st' e
                   = (st', Throw (notAFunction "save"))).
Proof.
  split.
  - intros req res so pm cfg fields j Hcfg Hf Hj.
    destruct (loaded_plain fields) as (o & o' & Ho & Hclear & Hkeys & Hm & Hcol).
    destruct (Hcol "save" Obj.MSave j) as (_ & _ & Hgone);
      [simpl; auto | exact Hj |].
    exists (mkSession o cfg pm res). split.
    + unfold getIronSessionFromRequest. rewrite Hcfg. cbn [rbind].
      unfold loadSession. rewrite Hf. cbn [rbind]. now rewrite Ho.
    + intros e. cbv zeta.
      assert (Hcall : fst (call (save C) (destroy C) "destroy"
                             (mkSession o cfg pm res) e)
                      = fst (destroy C (mkSession o cfg pm res))).
      { unfold call. cbn [session].
        rewrite (Hm "destroy" Obj.MDestroy) by (simpl; auto).
        now destruct (destroy C (mkSession o cfg pm res)). }
      rewrite Hcall.
      assert (Hs : session (fst (destroy C (mkSession o cfg pm res))) = o').
      { rewrite destroy_session. cbn [session]. now rewrite Hclear. }
      split; [reflexivity|]. split; [now rewrite Hs|].
      unfold call. now rewrite Hs, Hgone.
  - intros cs so pm cfg fields j Hcfg Hf Hj.
    destruct (loaded_plain fields) as (o & o' & Ho & Hclear & Hkeys & Hm & Hcol).
    destruct (Hcol "save" Obj.MSave j) as (_ & _ & Hgone);
      [simpl; auto | exact Hj |].
    exists (mkSession o cfg pm cs). split.
    + unfold getIronSessionFromCookieStore. rewrite Hcfg. cbn [rbind].
      unfold loadSession. rewrite Hf. cbn [rbind]. now rewrite Ho.
    + intros e. cbv zeta.
      assert (Hcall : fst (call (saveToCookieStore C) destroyInCookieStore "destroy"
                             (mkSession o cfg pm cs) e)
                      = fst (destroyInCookieStore (mkSession o cfg pm cs))).
      { unfold call. cbn [session].
        rewrite (Hm "destroy" Obj.MDestroy) by (simpl; auto).
        now destruct (destroyInCookieStore (mkSession o cfg pm cs)). }
      rewrite Hcall.
      assert (Hs : session (fst (destroyInCookieStore (mkSession o cfg pm cs))) = o').
      { rewrite destroyInCookieStore_session. cbn [session]. now rewrite Hclear. }
      split; [reflexivity|]. split; [now rewrite Hs|].
      unfold call. now rewrite Hs, Hgone.
Qed.

Lemma save_after_destroy_fails_witness :
  checkedConfig sample_sessionOptions = Ok (sample_passwordsMap, sample_config)
  /\ unsealedSession plainCollaborators
       (getServerActionCookie (configCookieName sample_config)
          (storeWith save_collision_json))
       sample_passwordsMap sample_config
     = Ok (VJson save_collision_json)
  /\ exists st,
       getIronSessionFromCookieStore plainCollaborators
         (storeWith save_collision_json) sample_sessionOptions
       = Ok (PlainSession st)
       /\ destroyInCookieStore st = (fst (destroyInCookieStore st), Ok tt)
       /\ call (saveToCookieStore plainCollaborators) destroyInCookieStore "save"
            (fst (destroyInCookieStore st)) sample_entropy
          = (fst (destroyInCookieStore st), Throw (notAFunction "save")).
Proof.
  assert (H1 : checkedConfig sample_sessionOptions
               = Ok (sample_passwordsMap, sample_config)) by reflexivity.
  assert (H2 : unsealedSession plainCollaborators
                 (getServerActionCookie (configCookieName sample_config)
                    (storeWith save_collision_json))
                 sample_passwordsMap sample_config
               = Ok (VJson save_collision_json)) by (vm_compute; reflexivity).
  split; [exact H1|]. split; [exact H2|].
  destruct (proj2 (save_after_destroy_fails plainCollaborators)
              (storeWith save_collision_json) sample_sessionOptions
              sample_passwordsMap sample_config
              [("userId", JNum 42); ("save", JNum 1)] (JNum 1) H1 H2 eq_refl)
    as (st & Hload & Hrun).
  exists st. split; [exact Hload|].
  destruct (Hrun sample_entropy) as (Hst & _ & Hsave).
  rewrite Hst in Hsave. split; [|exact Hsave].
  vm_compute in Hload. injection Hload as <-. vm_compute. reflexivity.
Defined.

(** C10.  A session whose cookie had a member named like one of the three
    operations.  [Object.defineProperties] is given descriptors with a
    [value] only: on an existing property it replaces the value and keeps
    the attributes, so the operation is an enumerable, configurable and
    writable property, [Object.keys] lists it, and [destroy()] deletes it:
    afterwards it cannot be called. *)
Theorem colliding_closure_is_deleted (C : Collaborators) :
  (forall (req : Request) (res : Response) (so : SessionOptions)
          (pm : PasswordsMap) (cfg : SessionConfig)
          (fields : list (string * json)) (k : string) (m : Obj.method) (j : json),
      checkedConfig so = Ok (pm, cfg) ->
      unsealedSession C (getCookie C req (configCookieName cfg)) pm cfg
      = Ok (VJson (JObj fields)) ->
      In (k, m) sessionMethods ->
      assoc k fields = Some j ->
      exists st,
        getIronSessionFromRequest C req res so = Ok (PlainSession st)
        /\ Obj.getOwn (session st) k
           = Some (Obj.mkProperty (Obj.Func m) true true true)
        /\ In k (Obj.keys (session st))
        /\ methodOf (session st) k = Ok m
        /\ methodOf (session (fst (destroy C st))) k = Throw (notAFunction k))
  /\ (forall (cookieStore : CookieStore) (so : SessionOptions)
             (pm : PasswordsMap) (cfg : SessionConfig)
             (fields : list (string * json)) (k : string) (m : Obj.method)
             (j : json),
         checkedConfig so = Ok (pm, cfg) ->
         unsealedSession C (getServerActionCookie (configCookieName cfg) cookieStore)
           pm cfg = Ok (VJson (JObj fields)) ->
         In (k, m) sessionMethods ->
         assoc k fields = Some j ->
         exists st,
           getIronSessionFromCookieStore C cookieStore so = Ok (PlainSession st)
           /\ Obj.getOwn (session st) k
              = Some (Obj.mkProperty (Obj.Func m) true true true)
           /\ In k (Obj.keys (session st))
           /\ methodOf (session st) k = Ok m
           /\ methodOf (session (fst (destroyInCookieStore st))) k
              = Throw (notAFunction k)).
Proof.
  split.
  - intros req res so pm cfg fields k m j Hcfg Hf Hk Hj.
    destruct (loaded_plain fields) as (o & o' & Ho & Hclear & _ & Hm & Hcol).
    destruct (Hcol k m j Hk Hj) as (Hget & Hkeys & Hgone).
    exists (mkSession o cfg pm res). split; [|split; [|split; [|split]]].
    + unfold getIronSessionFromRequest. rewrite Hcfg. cbn [rbind].
      unfold loadSession. rewrite Hf. cbn [rbind]. now rewrite Ho.
    + exact Hget.
    + exact Hkeys.
    + exact (Hm k m Hk).
    + rewrite destroy_session. cbn [session]. now rewrite Hclear.
  - intros cs so pm cfg fields k m j Hcfg Hf Hk Hj.
    destruct (loaded_plain fields) as (o & o' & Ho & Hclear & _ & Hm & Hcol).
    destruct (Hcol k m j Hk Hj) as (Hget & Hkeys & Hgone).
    exists (mkSession o cfg pm cs). split; [|split; [|split; [|split]]].
    + unfold getIronSessionFromCookieStore. rewrite Hcfg. cbn [rbind].
      unfold loadSession. rewrite Hf. cbn [rbind]. now rewrite Ho.
    + exact Hget.
    + exact Hkeys.
    + exact (Hm k m Hk).
    + rewrite destroyInCookieStore_session. cbn [session]. now rewrite Hclear.
Qed.

Lemma colliding_closure_is_deleted_witness :
  checkedConfig sample_sessionOptions = Ok (sample_passwordsMap, sample_config)
  /\ unsealedSession plainCollaborators
       (getCookie plainCollaborators collision_request
          (configCookieName sample_config))
       sample_passwordsMap sample_config
     = Ok (VJson (JObj [("destroy", JNum 1)]))
  /\ exists st,
       getIronSessionFromRequest plainCollaborators collision_request
         (ServerResponse false HeaderUndefined) sample_sessionOptions
       = Ok (PlainSession st)
       /\ Obj.keys (session st) = ["destroy"]
       /\ methodOf (session (fst (destroy plainCollaborators st))) "destroy"
          = Throw (notAFunction "destroy").
Proof.
  assert (H1 : checkedConfig sample_sessionOptions
               = Ok (sample_passwordsMap, sample_config)) by reflexivity.
  assert (H2 : unsealedSession plainCollaborators
                 (getCookie plainCollaborators collision_request
                    (configCookieName sample_config))
                 sample_passwordsMap sample_config
               = Ok (VJson (JObj [("destroy", JNum 1)])))
    by (vm_compute; reflexivity).
  split; [exact H1|]. split; [exact H2|].
  destruct (proj1 (colliding_closure_is_deleted plainCollaborators)
              collision_request (ServerResponse false HeaderUndefined)
              sample_sessionOptions sample_passwordsMap sample_config
              [("destroy", JNum 1)] "destroy" Obj.MDestroy (JNum 1) H1 H2
              (or_intror (or_intror (or_introl eq_refl))) eq_refl)
    as (st & Hload & _ & _ & _ & Hgone).
  exists st. split; [exact Hload|]. split; [|exact Hgone].
  vm_compute in Hload. injection Hload as <-. vm_compute. reflexivity.
Defined.

End LifecycleClaims.

Section SaveClaims.

Import Sealing Lifecycle Reference.
Local Open Scope string_scope.

(** C7, as stated, fails.  A session with one field of 3010 letters on a
    cookie store.  The cookie string of this session,
    [serialize(cookieName, seal, cookieOptions)], has 4091 characters, within
    the limit; [save()] throws all the same, for the length it computes is
    4109, and [set] is not called. *)
Lemma store_rejects_cookie_within_limit :
  (exists seal cookieValue,
      sealData plainCollaborators (session wide_store_state)
        (sealOptionsOf wide_store_state) sample_entropy = Ok (seal, sample_entropy)
      /\ serialize plainCollaborators
           (configCookieName (sessionConfig wide_store_state)) seal
           (configCookieOptions (sessionConfig wide_store_state)) = Ok cookieValue
      /\ String.length cookieValue = 4091%nat)
  /\ saveToCookieStore plainCollaborators wide_store_state sample_entropy
     = (wide_store_state, Throw (Error (tooBigMessage 4109)))
  /\ setCalls (out (fst (saveToCookieStore plainCollaborators wide_store_state
                           sample_entropy))) = [].
Proof.
  split; [|split].
  - exists (stringify (encode (json_stringify (Obj.toJSON (session wide_store_state))))
            ++ String versionDelimiter currentMajorVersion_string).
    eexists. split; [reflexivity|]. split; vm_compute; reflexivity.
  - vm_compute. reflexivity.
  - vm_compute. reflexivity.
Qed.

(** C7, amended.  Let [seal] be what [sealData] returns for the session.
    Request and response: when [serialize(cookieName, seal, cookieOptions)]
    has more than 4096 characters, [save()] throws an [Error] and leaves
    the response as it was; when it has at most 4096 and the headers of the
    response were not sent, [save()] appends exactly that string to the
    [set-cookie] values; when the headers were sent it throws and writes
    nothing.  Cookie store: the length checked is that of the cookie name
    plus that of the seal plus that of [JSON.stringify(cookieOptions)];
    above 4096 [save()] throws and calls [set] not at all, otherwise it
    calls [set] once with the name, the seal and the options. *)
Theorem save_size_guard (C : Collaborators) :
  (forall (st : Session Response) (e e' : entropy) (seal cookieValue : string),
      sealData C (session st) (sealOptionsOf st) e = Ok (seal, e') ->
      serialize C (configCookieName (sessionConfig st)) seal
        (configCookieOptions (sessionConfig st)) = Ok cookieValue ->
      ((4096 < String.length cookieValue)%nat ->
         exists err, save C st e = (st, Throw err) /\ name err = "Error")
      /\ ((String.length cookieValue <= 4096)%nat ->
          responseHeadersSent (out st) = false ->
          exists res,
            setCookie (out st) cookieValue = Ok res
            /\ save C st e = (withOut st res, Ok e')
            /\ emitted res = (emitted (out st) ++ [cookieValue])%list)
      /\ (responseHeadersSent (out st) = true ->
          save C st e = (st, Throw (Error headersSentMessage))))
  /\ (forall (st : Session CookieStore) (e e' : entropy) (seal : string),
         sealData C (session st) (sealOptionsOf st) e = Ok (seal, e') ->
         let cookieLength :=
           (String.length (configCookieName (sessionConfig st))
            + String.length seal
            + String.length
                (JSON_stringify C
                   (attrsToJSON (configCookieOptions (sessionConfig st)))))%nat in
         ((4096 < cookieLength)%nat ->
            saveToCookieStore C st e = (st, Throw (Error (tooBigMessage cookieLength))))
         /\ ((cookieLength <= 4096)%nat ->
             saveToCookieStore C st e
             = (withOut st
                  (storeSet (out st) (configCookieName (sessionConfig st)) seal
                     (configCookieOptions (sessionConfig st))), Ok e'))).
Proof.
  split.
  - intros st e e' seal cookieValue Hseal Hser. unfold save.
    rewrite Hseal, Hser. split; [|split].
    + intros Hbig. apply Nat.ltb_lt in Hbig. rewrite Hbig.
      destruct (responseHeadersSent (out st)); eexists; split; reflexivity.
    + intros Hsmall Hsent. rewrite Hsent.
      apply Nat.ltb_ge in Hsmall. rewrite Hsmall.
      destruct (setCookie_unsent (out st) cookieValue Hsent) as [res Hres].
      exists res. rewrite Hres. split; [reflexivity|]. split; [reflexivity|].
      exact (proj1 (setCookie_Ok _ _ _ Hres)).
    + intros Hsent. now rewrite Hsent.
  - intros st e e' seal Hseal cookieLength. unfold saveToCookieStore.
    rewrite Hseal. fold cookieLength. split.
    + intros Hbig. apply Nat.ltb_lt in Hbig. now rewrite Hbig.
    + intros Hsmall. apply Nat.ltb_ge in Hsmall. now rewrite Hsmall.
Qed.

Lemma save_size_guard_witness :
  sealData plainCollaborators (session sample_state) (sealOptionsOf sample_state)
    sample_entropy = Ok ("eyJ1c2VySWQiOjQyfQ==~2", sample_entropy)
  /\ serialize plainCollaborators (configCookieName (sessionConfig sample_state))
       "eyJ1c2VySWQiOjQyfQ==~2" (configCookieOptions (sessionConfig sample_state))
     = Ok "sid=eyJ1c2VySWQiOjQyfQ%3D%3D~2; Max-Age=1209540; Path=/; HttpOnly; Secure; SameSite=Lax"
  /\ emitted (out (fst (save plainCollaborators sample_state sample_entropy)))
     = ["sid=eyJ1c2VySWQiOjQyfQ%3D%3D~2; Max-Age=1209540; Path=/; HttpOnly; Secure; SameSite=Lax"].
Proof.
  assert (H1 : sealData plainCollaborators (session sample_state)
                 (sealOptionsOf sample_state) sample_entropy
               = Ok ("eyJ1c2VySWQiOjQyfQ==~2", sample_entropy))
    by (vm_compute; reflexivity).
  assert (H2 : serialize plainCollaborators
                 (configCookieName (sessionConfig sample_state))
                 "eyJ1c2VySWQiOjQyfQ==~2"
                 (configCookieOptions (sessionConfig sample_state))
               = Ok "sid=eyJ1c2VySWQiOjQyfQ%3D%3D~2; Max-Age=1209540; Path=/; HttpOnly; Secure; SameSite=Lax")
    by (vm_compute; reflexivity).
  split; [exact H1|]. split; [exact H2|].
  destruct (proj1 (save_size_guard plainCollaborators) sample_state
              sample_entropy sample_entropy _ _ H1 H2) as (_ & Hsmall & _).
  destruct Hsmall as (res & _ & Hsave & Hemit); [vm_compute; lia | reflexivity |].
  rewrite Hsave. simpl fst. exact Hemit.
Defined.

(** C6, as stated, fails.  The same session, with one field of 3004
    letters, and the same configuration on both transports.  On the
    response the serialized cookie has 4083 characters and is written; on
    the cookie store the length computed is 4101 and [save()] throws. *)
Lemma transports_disagree_on_size :
  session big_state = session big_store_state
  /\ sessionConfig big_state = sessionConfig big_store_state
  /\ map String.length
       (emitted (out (fst (save plainCollaborators big_state sample_entropy))))
     = [4083%nat]
  /\ snd (save plainCollaborators big_state sample_entropy) = Ok sample_entropy
  /\ saveToCookieStore plainCollaborators big_store_state sample_entropy
     = (big_store_state, Throw (Error (tooBigMessage 4101))).
Proof.
  split; [reflexivity|]. split; [reflexivity|].
  split; [vm_compute; reflexivity|]. split; vm_compute; reflexivity.
Qed.

(** C6, amended.  For the same session object, configuration and passwords
    both transports pass the same arguments to [sealData], so they throw
    the same error when it throws and obtain the same seal when it returns.
    They do not accept and reject the same saves.  The response variant
    first rejects a save when the headers of the response were sent,
    whatever the session; otherwise it measures
    [serialize(cookieName, seal, cookieOptions)] against 4096 and appends
    that string to the [set-cookie] values.  The cookie-store variant has
    no check of the headers; it measures cookie name plus seal plus
    [JSON.stringify(cookieOptions)] and calls
    [set(cookieName, seal, cookieOptions)].  [destroy()] leaves the same
    session object in both and, when it returns, has written the empty
    value with [maxAge] 0. *)
Theorem transports_compared (C : Collaborators)
  (a : Session Response) (b : Session CookieStore) (e : entropy) :
  session a = session b ->
  sessionConfig a = sessionConfig b ->
  passwordsMap a = passwordsMap b ->
  (responseHeadersSent (out a) = true ->
     save C a e = (a, Throw (Error headersSentMessage)))
  /\ match sealData C (session a) (sealOptionsOf a) e with
     | Throw err =>
         (responseHeadersSent (out a) = false -> save C a e = (a, Throw err))
         /\ saveToCookieStore C b e = (b, Throw err)
     | Ok (seal, e') =>
         (responseHeadersSent (out a) = false ->
            match serialize C (configCookieName (sessionConfig a)) seal
                    (configCookieOptions (sessionConfig a)) with
            | Throw err => save C a e = (a, Throw err)
            | Ok cookieValue =>
                if (4096 <? String.length cookieValue)%nat
                then save C a e
                     = (a, Throw (Error (tooBigMessage (String.length cookieValue))))
                else exists res,
                       setCookie (out a) cookieValue = Ok res
                       /\ emitted res = (emitted (out a) ++ [cookieValue])%list
                       /\ save C a e = (withOut a res, Ok e')
            end)
         /\ let cookieLength :=
              (String.length (configCookieName (sessionConfig a))
               + String.length seal
               + String.length
                   (JSON_stringify C
                      (attrsToJSON (configCookieOptions (sessionConfig a)))))%nat in
            if (4096 <? cookieLength)%nat
            then saveToCookieStore C b e
                 = (b, Throw (Error (tooBigMessage cookieLength)))
            else saveToCookieStore C b e
                 = (withOut b
                      (storeSet (out b) (configCookieName (sessionConfig a)) seal
                         (configCookieOptions (sessionConfig a))), Ok e')
     end
  /\ session (fst (destroy C a)) = session (fst (destroyInCookieStore b))
  /\ (forall b' u, destroyInCookieStore b = (b', Ok u) ->
        setCalls (out b')
        = (setCalls (out b)
           ++ [(configCookieName (sessionConfig a), EmptyString,
                spread (configCookieOptions (sessionConfig a))
                  [("maxAge", ANum (Num 0))])])%list)
  /\ (forall a' u, destroy C a = (a', Ok u) ->
        exists cookieValue,
          serialize C (configCookieName (sessionConfig a)) EmptyString
            (spread (configCookieOptions (sessionConfig a))
               [("maxAge", ANum (Num 0))]) = Ok cookieValue
          /\ emitted (out a') = (emitted (out a) ++ [cookieValue])%list).
Proof.
  intros Hs Hc Hp.
  assert (Hopts : sealOptionsOf b = sealOptionsOf a)
    by (unfold sealOptionsOf; now rewrite Hc, Hp).
  split; [|split; [|split; [|split]]].
  - intros Hsent. unfold save. now rewrite Hsent.
  - unfold save, saveToCookieStore. rewrite <- Hs, <- Hc, Hopts.
    destruct (sealData C (session a) (sealOptionsOf a) e) as [[seal e']|err].
    + split.
      * intros Hsent. rewrite Hsent.
        destruct (serialize C _ seal _) as [cookieValue|err]; [|reflexivity].
        destruct (4096 <? String.length cookieValue)%nat; [reflexivity|].
        destruct (setCookie_unsent (out a) cookieValue Hsent) as [res Hres].
        exists res. rewrite Hres. split; [reflexivity|].
        split; [exact (proj1 (setCookie_Ok _ _ _ Hres)) | reflexivity].
      * cbv zeta. now destruct (4096 <? _)%nat.
    + split; [|reflexivity]. intros Hsent. now rewrite Hsent.
  - rewrite destroy_session, destroyInCookieStore_session. now rewrite Hs.
  - intros b' u H.
    destruct (destroyInCookieStore_Ok _ _ _ H) as (o & _ & ->).
    simpl. now rewrite Hc.
  - intros a' u H.
    destruct (destroy_Ok C _ _ _ H) as (o & cookieValue & res & _ & Hser & Hres & ->).
    exists cookieValue. split; [exact Hser|]. exact (proj1 (setCookie_Ok _ _ _ Hres)).
Qed.

Lemma transports_compared_witness :
  session sent_state = session sample_store_state
  /\ sessionConfig sent_state = sessionConfig sample_store_state
  /\ passwordsMap sent_state = passwordsMap sample_store_state
  /\ save plainCollaborators sent_state sample_entropy
     = (sent_state, Throw (Error headersSentMessage))
  /\ snd (saveToCookieStore plainCollaborators sample_store_state sample_entropy)
     = Ok sample_entropy
  /\ session (fst (destroy plainCollaborators sent_state))
     = session (fst (destroyInCookieStore sample_store_state)).
Proof.
  destruct (transports_compared plainCollaborators sent_state sample_store_state
              sample_entropy eq_refl eq_refl eq_refl) as (Hsent & _ & Hd & _).
  do 3 (split; [reflexivity|]).
  split; [exact (Hsent eq_refl)|].
  split; [vm_compute; reflexivity | exact Hd].
Defined.

End SaveClaims.

(* ================================================================== *)
(** * Further properties: tokens *)
(* ================================================================== *)

Section TokenProperties.

Import Sealing Reference.
Local Open Scope string_scope.

Lemma split_append (c : ascii) (p r : string) :
  freeOf c p = true ->
  split c (p ++ String c r) = (p, fst (split c r) :: snd (split c r)).
Proof.
  induction p as [|d p IH]; simpl; intros Hfree.
  - destruct (split c r) as [first rest]. now rewrite Ascii.eqb_refl.
  - apply andb_true_iff in Hfree as [Hd Hp].
    rewrite (IH Hp). apply negb_true_iff in Hd. now rewrite Hd.
Qed.

(** The part before the first separator holds no separator, and the string
    is that part, alone or followed by a separator and the rest. *)
Lemma split_first_spec (c : ascii) (s : string) :
  freeOf c (fst (split c s)) = true
  /\ (snd (split c s) = [] /\ s = fst (split c s)
      \/ exists r, s = fst (split c s) ++ String c r
                   /\ snd (split c s) = fst (split c r) :: snd (split c r)).
Proof.
  induction s as [|d s [IHfree IH]]; simpl.
  - split; [reflexivity | now left].
  - destruct (split c s) as [first rest] eqn:Hs. simpl in *.
    destruct (Ascii.eqb_spec d c) as [->|Hne]; simpl.
    + split; [reflexivity|]. right. exists s. now rewrite Hs.
    + split.
      * rewrite IHfree. apply Ascii.eqb_neq in Hne. now rewrite Hne.
      * destruct IH as [[-> ->]|[r [-> ->]]]; [now left|].
        right. now exists r.
Qed.

(** X1.  [parseSeal] never throws.  The payload it returns is the text
    before the first [~] and holds no [~]; the version is [null] exactly
    when the token has no [~], and otherwise [Number.parseInt] of the text
    between the first [~] and the next. *)
Theorem parseSeal_characterised (seal : string) :
  exists payload version,
    parseSeal seal = Ok (mkParsedSeal payload version)
    /\ freeOf versionDelimiter payload = true
    /\ (seal = payload /\ version = None
        \/ exists r,
             seal = payload ++ String versionDelimiter r
             /\ version = Some (parseInt10 (fst (split versionDelimiter r)))).
Proof.
  destruct (split_first_spec versionDelimiter seal) as [Hfree Hcases].
  unfold parseSeal, split_array.
  destruct (split versionDelimiter seal) as [first rest] eqn:Hs. simpl in *.
  destruct Hcases as [[-> ->]|[r [-> ->]]].
  - exists first, None. repeat split; auto.
  - exists first, (Some (parseInt10 (fst (split versionDelimiter r)))).
    repeat split; auto. right. now exists r.
Qed.

Lemma read_digits_stop (acc : option Z) (s : string) :
  match s with
  | EmptyString => True
  | String c _ => digit_value c = None
  end ->
  read_digits acc s = acc.
Proof. destruct s as [|c s]; simpl; [reflexivity|]. now intros ->. Qed.

(** X2.  The version is read the way [Number.parseInt] reads: what follows
    the digits is dropped.  A payload followed by [~2] and by any text that
    does not start with a digit has version 2, also when that text holds
    further delimiters. *)
Theorem parseSeal_lenient_version (payload junk : string) :
  freeOf versionDelimiter payload = true ->
  match junk with
  | EmptyString => True
  | String c _ => digit_value c = None
  end ->
  parseSeal (payload ++ String versionDelimiter (String "2" junk))
  = Ok (mkParsedSeal payload (Some (Num 2))).
Proof.
  intros Hfree Hjunk. unfold parseSeal, split_array.
  rewrite (split_append _ _ _ Hfree). cbn [nth_error].
  do 2 f_equal. f_equal.
  destruct (split_first_spec versionDelimiter (String "2" junk)) as [_ Hc].
  assert (Hfirst : exists t, fst (split versionDelimiter (String "2" junk))
                             = String "2" t
                             /\ match t with
                                | EmptyString => True
                                | String c _ => digit_value c = None
                                end).
  { simpl. destruct (split versionDelimiter junk) as [first rest] eqn:Hs.
    cbn. exists first. split; [reflexivity|].
    destruct junk as [|c junk]; simpl in Hs.
    - now injection Hs as <- _.
    - destruct (split versionDelimiter junk) as [f2 r2].
      destruct (Ascii.eqb c versionDelimiter); injection Hs as <- _;
        [exact I | exact Hjunk]. }
  destruct Hfirst as [t [-> Ht]].
  unfold parseInt10.
  change (skip_white_space (String "2" t)) with (String "2" t).
  cbv beta iota zeta.
  change (read_digits None (String "2" t)) with (read_digits (Some 2%Z) t).
  now rewrite (read_digits_stop _ _ Ht).
Qed.

Lemma parseSeal_lenient_version_witness :
  freeOf versionDelimiter "abc" = true
  /\ digit_value "."%char = None
  /\ parseSeal "abc~2.5~x" = Ok (mkParsedSeal "abc" (Some (Num 2))).
Proof.
  split; [reflexivity|]. split; [reflexivity|].
  exact (parseSeal_lenient_version "abc" ".5~x" eq_refl eq_refl).
Defined.

End TokenProperties.

Section SealProperties.

Import Sealing Reference.
Local Open Scope string_scope.

Variable B : Backend.

(** What [sealData] has done when it returns: the token is the encoded
    object of four components followed by the delimiter and the version,
    and the signature component is what [ml_dsa87.sign] returned. *)
Lemma sealData_Ok (data : value) (options : SealOptions) (e e' : entropy)
  (token : string) :
  sealData B data options e = Ok (token, e') ->
  exists (encryptedData publicKey signature signPublicKey signSecretKey : bytes)
         (e1 : entropy),
    ml_dsa87_sign B encryptedData signSecretKey e1 = Ok (signature, e')
    /\ token
       = base64url_stringify B
           (TextEncoder_encode B
              (JSON_stringify B
                 (PQSealResult (base64url_stringify B encryptedData)
                    (base64url_stringify B publicKey)
                    (base64url_stringify B signature)
                    (base64url_stringify B signPublicKey))))
         ++ String versionDelimiter currentMajorVersion_string.
Proof.
  unfold sealData, bind, lift, ret, randomBytes. intros H.
  destruct (ml_kem1024_keygen B _) as [[publicKey secretKey]|?]; [|discriminate H].
  destruct (ml_kem1024_encapsulate B publicKey _)
    as [[[cipherText sharedSecret] e2]|?]; [|discriminate H].
  destruct (subtle_importKey B sharedSecret UsageEncrypt) as [key|?];
    [|discriminate H].
  destruct (subtle_encrypt B _ key _) as [encryptedData|?]; [|discriminate H].
  destruct (ml_dsa87_keygen B _) as [[signPublicKey signSecretKey]|?];
    [|discriminate H].
  destruct (ml_dsa87_sign B encryptedData signSecretKey _)
    as [[signature e3]|?] eqn:Hsign; [|discriminate H].
  injection H as <- <-.
  now exists encryptedData, publicKey, signature, signPublicKey, signSecretKey,
    (fun i => e2 (12 + (64 + i))%nat).
Qed.

(** X4.  [unsealData] never throws an error of the seal-validity class:
    when it throws, the error is the one its [try] block threw, it is
    rethrown unchanged, and it is not an [Error] whose message starts with
    one of the five listed prefixes. *)
Theorem unsealData_throws_only_unlisted (seal : string) (options : SealOptions)
  (e : thrown) :
  unsealData B seal options = Throw e ->
  isSealError e = false
  /\ unsealBody B (fst (split versionDelimiter seal)) = Throw e.
Proof.
  rewrite unsealData_unfold.
  destruct (unsealBody B _) as [v|e0]; simpl; [discriminate|].
  destruct (isSealError e0) eqn:He; [discriminate|].
  intros [= <-]. now split.
Qed.

(** X5.  A token whose four components decode and whose signature check
    answers [false] unseals to the empty object [{}]; nothing is
    decapsulated or decrypted, and nothing is thrown. *)
Theorem invalid_signature_unseals_empty (seal : string) (options : SealOptions)
  (c k s p : bytes) :
  sealComponents B (fst (split versionDelimiter seal)) = Ok (c, k, s, p) ->
  ml_dsa87_verify B c s p = Ok false ->
  unsealData B seal options = Ok empty_object.
Proof.
  intros Hc Hv.
  rewrite unsealData_unfold, (unsealBody_components _ _ _ _ _ _ Hc).
  unfold openSeal. now rewrite Hv.
Qed.

End SealProperties.

Section SealWitnesses.

Import Sealing Reference.
Local Open Scope string_scope.

Lemma unsealData_throws_only_unlisted_witness :
  Sealing.unsealData backend "!!!" sample_options
  = Throw (SyntaxError "Invalid character !")
  /\ isSealError (SyntaxError "Invalid character !") = false.
Proof.
  assert (H : Sealing.unsealData backend "!!!" sample_options
              = Throw (SyntaxError "Invalid character !"))
    by (vm_compute; reflexivity).
  split; [exact H|].
  exact (proj1 (unsealData_throws_only_unlisted backend _ _ _ H)).
Defined.

Lemma invalid_signature_unseals_empty_witness :
  sealComponents backend (fst (split versionDelimiter unsigned_token))
  = Ok (repeat x00 dsa_publicKey_len, [x00], [x00], [x00])
  /\ ml_dsa87_verify backend (repeat x00 dsa_publicKey_len) [x00] [x00] = Ok false
  /\ Sealing.unsealData backend unsigned_token sample_options = Ok empty_object.
Proof.
  assert (H1 : sealComponents backend (fst (split versionDelimiter unsigned_token))
               = Ok (repeat x00 dsa_publicKey_len, [x00], [x00], [x00]))
    by (vm_compute; reflexivity).
  assert (H2 : ml_dsa87_verify backend (repeat x00 dsa_publicKey_len) [x00] [x00]
               = Ok false)
    by (vm_compute; reflexivity).
  split; [exact H1|]. split; [exact H2|].
  exact (invalid_signature_unseals_empty backend unsigned_token sample_options
           (repeat x00 dsa_publicKey_len) [x00] [x00] [x00] H1 H2).
Defined.

End SealWitnesses.

(* ================================================================== *)
(** * Further properties: the size of a seal *)
(* ================================================================== *)

Section CookieLimit.

Import Sealing Lifecycle Reference.
Local Open Scope string_scope.

Lemma length_append (a b : string) :
  String.length (a ++ b) = (String.length a + String.length b)%nat.
Proof. induction a as [|c a IH]; simpl; [reflexivity | now rewrite IH]. Qed.

Variable B : Backend.
Variable C : Collaborators.

(** The session is sealed by the function [createSealData] makes. *)
Hypothesis published : forall o options, sealData C o options = sealSession B o options.

(** A signature has more than 4096 bytes (an ML-DSA-87 signature has 4627). *)
Hypothesis long_signature :
  forall msg sk e sig e',
    ml_dsa87_sign B msg sk e = Ok (sig, e') -> (4096 < List.length sig)%nat.

(** Encoding does not shorten: base64url, UTF-8, JSON and the cookie
    string each hold at least as many characters as what they encode. *)
Hypothesis base64url_length :
  forall bs, (List.length bs <= String.length (base64url_stringify B bs))%nat.
Hypothesis encode_length :
  forall s, (String.length s <= List.length (TextEncoder_encode B s))%nat.
Hypothesis json_length :
  forall a b c d,
    (String.length c
     <= String.length (Sealing.JSON_stringify B (PQSealResult a b c d)))%nat.
Hypothesis serialize_length :
  forall n v o cv,
    serialize C n v o = Ok cv -> (String.length v <= String.length cv)%nat.

Lemma sealed_token_long (data : value) (options : SealOptions) (e e' : entropy)
  (token : string) :
  Sealing.sealData B data options e = Ok (token, e') ->
  (4096 < String.length token)%nat.
Proof.
  intros H.
  destruct (sealData_Ok _ _ _ _ _ _ H) as (c & k & s & p & sk & e1 & Hsign & ->).
  rewrite length_append.
  pose proof (long_signature _ _ _ _ _ Hsign) as H1.
  pose proof (base64url_length s) as H2.
  pose proof (json_length (base64url_stringify B c) (base64url_stringify B k)
                (base64url_stringify B s) (base64url_stringify B p)) as H3.
  pose proof (encode_length
                (Sealing.JSON_stringify B
                   (PQSealResult (base64url_stringify B c) (base64url_stringify B k)
                      (base64url_stringify B s) (base64url_stringify B p)))) as H4.
  pose proof (base64url_length
                (TextEncoder_encode B
                   (Sealing.JSON_stringify B
                      (PQSealResult (base64url_stringify B c)
                         (base64url_stringify B k) (base64url_stringify B s)
                         (base64url_stringify B p))))) as H5.
  lia.
Qed.

(** X7.  With a signature of more than 4096 bytes in every token, no
    [save()] succeeds: in both variants it throws, whatever the session and
    the configuration, and writes no cookie. *)
Theorem save_never_succeeds :
  (forall (st : Session Response) (e : entropy),
      exists err, save C st e = (st, Throw err))
  /\ (forall (st : Session CookieStore) (e : entropy),
         exists err, saveToCookieStore C st e = (st, Throw err)).
Proof.
  split; intros st e.
  - unfold save. destruct (responseHeadersSent (out st)); [eexists; reflexivity|].
    rewrite published. unfold sealSession.
    destruct (Sealing.sealData B _ _ e) as [[seal e']|err] eqn:Hseal;
      [|eexists; reflexivity].
    apply sealed_token_long in Hseal.
    destruct (serialize C _ seal _) as [cookieValue|err] eqn:Hser;
      [|eexists; reflexivity].
    apply serialize_length in Hser.
    assert (Hbig : (4096 <? String.length cookieValue)%nat = true)
      by (apply Nat.ltb_lt; lia).
    rewrite Hbig. eexists; reflexivity.
  - unfold saveToCookieStore. rewrite published. unfold sealSession.
    destruct (Sealing.sealData B _ _ e) as [[seal e']|err] eqn:Hseal;
      [|eexists; reflexivity].
    apply sealed_token_long in Hseal.
    match goal with |- context [(4096 <? ?n)%nat] =>
      assert (Hbig : (4096 <? n)%nat = true) by (apply Nat.ltb_lt; lia);
      rewrite Hbig
    end.
    eexists; reflexivity.
Qed.

End CookieLimit.

Section ReferenceLengths.

Import Sealing Lifecycle Reference.
Local Open Scope string_scope.

Lemma length_stretch_from (n : nat) (orig cur : bytes) :
  List.length (stretch_from n orig cur) = n.
Proof.
  revert cur. induction n as [|n IH]; intros cur; simpl; [reflexivity|].
  destruct cur as [|b cur]; [destruct orig as [|b orig]|]; simpl; now rewrite IH.
Qed.

Lemma reference_long_signature (sk msg : bytes) (e : entropy) (sig : bytes)
  (e' : entropy) :
  dsa_sign sk msg e = Ok (sig, e') -> (4096 < List.length sig)%nat.
Proof.
  unfold dsa_sign, throw, ret. destruct (negb _); [discriminate|].
  intros [= <- _]. unfold dsa_tag, stretch. rewrite length_stretch_from.
  apply Nat.ltb_lt. vm_compute. reflexivity.
Qed.

Lemma reference_base64url_length (bs : bytes) :
  (List.length bs <= String.length (stringify bs))%nat.
Proof.
  remember (List.length bs) as n eqn:Hn. revert bs Hn.
  induction n as [n IH] using lt_wf_ind. intros bs Hn.
  destruct bs as [|a [|b [|c rest]]]; subst n; simpl; try lia.
  specialize (IH (List.length rest)).
  assert (H := IH ltac:(simpl; lia) rest eq_refl). lia.
Qed.

Lemma reference_encode_length (s : string) :
  (String.length s <= List.length (encode s))%nat.
Proof.
  unfold encode. induction s as [|c s IH]; simpl; [lia|].
  unfold list_byte_of_string in *. simpl. lia.
Qed.

Lemma quote_char_length (c : ascii) : (1 <= String.length (quote_char c))%nat.
Proof.
  unfold quote_char.
  repeat match goal with
  | |- context [if ?b then _ else _] => destruct b
  end; simpl; lia.
Qed.

Lemma quote_length (s : string) :
  (String.length s <= String.length (quote s))%nat.
Proof.
  unfold quote. simpl. rewrite length_append. simpl.
  assert (H : (String.length s <= String.length (quote_chars s))%nat).
  { induction s as [|c s IH]; simpl; [lia|].
    rewrite length_append. pose proof (quote_char_length c). lia. }
  lia.
Qed.

Lemma reference_json_length (a b c d : string) :
  (String.length c <= String.length (json_stringify (PQSealResult a b c d)))%nat.
Proof.
  unfold PQSealResult. cbn [json_stringify map fst snd join_comma String.concat].
  rewrite !length_append. pose proof (quote_length c). lia.
Qed.

Lemma encodeURIComponent_length (s : string) :
  (String.length s <= String.length (encodeURIComponent s))%nat.
Proof.
  induction s as [|c s IH]; simpl; [lia|].
  destruct (uriUnescaped c); simpl; lia.
Qed.

Lemma reference_serialize_length (n v : string) (o : CookieOptions) (cv : string) :
  cookie_serialize n v o = Ok cv -> (String.length v <= String.length cv)%nat.
Proof.
  unfold cookie_serialize, rbind. intros H.
  pose proof (encodeURIComponent_length v) as Hv.
  cbv zeta in H.
  repeat match type of H with
  | context [match ?x with _ => _ end] =>
      lazymatch x with
      | context [match _ with _ => _ end] => fail
      | _ => destruct x
      end
  end; try discriminate H;
  injection H as <-; rewrite ?length_append; cbn [String.length]; lia.
Qed.

Lemma reference_published (o : Obj.object) (options : SealOptions) :
  sealData collaborators o options = sealSession backend o options.
Proof. unfold collaborators. reflexivity. Qed.

(** On the reference collaborators the hypotheses of X7 hold: the first
    [save()] of a session throws. *)
Lemma save_never_succeeds_witness :
  exists err,
    save collaborators sample_state sample_entropy = (sample_state, Throw err).
Proof.
  exact (proj1 (save_never_succeeds backend collaborators
                  reference_published
                  reference_long_signature reference_base64url_length
                  reference_encode_length reference_json_length
                  reference_serialize_length) sample_state sample_entropy).
Defined.

End ReferenceLengths.

(* ================================================================== *)
(** * Further properties: configuration and loading *)
(* ================================================================== *)

Section LoadingProperties.

Import Sealing Lifecycle Reference.
Local Open Scope string_scope.

Lemma checkedConfig_Ok (so : SessionOptions) (pm : PasswordsMap)
  (cfg : SessionConfig) :
  checkedConfig so = Ok (pm, cfg) ->
  cookieName so <> EmptyString
  /\ password so <> PasswordString EmptyString
  /\ Forall (fun kv => (32 <= String.length (snd kv))%nat) pm
  /\ pm = normalizeStringPasswordToMap (password so)
  /\ cfg = getSessionConfig so.
Proof.
  unfold checkedConfig.
  destruct (cookieName so) as [|c n] eqn:Hn; [discriminate|].
  destruct (passwordIsFalsy (password so)) eqn:Hp; [discriminate|].
  destruct (existsb _ _) eqn:Hex; [discriminate|].
  intros [= <- <-]. repeat split; try discriminate.
  - intros E. rewrite E in Hp. discriminate Hp.
  - apply Forall_forall. intros kv Hin.
    destruct (Nat.ltb_spec (String.length (snd kv)) 32) as [Hlt|Hge]; [|exact Hge].
    exfalso. assert (Ht : existsb (fun kv => (String.length (snd kv) <? 32)%nat)
                            (normalizeStringPasswordToMap (password so)) = true).
    { apply existsb_exists. exists kv. split; [exact Hin|]. now apply Nat.ltb_lt. }
    rewrite Ht in Hex. discriminate Hex.
Qed.

Lemma loadSession_Ok {T} (C : Collaborators) (seal : string) (pm : PasswordsMap)
  (cfg : SessionConfig) (t : T) (st : Session T) :
  loadSession C seal pm cfg t = Ok (PlainSession st) ->
  sessionConfig st = cfg /\ passwordsMap st = pm /\ out st = t.
Proof.
  unfold loadSession, rbind.
  destruct (unsealedSession C seal pm cfg) as [[[| | | | |fields]|]|];
    try discriminate.
  destruct (Obj.defineProperties _ _); [|discriminate].
  now intros [= <-].
Qed.

(** X8.  The usage errors of both variants, in the order the source
    checks them: an empty cookie name, then an empty password, then a
    password (the string, or any value of the map) of fewer than 32
    characters.  Each is thrown before the cookie is read. *)
Theorem usage_errors (C : Collaborators) (so : SessionOptions) :
  (cookieName so = EmptyString ->
     forall req res cs,
       getIronSessionFromRequest C req res so
       = Throw (Error "iron-session: Bad usage. Missing cookie name.")
       /\ getIronSessionFromCookieStore C cs so
          = Throw (Error "iron-session: Bad usage. Missing cookie name."))
  /\ (cookieName so <> EmptyString ->
      password so = PasswordString EmptyString ->
      forall req res cs,
        getIronSessionFromRequest C req res so
        = Throw (Error "iron-session: Bad usage. Missing password.")
        /\ getIronSessionFromCookieStore C cs so
           = Throw (Error "iron-session: Bad usage. Missing password."))
  /\ (cookieName so <> EmptyString ->
      password so <> PasswordString EmptyString ->
      (exists k secret,
          In (k, secret) (normalizeStringPasswordToMap (password so))
          /\ (String.length secret < 32)%nat) ->
      forall req res cs,
        getIronSessionFromRequest C req res so
        = Throw (Error "iron-session: Bad usage. Password must be at least 32 characters long.")
        /\ getIronSessionFromCookieStore C cs so
           = Throw (Error "iron-session: Bad usage. Password must be at least 32 characters long.")).
Proof.
  unfold getIronSessionFromRequest, getIronSessionFromCookieStore, checkedConfig.
  split; [|split].
  - intros -> req res cs. split; reflexivity.
  - intros Hn -> req res cs.
    destruct (cookieName so); [congruence|]. split; reflexivity.
  - intros Hn Hp [k [secret [Hin Hlen]]] req res cs.
    destruct (cookieName so); [congruence|].
    assert (Hf : passwordIsFalsy (password so) = false).
    { destruct (password so) as [[|c0 s0]|m]; try reflexivity. congruence. }
    rewrite Hf.
    assert (Ht : existsb (fun kv => (String.length (snd kv) <? 32)%nat)
                   (normalizeStringPasswordToMap (password so)) = true).
    { apply existsb_exists. exists (k, secret). split; [exact Hin|].
      now apply Nat.ltb_lt. }
    rewrite Ht. split; reflexivity.
Qed.

Lemma usage_errors_witness :
  cookieName short_password_options <> EmptyString
  /\ password short_password_options <> PasswordString EmptyString
  /\ (exists k secret,
         In (k, secret) (normalizeStringPasswordToMap (password short_password_options))
         /\ (String.length secret < 32)%nat)
  /\ getIronSessionFromRequest plainCollaborators empty_request
       (ServerResponse false HeaderUndefined) short_password_options
     = Throw (Error "iron-session: Bad usage. Password must be at least 32 characters long.").
Proof.
  assert (H1 : cookieName short_password_options <> EmptyString) by discriminate.
  assert (H2 : password short_password_options <> PasswordString EmptyString)
    by discriminate.
  assert (H3 : exists k secret,
             In (k, secret)
               (normalizeStringPasswordToMap (password short_password_options))
             /\ (String.length secret < 32)%nat).
  { exists "1", "short". split; [left; reflexivity | simpl; lia]. }
  split; [exact H1|]. split; [exact H2|]. split; [exact H3|].
  exact (proj1 (proj2 (proj2 (usage_errors plainCollaborators short_password_options))
                  H1 H2 H3 empty_request (ServerResponse false HeaderUndefined)
                  (mkCookieStore [] []))).
Defined.

(** X9.  When [getIronSession] returns, the options had a cookie name
    that is not empty and secrets of at least 32 characters each; the
    session closes over the normalized password map (a string password
    under the key 1), the resolved configuration and the transport it was
    given. *)
Theorem loaded_session_checked (C : Collaborators) (so : SessionOptions) :
  (forall req res loaded,
      getIronSessionFromRequest C req res so = Ok loaded ->
      cookieName so <> EmptyString
      /\ Forall (fun kv => (32 <= String.length (snd kv))%nat)
           (normalizeStringPasswordToMap (password so))
      /\ forall st, loaded = PlainSession st ->
           passwordsMap st = normalizeStringPasswordToMap (password so)
           /\ sessionConfig st = getSessionConfig so
           /\ out st = res)
  /\ (forall cs loaded,
         getIronSessionFromCookieStore C cs so = Ok loaded ->
         cookieName so <> EmptyString
         /\ Forall (fun kv => (32 <= String.length (snd kv))%nat)
              (normalizeStringPasswordToMap (password so))
         /\ forall st, loaded = PlainSession st ->
              passwordsMap st = normalizeStringPasswordToMap (password so)
              /\ sessionConfig st = getSessionConfig so
              /\ out st = cs).
Proof.
  split.
  - intros req res loaded. unfold getIronSessionFromRequest.
    destruct (checkedConfig so) as [[pm cfg]|e] eqn:Hc; [|discriminate].
    cbn [rbind]. intros Hload.
    destruct (checkedConfig_Ok _ _ _ Hc) as (Hn & _ & Hall & Hpm & Hcfg).
    subst pm cfg. split; [exact Hn|]. split; [exact Hall|].
    intros st ->. destruct (loadSession_Ok _ _ _ _ _ _ Hload) as (-> & -> & ->).
    repeat split.
  - intros cs loaded. unfold getIronSessionFromCookieStore.
    destruct (checkedConfig so) as [[pm cfg]|e] eqn:Hc; [|discriminate].
    cbn [rbind]. intros Hload.
    destruct (checkedConfig_Ok _ _ _ Hc) as (Hn & _ & Hall & Hpm & Hcfg).
    subst pm cfg. split; [exact Hn|]. split; [exact Hall|].
    intros st ->. destruct (loadSession_Ok _ _ _ _ _ _ Hload) as (-> & -> & ->).
    repeat split.
Qed.

Lemma loaded_session_checked_witness :
  getIronSessionFromRequest plainCollaborators empty_request
    (ServerResponse false HeaderUndefined) sample_sessionOptions
  = Ok (PlainSession
          (mkSession (sessionWith []) sample_config sample_passwordsMap
             (ServerResponse false HeaderUndefined)))
  /\ passwordsMap
       (mkSession (sessionWith []) sample_config sample_passwordsMap
          (ServerResponse false HeaderUndefined))
     = normalizeStringPasswordToMap (password sample_sessionOptions).
Proof.
  assert (H : getIronSessionFromRequest plainCollaborators empty_request
                (ServerResponse false HeaderUndefined) sample_sessionOptions
              = Ok (PlainSession
                      (mkSession (sessionWith []) sample_config sample_passwordsMap
                         (ServerResponse false HeaderUndefined)))) by reflexivity.
  split; [exact H|].
  exact (proj1 (proj2 (proj2 (proj1 (loaded_session_checked plainCollaborators
                                        sample_sessionOptions) _ _ _ H))
                  _ eq_refl)).
Defined.

End LoadingProperties.

Section ConfigProperties.

Import Sealing Lifecycle Reference.
Local Open Scope string_scope.

(** X10.  How the caller's cookie options combine with the defaults, for
    options whose property names are distinct.  A property of the caller
    other than [maxAge] is taken as it is; one the caller leaves out has
    its default ([httpOnly], [secure], [sameSite: lax], [path: /]) or is
    absent; a [maxAge] the caller gives is kept, and when it is not
    [undefined] the ttl is the one resolved from the options: the cookie's
    lifetime and the ttl handed to the sealing functions then go their own
    ways. *)
Theorem cookie_options_merge (so : SessionOptions) (o : CookieOptions) :
  cookieOptions so = Present o ->
  NoDup (map fst o) ->
  (forall k v, k <> "maxAge" -> assoc k o = Some v ->
     assoc k (configCookieOptions (getSessionConfig so)) = Some v)
  /\ (forall k, k <> "maxAge" -> assoc k o = None ->
        assoc k (configCookieOptions (getSessionConfig so))
        = assoc k defaultCookieOptions)
  /\ (forall v, assoc "maxAge" o = Some v ->
        configMaxAge (getSessionConfig so) = Some v
        /\ (v <> AUndefined ->
            configTtl (getSessionConfig so)
            = match ttl so with
              | Absent => Some defaultTtl
              | Undefined => None
              | Present n => Some n
              end)).
Proof.
  intros Ho Hnd.
  assert (Hother : forall k, k <> "maxAge" ->
            assoc k (configCookieOptions (getSessionConfig so))
            = assoc k (spread defaultCookieOptions o)).
  { intros k Hk. unfold getSessionConfig. rewrite Ho.
    destruct (hasProperty "maxAge" o); [now destruct (assoc "maxAge" o) as [[]|]|].
    cbn [configCookieOptions]. apply assoc_setProperty_other.
    intros E. apply Hk. symmetry. exact E. }
  split; [|split].
  - intros k v Hk Hv. rewrite (Hother k Hk). now apply assoc_spread_present.
  - intros k Hk Hv. rewrite (Hother k Hk). now apply assoc_spread_absent.
  - intros v Hv. unfold configMaxAge, getSessionConfig, hasProperty.
    rewrite Ho, Hv. split.
    + destruct v; cbn [configCookieOptions]; now apply assoc_spread_present.
    + intros Hdef. now destruct v.
Qed.

Lemma cookie_options_merge_witness :
  cookieOptions custom_options = Present custom_cookie_options
  /\ NoDup (map fst custom_cookie_options)
  /\ configCookieOptions (getSessionConfig custom_options)
     = [ ("httpOnly", ABool true); ("secure", ABool true);
         ("sameSite", AStr "strict"); ("path", AStr "/app");
         ("maxAge", ANum (Num 100)) ]
  /\ configMaxAge (getSessionConfig custom_options) = Some (ANum (Num 100))
  /\ configTtl (getSessionConfig custom_options) = Some defaultTtl.
Proof.
  assert (H1 : cookieOptions custom_options = Present custom_cookie_options)
    by reflexivity.
  assert (H2 : NoDup (map fst custom_cookie_options)).
  { simpl. repeat constructor; simpl; intuition discriminate. }
  destruct (cookie_options_merge custom_options custom_cookie_options H1 H2)
    as (_ & _ & Hmax).
  destruct (Hmax (ANum (Num 100)) eq_refl) as [Hm Ht].
  split; [exact H1|]. split; [exact H2|]. split; [reflexivity|].
  split; [exact Hm|]. apply Ht. discriminate.
Defined.

(** X11.  A ttl other than 0 gives the cookie the [maxAge] ttl - 60, so
    the cookie expires a minute before the ttl; for a ttl of at most 60
    seconds that [maxAge] is zero or negative.  This is for a ttl that is a
    safe integer, and whose difference with 60 is one: the subtraction of
    doubles is then exact.  A ttl given as [undefined] leaves the ttl
    undefined and makes the [maxAge] [NaN]. *)
Theorem maxAge_from_ttl (so : SessionOptions) :
  maxAgeRequested so = false ->
  (forall z, ttl so = Present (Num z) -> z <> 0 ->
     safeInteger z -> safeInteger (z - 60) ->
     configTtl (getSessionConfig so) = Some (Num z)
     /\ configMaxAge (getSessionConfig so) = Some (ANum (Num (z - 60)))
     /\ (z <= 60 -> z - 60 <= 0))
  /\ (ttl so = Undefined ->
      configTtl (getSessionConfig so) = None
      /\ configMaxAge (getSessionConfig so) = Some (ANum NaN)).
Proof.
  intros Hreq. destruct (getSessionConfig_maxAge so Hreq) as [Hmax Httl].
  split.
  - intros z Hz Hnz _ _. rewrite Hz in Httl. rewrite Hmax, Httl. cbn [toNumber].
    repeat split; [|lia].
    unfold computeCookieMaxAge, timestampSkewSec. destruct z; [congruence| |];
      reflexivity.
  - intros Hu. rewrite Hu in Httl. rewrite Hmax, Httl. now split.
Qed.

Lemma maxAge_from_ttl_witness :
  maxAgeRequested short_ttl_options = false
  /\ ttl short_ttl_options = Present (Num 30)
  /\ configMaxAge (getSessionConfig short_ttl_options) = Some (ANum (Num (-30))).
Proof.
  split; [reflexivity|]. split; [reflexivity|].
  destruct (proj1 (maxAge_from_ttl short_ttl_options eq_refl) 30 eq_refl)
    as (_ & H & _);
    [discriminate | unfold safeInteger; lia | unfold safeInteger; lia |].
  exact H.
Defined.



End ConfigProperties.

(* ================================================================== *)
(** * Further properties: the closures at work *)
(* ================================================================== *)


Section ClosureProperties.

Import Sealing Lifecycle Reference.
Local Open Scope string_scope.

(** X13.  [destroy()] of the cookie-store variant always returns, on a
    session that is a plain object, as [getIronSession] returned it and at
    any later point (after calls of [save], [destroy] and [updateConfig],
    assignments and deletions of fields): its loop deletes only what
    [Object.keys] lists, and [delete] never refuses such a key, also when
    the unsealed cookie had a member named like one of the closures.
    Afterwards [Object.keys] of the session is empty. *)
Theorem store_destroy_always_returns (C : Collaborators) (cs : CookieStore)
  (so : SessionOptions) (st st' : Session CookieStore) :
  getIronSessionFromCookieStore C cs so = Ok (PlainSession st) ->
  reachable (saveToCookieStore C) destroyInCookieStore st st' ->
  exists st'',
    destroyInCookieStore st' = (st'', Ok tt) /\ Obj.keys (session st'') = [].
Proof.
  intros Hload Hreach. unfold getIronSessionFromCookieStore in Hload.
  destruct (checkedConfig so) as [[pm cfg]|]; [|discriminate]. cbn [rbind] in Hload.
  pose proof (reachable_deletable _ _ _ _ (saveToCookieStore_session C)
                destroyInCookieStore_session
                (loadSession_deletable _ _ _ _ _ _ Hload) Hreach) as Hd.
  destruct (clearSession_completes _ Hd) as [o Ho].
  unfold destroyInCookieStore. rewrite Ho. eexists. split; [reflexivity|].
  exact (proj1 (clearSession_Ok _ _ _ Ho)).
Qed.

Lemma store_destroy_always_returns_witness :
  exists st st',
    getIronSessionFromCookieStore plainCollaborators (mkCookieStore [] [])
      sample_sessionOptions = Ok (PlainSession st)
    /\ Obj.keys (session st') = ["userId"]
    /\ exists st'',
         destroyInCookieStore st' = (st'', Ok tt) /\ Obj.keys (session st'') = [].
Proof.
  pose (st := mkSession (sessionWith []) sample_config sample_passwordsMap
                (mkCookieStore [] [])).
  pose (o := (sessionWith [] ++ [("userId", Obj.plain (JNum 42))])%list).
  assert (H1 : getIronSessionFromCookieStore plainCollaborators (mkCookieStore [] [])
                 sample_sessionOptions = Ok (PlainSession st)) by reflexivity.
  assert (H2 : Obj.assign (session st) "userId" (JNum 42) = Ok o) by reflexivity.
  exists st, (withSession st o).
  split; [exact H1|]. split; [reflexivity|].
  apply (store_destroy_always_returns plainCollaborators (mkCookieStore [] [])
           sample_sessionOptions st (withSession st o) H1).
  apply (reach_next _ _ st st (withSession st o)); [apply reach_here|].
  exact (step_assign _ _ st "userId" (JNum 42) o H2).
Defined.

(** X14.  [destroy()] of the request and response variant, on a session
    that is a plain object, as [getIronSession] returned it and at any
    later point.  Its loop always completes and leaves [Object.keys]
    empty.  It has no check of [headersSent]: it throws what [serialize]
    throws, or what [setHeader] throws on a Node response whose headers
    were sent, and in both cases the session has been cleared all the same
    and no cookie is written.  Otherwise it appends the cookie. *)
Theorem destroy_clears_before_it_throws (C : Collaborators) (req : Request)
  (res : Response) (so : SessionOptions) (st st' : Session Response) :
  getIronSessionFromRequest C req res so = Ok (PlainSession st) ->
  reachable (save C) (destroy C) st st' ->
  exists o,
    clearSession (session st') = (o, Ok tt)
    /\ Obj.keys o = []
    /\ match serialize C (configCookieName (sessionConfig st')) EmptyString
               (spread (configCookieOptions (sessionConfig st'))
                  [("maxAge", ANum (Num 0))]) with
       | Throw err => destroy C st' = (withSession st' o, Throw err)
       | Ok cookieValue =>
           if responseHeadersSent (out st')
           then destroy C st' = (withSession st' o, Throw ERR_HTTP_HEADERS_SENT)
           else exists res',
                  setCookie (out st') cookieValue = Ok res'
                  /\ emitted res' = (emitted (out st') ++ [cookieValue])%list
                  /\ destroy C st' = (withOut (withSession st' o) res', Ok tt)
       end.
Proof.
  intros Hload Hreach. unfold getIronSessionFromRequest in Hload.
  destruct (checkedConfig so) as [[pm cfg]|]; [|discriminate]. cbn [rbind] in Hload.
  pose proof (reachable_deletable _ _ _ _ (save_session C) (destroy_session C)
                (loadSession_deletable _ _ _ _ _ _ Hload) Hreach) as Hd.
  destruct (clearSession_completes _ Hd) as [o Ho].
  exists o. split; [exact Ho|]. split; [exact (proj1 (clearSession_Ok _ _ _ Ho))|].
  unfold destroy. rewrite Ho.
  destruct (serialize C _ _ _) as [cookieValue|err]; [|reflexivity].
  destruct (responseHeadersSent (out st')) eqn:Hsent.
  - now rewrite (setCookie_sent _ cookieValue Hsent).
  - destruct (setCookie_unsent (out st') cookieValue Hsent) as [res' Hres].
    exists res'. rewrite Hres. split; [reflexivity|].
    split; [exact (proj1 (setCookie_Ok _ _ _ Hres)) | reflexivity].
Qed.

Lemma destroy_clears_before_it_throws_witness :
  exists st st',
    getIronSessionFromRequest plainCollaborators empty_request
      (ServerResponse true HeaderUndefined) sample_sessionOptions
    = Ok (PlainSession st)
    /\ Obj.keys (session st') = ["userId"]
    /\ exists o,
         Obj.keys o = []
         /\ destroy plainCollaborators st'
            = (withSession st' o, Throw ERR_HTTP_HEADERS_SENT).
Proof.
  pose (st := mkSession (sessionWith []) sample_config
                sample_passwordsMap (ServerResponse true HeaderUndefined)).
  pose (o1 := (sessionWith [] ++ [("userId", Obj.plain (JNum 42))])%list).
  assert (H1 : getIronSessionFromRequest plainCollaborators empty_request
                 (ServerResponse true HeaderUndefined) sample_sessionOptions
               = Ok (PlainSession st))
    by reflexivity.
  assert (H2 : Obj.assign (session st) "userId" (JNum 42) = Ok o1) by reflexivity.
  assert (H3 : reachable (save plainCollaborators) (destroy plainCollaborators)
                 st (withSession st o1)).
  { apply (reach_next _ _ st st (withSession st o1)); [apply reach_here|].
    exact (step_assign _ _ st "userId" (JNum 42) o1 H2). }
  exists st, (withSession st o1).
  split; [exact H1|]. split; [reflexivity|].
  destruct (destroy_clears_before_it_throws plainCollaborators empty_request
              (ServerResponse true HeaderUndefined) sample_sessionOptions st
              (withSession st o1) H1 H3) as (o & _ & Hkeys & Hrun).
  exists o. split; [exact Hkeys|]. exact Hrun.
Defined.

(** X15.  Once the cookie is unsealed to a plain object (or there is no
    cookie), [getIronSession] returns: [Object.defineProperties] never
    throws on the fresh object, whatever its members are named.  On the session returned, [save],
    [destroy] and [updateConfig] can be called, also when the cookie had a
    member of that name, whose value is then lost; every other member of
    the unsealed object is an ordinary property with its value. *)
Theorem load_installs_closures (C : Collaborators) :
  (forall (req : Request) (res : Response) (so : SessionOptions)
          (pm : PasswordsMap) (cfg : SessionConfig) (fields : list (string * json)),
      checkedConfig so = Ok (pm, cfg) ->
      unsealedSession C (getCookie C req (configCookieName cfg)) pm cfg
      = Ok (VJson (JObj fields)) ->
      exists st,
        getIronSessionFromRequest C req res so = Ok (PlainSession st)
        /\ (forall k m, In (k, m) sessionMethods -> methodOf (session st) k = Ok m)
        /\ (forall k j, assoc k fields = Some j ->
              (forall m, ~ In (k, m) sessionMethods) ->
              Obj.getOwn (session st) k = Some (Obj.plain j)))
  /\ (forall (cookieStore : CookieStore) (so : SessionOptions)
             (pm : PasswordsMap) (cfg : SessionConfig)
             (fields : list (string * json)),
         checkedConfig so = Ok (pm, cfg) ->
         unsealedSession C (getServerActionCookie (configCookieName cfg) cookieStore)
           pm cfg = Ok (VJson (JObj fields)) ->
         exists st,
           getIronSessionFromCookieStore C cookieStore so = Ok (PlainSession st)
           /\ (forall k m, In (k, m) sessionMethods -> methodOf (session st) k = Ok m)
           /\ (forall k j, assoc k fields = Some j ->
                 (forall m, ~ In (k, m) sessionMethods) ->
                 Obj.getOwn (session st) k = Some (Obj.plain j))).
Proof.
  split.
  - intros req res so pm cfg fields Hcfg Hf.
    destruct (defineProperties_total fields) as (o & Ho & _ & Hm & Hp & _).
    exists (mkSession o cfg pm res). split; [|split; [exact Hm | exact Hp]].
    unfold getIronSessionFromRequest. rewrite Hcfg. cbn [rbind].
    unfold loadSession. rewrite Hf. cbn [rbind]. now rewrite Ho.
  - intros cs so pm cfg fields Hcfg Hf.
    destruct (defineProperties_total fields) as (o & Ho & _ & Hm & Hp & _).
    exists (mkSession o cfg pm cs). split; [|split; [exact Hm | exact Hp]].
    unfold getIronSessionFromCookieStore. rewrite Hcfg. cbn [rbind].
    unfold loadSession. rewrite Hf. cbn [rbind]. now rewrite Ho.
Qed.

Lemma load_installs_closures_witness :
  checkedConfig sample_sessionOptions = Ok (sample_passwordsMap, sample_config)
  /\ unsealedSession plainCollaborators
       (getCookie plainCollaborators collision_request
          (configCookieName sample_config))
       sample_passwordsMap sample_config = Ok (VJson (JObj [("destroy", JNum 1)]))
  /\ exists st,
       getIronSessionFromRequest plainCollaborators collision_request
         (ServerResponse false HeaderUndefined) sample_sessionOptions
       = Ok (PlainSession st)
       /\ methodOf (session st) "destroy" = Ok Obj.MDestroy.
Proof.
  assert (H1 : checkedConfig sample_sessionOptions
               = Ok (sample_passwordsMap, sample_config)) by reflexivity.
  assert (H2 : unsealedSession plainCollaborators
                 (getCookie plainCollaborators collision_request
                    (configCookieName sample_config))
                 sample_passwordsMap sample_config
               = Ok (VJson (JObj [("destroy", JNum 1)])))
    by (vm_compute; reflexivity).
  split; [exact H1|]. split; [exact H2|].
  destruct (proj1 (load_installs_closures plainCollaborators) collision_request
              (ServerResponse false HeaderUndefined) sample_sessionOptions
              sample_passwordsMap sample_config [("destroy", JNum 1)] H1 H2)
    as (st & Hload & Hm & _).
  exists st. split; [exact Hload|].
  apply Hm. simpl. auto.
Defined.

Lemma getSessionConfig_password (so : SessionOptions) (p : Password) :
  let so' := mkSessionOptions (cookieName so) p (ttl so) (cookieOptions so) in
  configCookieName (getSessionConfig so') = configCookieName (getSessionConfig so)
  /\ configTtl (getSessionConfig so') = configTtl (getSessionConfig so)
  /\ configCookieOptions (getSessionConfig so')
     = configCookieOptions (getSessionConfig so)
  /\ configPassword (getSessionConfig so') = p.
Proof.
  destruct so as [n p0 t co]. unfold getSessionConfig. cbn [cookieName password ttl cookieOptions].
  destruct co as [| |o]; try (repeat split; reflexivity).
  destruct (hasProperty "maxAge" o); [|repeat split; reflexivity].
  destruct (assoc "maxAge" o) as [[]|]; repeat split; reflexivity.
Qed.

(** X16.  [updateConfig] makes none of the usage checks and never reads
    the password of its argument: the passwords in force stay those given
    to [getIronSession].  Two option objects that differ only in their
    password make [save] and [destroy] that follow behave alike, on both
    transports: same completion, same cookie written, same session. *)
Theorem updateConfig_ignores_password (C : Collaborators)
  (so : SessionOptions) (p : Password) :
  let so' := mkSessionOptions (cookieName so) p (ttl so) (cookieOptions so) in
  (forall (st : Session Response) (e : entropy),
      passwordsMap (updateConfig st so') = passwordsMap st
      /\ snd (save C (updateConfig st so') e) = snd (save C (updateConfig st so) e)
      /\ out (fst (save C (updateConfig st so') e))
         = out (fst (save C (updateConfig st so) e))
      /\ snd (destroy C (updateConfig st so')) = snd (destroy C (updateConfig st so))
      /\ out (fst (destroy C (updateConfig st so')))
         = out (fst (destroy C (updateConfig st so)))
      /\ session (fst (destroy C (updateConfig st so')))
         = session (fst (destroy C (updateConfig st so))))
  /\ (forall (st : Session CookieStore) (e : entropy),
         passwordsMap (updateConfig st so') = passwordsMap st
         /\ snd (saveToCookieStore C (updateConfig st so') e)
            = snd (saveToCookieStore C (updateConfig st so) e)
         /\ out (fst (saveToCookieStore C (updateConfig st so') e))
            = out (fst (saveToCookieStore C (updateConfig st so) e))
         /\ snd (destroyInCookieStore (updateConfig st so'))
            = snd (destroyInCookieStore (updateConfig st so))
         /\ out (fst (destroyInCookieStore (updateConfig st so')))
            = out (fst (destroyInCookieStore (updateConfig st so)))).
Proof.
  intros so'.
  destruct (getSessionConfig_password so p) as (Hn & Ht & Ho & _).
  fold so' in Hn, Ht, Ho.
  split.
  - intros st e. split; [reflexivity|].
    unfold save, destroy, sealOptionsOf, updateConfig, withOut, withSession.
    cbn [session sessionConfig passwordsMap out]. rewrite Hn, Ht, Ho.
    repeat split.
    + destruct (responseHeadersSent (out st)); [reflexivity|].
      destruct (sealData C _ _ e) as [[seal e']|]; [|reflexivity].
      destruct (serialize C _ seal _) as [cv|]; [|reflexivity].
      destruct (4096 <? String.length cv)%nat; [reflexivity|].
      now destruct (setCookie (out st) cv).
    + destruct (responseHeadersSent (out st)); [reflexivity|].
      destruct (sealData C _ _ e) as [[seal e']|]; [|reflexivity].
      destruct (serialize C _ seal _) as [cv|]; [|reflexivity].
      destruct (4096 <? String.length cv)%nat; [reflexivity|].
      now destruct (setCookie (out st) cv).
    + destruct (clearSession (session st)) as [o [[]|]]; [|reflexivity].
      destruct (serialize C _ _ _) as [cv|]; [|reflexivity].
      now destruct (setCookie (out st) cv).
    + destruct (clearSession (session st)) as [o [[]|]]; [|reflexivity].
      destruct (serialize C _ _ _) as [cv|]; [|reflexivity].
      now destruct (setCookie (out st) cv).
    + destruct (clearSession (session st)) as [o [[]|]]; [|reflexivity].
      destruct (serialize C _ _ _) as [cv|]; [|reflexivity].
      now destruct (setCookie (out st) cv).
  - intros st e. split; [reflexivity|].
    unfold saveToCookieStore, destroyInCookieStore, sealOptionsOf, updateConfig,
      withOut, withSession.
    cbn [session sessionConfig passwordsMap out]. rewrite Hn, Ht, Ho.
    repeat split.
    + destruct (sealData C _ _ e) as [[seal e']|]; [|reflexivity].
      now destruct (4096 <? _)%nat.
    + destruct (sealData C _ _ e) as [[seal e']|]; [|reflexivity].
      now destruct (4096 <? _)%nat.
    + now destruct (clearSession (session st)) as [o [[]|]].
    + now destruct (clearSession (session st)) as [o [[]|]].
Qed.

(** X17.  [setCookie] called with one value after another on a response
    whose headers were not sent: every call returns; the [set-cookie]
    values the response carried before stay, in their order, the new ones
    follow in the order of the calls, and [headersSent] is not touched.  A
    Node response carries them as an array from the first call on.  On a
    Node response whose headers were sent [setCookie] throws. *)
Theorem setCookie_appends_in_order (res : Response) (vs : list string) :
  (responseHeadersSent res = false ->
     exists res',
       fold_left (fun r v => rbind r (fun x => setCookie x v)) vs (Ok res) = Ok res'
       /\ emitted res' = (emitted res ++ vs)%list
       /\ responseHeadersSent res' = false
       /\ (vs <> [] ->
           forall sent h, res' = ServerResponse sent h ->
             h = HeaderArray (emitted res ++ vs)%list))
  /\ (responseHeadersSent res = true ->
      forall v, setCookie res v = Throw ERR_HTTP_HEADERS_SENT).
Proof.
  split; [|intros Hsent v; now apply setCookie_sent].
  revert res. induction vs as [|v vs IH]; intros res Hsent.
  - exists res. cbn [fold_left]. rewrite app_nil_r.
    repeat split; [exact Hsent|]. intros H. now contradict H.
  - destruct (setCookie_unsent res v Hsent) as [res1 H1].
    destruct (setCookie_Ok _ _ _ H1) as [He1 Hs1].
    destruct (IH res1) as (res' & Hfold & He & Hs & Ha); [now rewrite Hs1|].
    exists res'. cbn [fold_left rbind]. rewrite H1.
    split; [exact Hfold|]. rewrite He, He1, <- app_assoc. cbn [app].
    split; [reflexivity|]. split; [exact Hs|].
    intros _ sent h Hres. destruct vs as [|v' vs'].
    + cbn [fold_left] in Hfold. injection Hfold as <-. subst res1.
      exact (setCookie_array _ _ _ _ H1).
    + rewrite (Ha ltac:(discriminate) sent h Hres).
      now rewrite He1, <- app_assoc.
Qed.

(** X18.  [destroy()] followed by [save()], on a cookie store, for a
    session that is a plain object whose cookie had no member named
    [save], [destroy] or [updateConfig], as [getIronSession] returned it
    and at any later point, and for a [sealData] that looks at its first
    argument through [JSON.stringify] only.  [session.destroy()] returns;
    afterwards [Object.keys] of the session is empty, [set] has been called
    once more, with the cookie name, the empty value and the configured
    options but for [maxAge], which is 0, and the configuration is as it
    was.  [session.save()] then seals what [sealData] makes of the empty
    object: it throws when that throws or is too long, and otherwise calls
    [set] with that seal. *)
Theorem destroy_then_save_seals_empty (C : Collaborators)
  (cookieStore : CookieStore) (so : SessionOptions) (pm : PasswordsMap)
  (cfg : SessionConfig) (fields : list (string * json)) :
  (forall o o' options,
      Obj.toJSON o = Obj.toJSON o' -> sealData C o options = sealData C o' options) ->
  checkedConfig so = Ok (pm, cfg) ->
  unsealedSession C (getServerActionCookie (configCookieName cfg) cookieStore)
    pm cfg = Ok (VJson (JObj fields)) ->
  reservedFree fields ->
  exists st,
    getIronSessionFromCookieStore C cookieStore so = Ok (PlainSession st)
    /\ forall st1 e,
         reachable (saveToCookieStore C) destroyInCookieStore st st1 ->
         exists st2,
           call (saveToCookieStore C) destroyInCookieStore "destroy" st1 e
           = (st2, Ok e)
           /\ Obj.keys (session st2) = []
           /\ setCalls (out st2)
              = (setCalls (out st1)
                 ++ [(configCookieName (sessionConfig st1), EmptyString,
                      spread (configCookieOptions (sessionConfig st1))
                        [("maxAge", ANum (Num 0))])])%list
           /\ sessionConfig st2 = sessionConfig st1
           /\ match sealData C [] (sealOptionsOf st2) e with
              | Throw err =>
                  call (saveToCookieStore C) destroyInCookieStore "save" st2 e
                  = (st2, Throw err)
              | Ok (seal, e') =>
                  let cookieLength :=
                    (String.length (configCookieName (sessionConfig st2))
                     + String.length seal
                     + String.length
                         (JSON_stringify C
                            (attrsToJSON (configCookieOptions (sessionConfig st2)))))%nat in
                  if (4096 <? cookieLength)%nat
                  then call (saveToCookieStore C) destroyInCookieStore "save" st2 e
                       = (st2, Throw (Error (tooBigMessage cookieLength)))
                  else call (saveToCookieStore C) destroyInCookieStore "save" st2 e
                       = (withOut st2
                            (storeSet (out st2)
                               (configCookieName (sessionConfig st2)) seal
                               (configCookieOptions (sessionConfig st2))), Ok e')
              end.
Proof.
  intros Hjsononly Hcfg Hf Hfree.
  destruct (loadSession_fresh C _ pm cfg cookieStore fields Hf Hfree)
    as [st [Hload Hinst]].
  exists st. split.
  { unfold getIronSessionFromCookieStore. rewrite Hcfg. exact Hload. }
  intros st1 e Hreach.
  pose proof (reachable_installed _ _ _ _ (saveToCookieStore_session C)
                destroyInCookieStore_session Hinst Hreach) as Hinst1.
  pose proof (reachable_deletable _ _ _ _ (saveToCookieStore_session C)
                destroyInCookieStore_session
                (loadSession_deletable _ _ _ _ _ _ Hload) Hreach) as Hdel1.
  destruct (clearSession_completes _ Hdel1) as [o Ho].
  destruct (clearSession_Ok _ _ _ Ho) as [Hkeys Hjson].
  assert (Hinst2 : installed o).
  { pose proof (installed_clearSession _ Hinst1) as H. now rewrite Ho in H. }
  exists (withOut (withSession st1 o)
            (storeSet (out st1) (configCookieName (sessionConfig st1)) EmptyString
               (spread (configCookieOptions (sessionConfig st1))
                  [("maxAge", ANum (Num 0))]))).
  split; [|split; [|split; [|split]]].
  - unfold call.
    destruct (installed_protected _ Hinst1 "destroy" Obj.MDestroy) as (_ & _ & Hm & _);
      [simpl; auto|].
    rewrite Hm. unfold destroyInCookieStore. now rewrite Ho.
  - exact Hkeys.
  - reflexivity.
  - reflexivity.
  - unfold call. cbn [session withOut withSession].
    destruct (installed_protected _ Hinst2 "save" Obj.MSave) as (_ & _ & Hm & _);
      [simpl; auto|].
    rewrite Hm. unfold saveToCookieStore.
    cbn [session sessionConfig passwordsMap out withOut withSession].
    rewrite (Hjsononly o [] _ Hjson).
    unfold sealOptionsOf. cbn [session sessionConfig passwordsMap out].
    destruct (sealData C [] _ e) as [[seal e']|err]; [|reflexivity].
    cbv zeta. now destruct (4096 <? _)%nat.
Qed.

Lemma destroy_then_save_seals_empty_witness :
  checkedConfig sample_sessionOptions = Ok (sample_passwordsMap, sample_config)
  /\ unsealedSession plainCollaborators
       (getServerActionCookie (configCookieName sample_config) (storeWith user_json))
       sample_passwordsMap sample_config = Ok (VJson user_json)
  /\ reservedFree [("userId", JNum 42)]
  /\ exists st st2,
       getIronSessionFromCookieStore plainCollaborators (storeWith user_json)
         sample_sessionOptions = Ok (PlainSession st)
       /\ Obj.keys (session st) = ["userId"]
       /\ call (saveToCookieStore plainCollaborators) destroyInCookieStore "destroy"
            st sample_entropy = (st2, Ok sample_entropy)
       /\ Obj.keys (session st2) = []
       /\ map (fun c => snd (fst c))
            (setCalls
               (out (fst (call (saveToCookieStore plainCollaborators)
                            destroyInCookieStore "save" st2 sample_entropy))))
          = [EmptyString; "e30=~2"].
Proof.
  assert (H0 : forall o o' options,
             Obj.toJSON o = Obj.toJSON o' ->
             sealData plainCollaborators o options
             = sealData plainCollaborators o' options).
  { intros o o' options E. unfold plainCollaborators, plainSeal.
    cbn [sealData]. now rewrite E. }
  assert (H1 : checkedConfig sample_sessionOptions
               = Ok (sample_passwordsMap, sample_config)) by reflexivity.
  assert (H2 : unsealedSession plainCollaborators
                 (getServerActionCookie (configCookieName sample_config)
                    (storeWith user_json))
                 sample_passwordsMap sample_config = Ok (VJson user_json))
    by (vm_compute; reflexivity).
  assert (H3 : reservedFree [("userId", JNum 42)]).
  { intros k m Hk.
    destruct (reserved_cases k m Hk) as [[-> _]|[[-> _]|[-> _]]]; reflexivity. }
  split; [exact H1|]. split; [exact H2|]. split; [exact H3|].
  destruct (destroy_then_save_seals_empty plainCollaborators (storeWith user_json)
              sample_sessionOptions sample_passwordsMap sample_config
              [("userId", JNum 42)] H0 H1 H2 H3) as (st & Hload & Hrun).
  destruct (Hrun st sample_entropy (reach_here _ _ st))
    as (st2 & Hcall & Hkeys & _ & _ & _).
  exists st, st2. split; [exact Hload|].
  vm_compute in Hload. injection Hload as <-.
  split; [vm_compute; reflexivity|]. split; [exact Hcall|]. split; [exact Hkeys|].
  vm_compute in Hcall. injection Hcall as <-. vm_compute. reflexivity.
Defined.

(** X19.  When the plain object the session starts from (the unsealed
    cookie, or the empty object) has no member named [save], [destroy] or
    [updateConfig], [getIronSession] installs the three closures as own
    properties that are not enumerable, configurable or writable, and they
    stay so whatever happens next: calls of [save], [destroy] and
    [updateConfig], assignments to fields and deletions of fields.  At any
    such point [Object.keys] lists none of them, each can be called, and
    the payload [save] seals has no member of their names. *)
Theorem closures_stay_protected (C : Collaborators) :
  (forall (req : Request) (res : Response) (so : SessionOptions)
          (pm : PasswordsMap) (cfg : SessionConfig) (fields : list (string * json)),
      checkedConfig so = Ok (pm, cfg) ->
      unsealedSession C (getCookie C req (configCookieName cfg)) pm cfg
      = Ok (VJson (JObj fields)) ->
      reservedFree fields ->
      exists st,
        getIronSessionFromRequest C req res so = Ok (PlainSession st)
        /\ forall st', reachable (save C) (destroy C) st st' ->
                       protected (session st'))
  /\ (forall (cookieStore : CookieStore) (so : SessionOptions)
             (pm : PasswordsMap) (cfg : SessionConfig)
             (fields : list (string * json)),
         checkedConfig so = Ok (pm, cfg) ->
         unsealedSession C (getServerActionCookie (configCookieName cfg) cookieStore)
           pm cfg = Ok (VJson (JObj fields)) ->
         reservedFree fields ->
         exists st,
           getIronSessionFromCookieStore C cookieStore so = Ok (PlainSession st)
           /\ forall st', reachable (saveToCookieStore C) destroyInCookieStore st st' ->
                          protected (session st')).
Proof.
  split.
  - intros req res so pm cfg fields Hcfg Hf Hfree.
    destruct (loadSession_fresh C _ pm cfg res fields Hf Hfree) as [st [Hload Hinst]].
    exists st. split.
    + unfold getIronSessionFromRequest. rewrite Hcfg. exact Hload.
    + intros st' Hreach. apply installed_protected.
      exact (reachable_installed _ _ _ _ (save_session C) (destroy_session C)
               Hinst Hreach).
  - intros cs so pm cfg fields Hcfg Hf Hfree.
    destruct (loadSession_fresh C _ pm cfg cs fields Hf Hfree) as [st [Hload Hinst]].
    exists st. split.
    + unfold getIronSessionFromCookieStore. rewrite Hcfg. exact Hload.
    + intros st' Hreach. apply installed_protected.
      exact (reachable_installed _ _ _ _ (saveToCookieStore_session C)
               destroyInCookieStore_session Hinst Hreach).
Qed.

Lemma closures_stay_protected_witness :
  checkedConfig sample_sessionOptions = Ok (sample_passwordsMap, sample_config)
  /\ unsealedSession plainCollaborators
       (getCookie plainCollaborators (requestWith user_json)
          (configCookieName sample_config))
       sample_passwordsMap sample_config = Ok (VJson user_json)
  /\ reservedFree [("userId", JNum 42)]
  /\ exists st,
       getIronSessionFromRequest plainCollaborators (requestWith user_json)
         (ServerResponse false HeaderUndefined) sample_sessionOptions
       = Ok (PlainSession st)
       /\ Obj.keys (session st) = ["userId"]
       /\ protected (session (fst (destroy plainCollaborators st))).
Proof.
  assert (H1 : checkedConfig sample_sessionOptions
               = Ok (sample_passwordsMap, sample_config)) by reflexivity.
  assert (H2 : unsealedSession plainCollaborators
                 (getCookie plainCollaborators (requestWith user_json)
                    (configCookieName sample_config))
                 sample_passwordsMap sample_config = Ok (VJson user_json))
    by (vm_compute; reflexivity).
  assert (H3 : reservedFree [("userId", JNum 42)]).
  { intros k m Hk.
    destruct (reserved_cases k m Hk) as [[-> _]|[[-> _]|[-> _]]]; reflexivity. }
  split; [exact H1|]. split; [exact H2|]. split; [exact H3|].
  destruct (proj1 (closures_stay_protected plainCollaborators)
              (requestWith user_json) (ServerResponse false HeaderUndefined)
              sample_sessionOptions sample_passwordsMap sample_config
              [("userId", JNum 42)] H1 H2 H3) as (st & Hload & Hprot).
  exists st. split; [exact Hload|]. split.
  - vm_compute in Hload. injection Hload as <-. vm_compute. reflexivity.
  - apply Hprot.
    apply (reach_next _ _ st st _ (reach_here _ _ st)). apply step_destroy.
Defined.

End ClosureProperties.
